(** * MP00BOT: signal scorer and signal lifecycle monitor

    A shallow embedding of [signal_engine.py], [monitoring_system.py] and the
    parts of [config.py], [database.py], [indicators.py] and [telegram_bot.py]
    they call, with the generation gate of [main.py] and the market check of
    [data_handler.py], followed by the properties of the specification and
    by further properties of the code.

    Conventions of the embedding.
    - A Python/numpy float is a value of [float]: a rational, one of the two
      infinities, or NaN.  NaN and the infinities propagate as in IEEE 754,
      and every comparison with NaN is false; signed zeros are not
      modelled.  [b64] rounds a rational to the nearest binary64 number,
      ties to even, with gradual underflow and overflow to an infinity.
      Where the code compares a computed bound or quotient with a constant,
      or rounds it to decimals ([_is_entry_hit], [_calculate_entry_price],
      [_calculate_quantity]), every operation and every literal is rounded
      with [b64], as the interpreter rounds them ([fadd], [fsub], [fmul],
      [fdiv]).  Elsewhere the arithmetic on finite values is exact: the
      properties there compare stored values or hold of the exact result.
    - A [datetime] is a number of seconds ([Z]).  Reading the clock
      ([datetime.utcnow()]) is an argument [now] of the function that reads it.
    - Code that can raise returns a [result]; [try ... except Exception] is a
      match on it.  The calls into SQLAlchemy and into the exchange are
      taken to succeed or to fail the way their wrappers report it (a
      missing row, a price of [None]), not to raise.
    - The strings that the code only compares with a fixed set of words
      (mode, direction, status) are enumerations.  Close reasons, execution
      types and column names stay strings.
    - A pass of a loop reads the clock once.
    - The three polling loops are asyncio tasks of one event loop.  The body of
      one iteration of a loop holds no suspension point that yields while the
      shared maps are in use (the queue is unbounded, so [put] returns at
      once), hence one iteration is one function on the monitor's state. *)

From Stdlib Require Import QArith Qabs Qround Lqa ZArith Lia.
From stdpp Require Import base option list gmap strings.

Local Open Scope Z_scope.

(** ** Floats *)

Module Float.

Inductive float : Type :=
  | NaN
  | PInf
  | NInf
  | Fin (q : Q).

Definition zero : float := Fin 0.

Definition isna (x : float) : bool :=
  match x with NaN => true | _ => false end.

Definition notna (x : float) : bool := negb (isna x).

(** [bool(x)] of a float: only zero is falsy (NaN is truthy). *)
Definition truthy (x : float) : bool :=
  match x with
  | Fin q => negb (Qeq_bool q 0)
  | _ => true
  end.

Definition Qlt_bool (a b : Q) : bool := negb (Qle_bool b a).

Definition ltb (x y : float) : bool :=
  match x, y with
  | NaN, _ | _, NaN => false
  | _, NInf => false
  | NInf, _ => true
  | PInf, _ => false
  | _, PInf => true
  | Fin a, Fin b => Qlt_bool a b
  end.

Definition leb (x y : float) : bool :=
  match x, y with
  | NaN, _ | _, NaN => false
  | NInf, _ => true
  | _, NInf => false
  | _, PInf => true
  | PInf, _ => false
  | Fin a, Fin b => Qle_bool a b
  end.

Definition gtb (x y : float) : bool := ltb y x.
Definition geb (x y : float) : bool := leb y x.

Definition eqb (x y : float) : bool :=
  match x, y with
  | PInf, PInf | NInf, NInf => true
  | Fin a, Fin b => Qeq_bool a b
  | _, _ => false
  end.

Definition neg (x : float) : float :=
  match x with
  | NaN => NaN
  | PInf => NInf
  | NInf => PInf
  | Fin a => Fin (- a)
  end.

Definition add (x y : float) : float :=
  match x, y with
  | NaN, _ | _, NaN => NaN
  | PInf, NInf | NInf, PInf => NaN
  | PInf, _ | _, PInf => PInf
  | NInf, _ | _, NInf => NInf
  | Fin a, Fin b => Fin (a + b)
  end.

Definition sub (x y : float) : float := add x (neg y).

(** Sign of a value that is not NaN: [-1], [0] or [1]. *)
Definition sgn (x : float) : Z :=
  match x with
  | NaN => 0
  | PInf => 1
  | NInf => -1
  | Fin a => Z.sgn (Qnum a)
  end.

Definition inf_of_sign (s : Z) : float :=
  if (s =? 0)%Z then NaN else if (0 <? s)%Z then PInf else NInf.

Definition mul (x y : float) : float :=
  match x, y with
  | NaN, _ | _, NaN => NaN
  | Fin a, Fin b => Fin (a * b)
  | _, _ => inf_of_sign (sgn x * sgn y)
  end.

(** numpy division: a finite value over zero is an infinity (NaN for 0/0),
    with a warning and no exception. *)
Definition div (x y : float) : float :=
  match x, y with
  | NaN, _ | _, NaN => NaN
  | Fin a, Fin b =>
      if Qeq_bool b 0 then inf_of_sign (Z.sgn (Qnum a)) else Fin (a / b)
  | Fin _, _ => Fin 0
  | _, Fin b => if Qeq_bool b 0 then x else inf_of_sign (sgn x * sgn y)
  | _, _ => NaN
  end.

Definition abs (x : float) : float :=
  match x with
  | NaN => NaN
  | PInf | NInf => PInf
  | Fin a => Fin (Qabs a)
  end.

(** Python's built-in [max(a, b)] and [min(a, b)]: the first argument is kept
    unless the second compares strictly greater (smaller). *)
Definition pymax (a b : float) : float := if gtb b a then b else a.
Definition pymin (a b : float) : float := if ltb b a then b else a.

(** Round half to even at the unit. *)
Definition round_half_even (q : Q) : Z :=
  let n := Qnum q in
  let d := Zpos (Qden q) in
  let f := (n / d)%Z in
  let r := (2 * (n mod d))%Z in
  if (r <? d)%Z then f
  else if (d <? r)%Z then (f + 1)%Z
  else if Z.even f then f else (f + 1)%Z.

(** [floor (log2 |q|)], for [q] other than zero. *)
Definition ilog2 (q : Q) : Z :=
  let e0 := (Z.log2 (Z.abs (Qnum q)) - Z.log2 (Zpos (Qden q)))%Z in
  if Qle_bool (Qpower 2 e0) (Qabs q) then e0 else (e0 - 1)%Z.

(** The binary64 number nearest to a value, ties to even: 53 bits of
    precision, exponents down to that of the subnormal numbers (-1074), and
    an infinity from 2^1024 on. *)
Definition b64 (x : float) : float :=
  match x with
  | Fin q =>
      if Qeq_bool q 0 then Fin 0
      else
        let s := Z.max (ilog2 q - 52) (-1074) in
        let r :=
          Qred (inject_Z (round_half_even (q / Qpower 2 s)) * Qpower 2 s) in
        if Qle_bool (Qpower 2 1024) (Qabs r)
        then (if Qle_bool 0 q then PInf else NInf)
        else Fin r
  | _ => x
  end.

(** The four operations on binary64 numbers: the exact result, rounded. *)
Definition fadd (x y : float) : float := b64 (add x y).
Definition fsub (x y : float) : float := b64 (sub x y).
Definition fmul (x y : float) : float := b64 (mul x y).
Definition fdiv (x y : float) : float := b64 (div x y).

(** [round(x, 6)] of a binary64 number: its exact value rounded to six
    decimals, half to even, and the binary64 number nearest to that. *)
Definition round6 (x : float) : float :=
  match x with
  | Fin a => b64 (Fin (inject_Z (round_half_even (a * 1000000)) / 1000000))
  | _ => x
  end.

(** Order as propositions. *)
Definition lt (x y : float) : Prop := ltb x y = true.
Definition le (x y : float) : Prop := leb x y = true.

End Float.

Import Float.

(** ** Errors *)

Inductive exn : Type :=
  | KeyError (key : string)
  | IndexError
  | TypeError.

Inductive result (A : Type) : Type :=
  | Ok (a : A)
  | Raise (e : exn).
Arguments Ok {A} a.
Arguments Raise {A} e.

#[global] Instance result_ret : MRet result := fun A a => Ok a.

#[global] Instance result_bind : MBind result := fun A B k m =>
  match m with
  | Ok a => k a
  | Raise e => Raise e
  end.

(** [try: m except Exception: return d]. *)
Definition try_except {A : Type} (m : result A) (d : A) : A :=
  match m with
  | Ok a => a
  | Raise _ => d
  end.

(** ** config.py *)

Inductive Direction : Type := LONG | SHORT.
Inductive Mode : Type := SCALPING | INTRADAY | SWING.

Record ModeConfig : Type := mkModeConfig {
  name : string;
  primary_tf : string;
  confirm_tf : string;
  adx_min : Z;
  volume_boost_min : float;
  sl_atr_mult : float;
  tp_atr_mult_min : float;
  tp_atr_mult_max : float;
  trailing_pct : float;
  score_min : Z;
  order_validity_minutes : Z;
  cooldown_minutes : Z
}.

(** The table built by [Config.__post_init__]. *)
Definition modes (m : Mode) : ModeConfig :=
  match m with
  | SCALPING =>
      mkModeConfig "SCALPING" "1m" "5m" 22 (Fin 0.15) (Fin 1.0) (Fin 1.5)
        (Fin 2.0) (Fin 0.003) 55 15 15
  | INTRADAY =>
      mkModeConfig "INTRADAY" "15m" "1h" 20 (Fin 0.20) (Fin 1.25) (Fin 2.0)
        (Fin 3.0) (Fin 0.005) 60 75 60
  | SWING =>
      mkModeConfig "SWING" "4h" "1d" 18 (Fin 0.10) (Fin 1.5) (Fin 2.5)
        (Fin 3.5) (Fin 0.008) 65 720 240
  end.

(** The fields of [Config] read from the environment. *)
Record Config : Type := mkConfig {
  initial_equity : float;
  risk_per_trade : float;
  daily_loss_cap : float;
  max_concurrent_signals : Z
}.

(** The values [Config] takes when the environment sets none. *)
Definition config : Config := mkConfig (Fin 10000) (Fin 0.01) (Fin 0.03) 3.

(** An [int] used where a float is expected. *)
Definition of_int (z : Z) : float := Fin (inject_Z z).

(** ** database.py *)

Inductive Status : Type := NEW | FILLED | CANCELLED | WIN | LOSE.

(** A row of the [signals] table, and equally the detached ORM object the
    monitor keeps in memory.  Nullable columns are options. *)
Record Signal : Type := mkSignal {
  code : string;
  symbol : string;
  mode : Mode;
  direction : Direction;
  entry_price : float;
  stop_loss : float;
  take_profit : float;
  quantity : float;
  atr_value : option float;
  status : Status;
  filled_at : option Z;
  closed_at : option Z;
  fill_price : option float;
  close_price : option float;
  close_reason : option string;
  pnl_points : option float;
  pnl_percent : option float;
  pnl_usd : option float;
  validity_until : option Z
}.

Record SignalExecution : Type := mkSignalExecution {
  exec_signal : string;
  execution_type : string;
  exec_price : float;
  exec_quantity : float;
  exec_timestamp : Z
}.

Record Cooldown : Type := mkCooldown {
  cd_symbol : string;
  cd_mode : Mode;
  cd_reason : string;
  cooldown_until : Z
}.

(** The tables the monitor writes.  [signals] is keyed by the unique column
    [code]. *)
Record Database : Type := mkDatabase {
  signals : gmap string Signal;
  executions : list SignalExecution;
  cooldowns : list Cooldown
}.

(** The keyword arguments of [update_signal_status]: [None] is a keyword that
    was not passed. *)
Record StatusKwargs : Type := mkStatusKwargs {
  kw_fill_price : option float;
  kw_close_price : option float;
  kw_close_reason : option string
}.

Definition opt_truthy (x : option float) : bool :=
  match x with
  | Some v => truthy v
  | None => false
  end.

Definition update_row (now : Z) (status' : Status) (kw : StatusKwargs)
    (s : Signal) : Signal :=
  let fill_price' :=
    match kw_fill_price kw with Some p => Some p | None => fill_price s end in
  let filled_at' :=
    match kw_fill_price kw with Some _ => Some now | None => filled_at s end in
  match kw_close_price kw with
  | None =>
      mkSignal (code s) (symbol s) (mode s) (direction s) (entry_price s)
        (stop_loss s) (take_profit s) (quantity s) (atr_value s) status'
        filled_at' (closed_at s) fill_price' (close_price s) (close_reason s)
        (pnl_points s) (pnl_percent s) (pnl_usd s) (validity_until s)
  | Some cp =>
      let reason :=
        match kw_close_reason kw with
        | Some r => r
        | None => "UNKNOWN"%string
        end in
      let pnl :=
        match fill_price' with
        | Some fp =>
            if truthy fp then
              let points :=
                match direction s with
                | LONG => sub cp fp
                | SHORT => sub fp cp
                end in
              Some (points, mul (div points fp) (Fin 100),
                    mul points (quantity s))
            else None
        | None => None
        end in
      mkSignal (code s) (symbol s) (mode s) (direction s) (entry_price s)
        (stop_loss s) (take_profit s) (quantity s) (atr_value s) status'
        filled_at' (Some now) fill_price' (Some cp) (Some reason)
        (match pnl with Some (p, _, _) => Some p | None => pnl_points s end)
        (match pnl with Some (_, p, _) => Some p | None => pnl_percent s end)
        (match pnl with Some (_, _, p) => Some p | None => pnl_usd s end)
        (validity_until s)
  end.

Definition update_signal_status (now : Z) (code0 : string) (status' : Status)
    (kw : StatusKwargs) (d : Database) : Database :=
  match signals d !! code0 with
  | Some s =>
      mkDatabase (<[code0 := update_row now status' kw s]> (signals d))
        (executions d) (cooldowns d)
  | None => d
  end.

Definition add_signal_execution (now : Z) (signal_code : string)
    (execution_type0 : string) (price quantity0 : float) (d : Database)
    : Database :=
  match signals d !! signal_code with
  | Some _ =>
      mkDatabase (signals d)
        (executions d ++
           [mkSignalExecution signal_code execution_type0 price quantity0 now])
        (cooldowns d)
  | None => d
  end.

Definition Mode_eqb (a b : Mode) : bool :=
  match a, b with
  | SCALPING, SCALPING | INTRADAY, INTRADAY | SWING, SWING => true
  | _, _ => false
  end.

Definition add_cooldown (symbol0 : string) (mode0 : Mode) (reason : string)
    (until : Z) (d : Database) : Database :=
  let kept :=
    List.filter (fun c => negb (String.eqb (cd_symbol c) symbol0
                           && Mode_eqb (cd_mode c) mode0)) (cooldowns d) in
  mkDatabase (signals d) (executions d)
    (kept ++ [mkCooldown symbol0 mode0 reason until]).

Definition get_signal_by_code (code0 : string) (d : Database)
    : option Signal :=
  signals d !! code0.

(** ** telegram_bot.py: the notification queue *)

Inductive Notification : Type :=
  | signal_result (signal_code : string) (result_type : Status)
      (entry_price0 : option float) (close_price0 : float) (quantity0 : float)
  | system_alert (level : string) (message : string).

(** ** monitoring_system.py: [SignalMonitor] *)

(** The monitor's three dictionaries, with the two module-level singletons it
    writes to ([db_manager] and the queue of [telegram_manager]).
    [active_signals] is a Python dictionary that is iterated: it keeps its
    insertion order, so it is a list of pairs with distinct keys.
    [notification_queue] is the history of everything put on the queue. *)
Record State : Type := mkState {
  active_signals : list (string * Signal);
  price_cache : gmap string float;
  trailing_stops : gmap string float;
  db : Database;
  notification_queue : list Notification
}.

Definition set_trailing_stops (t : gmap string float) (st : State) : State :=
  mkState (active_signals st) (price_cache st) t (db st)
    (notification_queue st).

Definition set_db (d : Database) (st : State) : State :=
  mkState (active_signals st) (price_cache st) (trailing_stops st) d
    (notification_queue st).

Definition set_price_cache (p : gmap string float) (st : State) : State :=
  mkState (active_signals st) p (trailing_stops st) (db st)
    (notification_queue st).

Definition set_active_signals (a : list (string * Signal)) (st : State)
    : State :=
  mkState a (price_cache st) (trailing_stops st) (db st)
    (notification_queue st).

(** [await self.notification_queue.put(n)]. *)
Definition put (n : Notification) (st : State) : State :=
  mkState (active_signals st) (price_cache st) (trailing_stops st) (db st)
    (notification_queue st ++ [n]).

(** Assignment [d[k] = v] on an insertion-ordered dictionary. *)
Fixpoint dict_set {V : Type} (k : string) (v : V) (d : list (string * V))
    : list (string * V) :=
  match d with
  | [] => [(k, v)]
  | (k', v') :: rest =>
      if String.eqb k' k then (k, v) :: rest else (k', v') :: dict_set k v rest
  end.

(** [d.pop(k, None)]. *)
Definition dict_pop {V : Type} (k : string) (d : list (string * V))
    : list (string * V) :=
  List.filter (fun kv => negb (String.eqb (fst kv) k)) d.

(** The in-memory object after [_handle_signal_filled] has assigned its
    [status], [fill_price] and [filled_at]. *)
Definition mark_filled (now : Z) (p : float) (s : Signal) : Signal :=
  mkSignal (code s) (symbol s) (mode s) (direction s) (entry_price s)
    (stop_loss s) (take_profit s) (quantity s) (atr_value s) FILLED
    (Some now) (closed_at s) (Some p) (close_price s) (close_reason s)
    (pnl_points s) (pnl_percent s) (pnl_usd s) (validity_until s).

(** [_initialize_trailing_stop].  A [None] in [atr_value] or [fill_price]
    raises [TypeError] in the arithmetic, which the function catches: the
    map is then left as it was. *)
Definition _initialize_trailing_stop (signal : Signal) (st : State) : State :=
  let mode_config := modes (mode signal) in
  match atr_value signal, fill_price signal with
  | Some atr, Some fp =>
      let trailing_distance :=
        mul (mul atr (sl_atr_mult mode_config)) (Fin 0.5) in
      match direction signal with
      | LONG =>
          let initial_trailing := sub fp trailing_distance in
          set_trailing_stops
            (<[code signal := pymax initial_trailing (stop_loss signal)]>
               (trailing_stops st)) st
      | SHORT =>
          let initial_trailing := add fp trailing_distance in
          set_trailing_stops
            (<[code signal := pymin initial_trailing (stop_loss signal)]>
               (trailing_stops st)) st
      end
  | _, _ => st
  end.

(** The bound is computed in binary64: [entry_price * (1 + tolerance)] is
    the rounded product with the rounded sum. *)
Definition _is_entry_hit (signal : Signal) (current_price : float) : bool :=
  let tolerance := b64 (Fin 0.001) in
  match direction signal with
  | LONG =>
      leb current_price
        (fmul (entry_price signal) (fadd (Fin 1) tolerance))
  | SHORT =>
      geb current_price
        (fmul (entry_price signal) (fsub (Fin 1) tolerance))
  end.

Definition _is_take_profit_hit (signal : Signal) (current_price : float)
    : bool :=
  match direction signal with
  | LONG => geb current_price (take_profit signal)
  | SHORT => leb current_price (take_profit signal)
  end.

Definition _is_stop_loss_hit (signal : Signal) (current_price : float)
    : bool :=
  match direction signal with
  | LONG => leb current_price (stop_loss signal)
  | SHORT => geb current_price (stop_loss signal)
  end.

Definition _is_trailing_stop_hit (st : State) (signal : Signal)
    (current_price : float) : bool :=
  match trailing_stops st !! code signal with
  | None => false
  | Some trailing_stop =>
      if negb (truthy trailing_stop) then false
      else
        match direction signal with
        | LONG => leb current_price trailing_stop
        | SHORT => geb current_price trailing_stop
        end
  end.

Definition _update_trailing_stop (signal : Signal) (current_price : float)
    (st : State) : State :=
  match trailing_stops st !! code signal with
  | None => st
  | Some current_trailing =>
      let mode_config := modes (mode signal) in
      let trailing_distance := mul current_price (trailing_pct mode_config) in
      match direction signal with
      | LONG =>
          let new_trailing := sub current_price trailing_distance in
          if gtb new_trailing current_trailing then
            set_trailing_stops
              (<[code signal := new_trailing]> (trailing_stops st)) st
          else st
      | SHORT =>
          let new_trailing := add current_price trailing_distance in
          if ltb new_trailing current_trailing then
            set_trailing_stops
              (<[code signal := new_trailing]> (trailing_stops st)) st
          else st
      end
  end.

Definition expired_message (signal : Signal) : string :=
  String.append "Signal "
    (String.append (code signal)
       (String.append " ("
          (String.append (symbol signal) ") expired without entry"))).

Definition _handle_signal_expired (now : Z) (signal : Signal) (st : State)
    : State :=
  let st :=
    set_db
      (update_signal_status now (code signal) CANCELLED
         (mkStatusKwargs None None (Some "EXPIRED"%string)) (db st)) st in
  put (system_alert "INFO" (expired_message signal)) st.

(** Returns the new state and the mutated signal object. *)
Definition _handle_signal_filled (now : Z) (signal : Signal)
    (fill_price0 : float) (st : State) : State * Signal :=
  let st :=
    set_db
      (update_signal_status now (code signal) FILLED
         (mkStatusKwargs (Some fill_price0) None None) (db st)) st in
  let signal := mark_filled now fill_price0 signal in
  let st := _initialize_trailing_stop signal st in
  let st :=
    set_db
      (add_signal_execution now (code signal) "ENTRY" fill_price0
         (quantity signal) (db st)) st in
  (st, signal).

Definition _handle_take_profit (now : Z) (signal : Signal)
    (close_price0 : float) (st : State) : State :=
  let st :=
    set_db
      (update_signal_status now (code signal) WIN
         (mkStatusKwargs None (Some close_price0) (Some "TP"%string))
         (db st)) st in
  let st :=
    set_db
      (add_signal_execution now (code signal) "TP" close_price0
         (quantity signal) (db st)) st in
  put (signal_result (code signal) WIN (fill_price signal) close_price0
         (quantity signal)) st.

Definition _handle_stop_loss (now : Z) (signal : Signal)
    (close_price0 : float) (st : State) : State :=
  let st :=
    set_db
      (update_signal_status now (code signal) LOSE
         (mkStatusKwargs None (Some close_price0) (Some "SL"%string))
         (db st)) st in
  let st :=
    set_db
      (add_signal_execution now (code signal) "SL" close_price0
         (quantity signal) (db st)) st in
  let st :=
    put (signal_result (code signal) LOSE (fill_price signal) close_price0
           (quantity signal)) st in
  let mode_config := modes (mode signal) in
  let cooldown_until0 := now + 60 * cooldown_minutes mode_config in
  set_db
    (add_cooldown (symbol signal) (mode signal) "LOSS" cooldown_until0
       (db st)) st.

Definition _was_profitable_before_trailing (st : State) (signal : Signal)
    : bool :=
  let trailing := default (stop_loss signal) (trailing_stops st !! code signal) in
  match direction signal with
  | LONG => gtb trailing (stop_loss signal)
  | SHORT => ltb trailing (stop_loss signal)
  end.

Definition _handle_trailing_stop (now : Z) (signal : Signal)
    (close_price0 : float) (st : State) : State :=
  let result_type0 :=
    if _was_profitable_before_trailing st signal then WIN else LOSE in
  let st :=
    set_db
      (update_signal_status now (code signal) result_type0
         (mkStatusKwargs None (Some close_price0) (Some "TRAILING"%string))
         (db st)) st in
  let st :=
    set_db
      (add_signal_execution now (code signal) "TRAILING" close_price0
         (quantity signal) (db st)) st in
  put (signal_result (code signal) result_type0 (fill_price signal)
         close_price0 (quantity signal)) st.

(** [_check_signal_status]: the new state, the signal object as the call
    leaves it, and the returned flag ([true]: remove from monitoring).
    Comparing [datetime.utcnow()] with a [validity_until] of [None] raises
    [TypeError], caught by the function's handler, which returns [False]. *)
Definition _check_signal_status (now : Z) (signal : Signal) (st : State)
    : State * Signal * bool :=
  match price_cache st !! symbol signal with
  | None => (st, signal, false)
  | Some current_price =>
      if negb (truthy current_price) then (st, signal, false)
      else
        match status signal with
        | NEW =>
            match validity_until signal with
            | None => (st, signal, false)
            | Some deadline =>
                if (deadline <? now)%Z then
                  (_handle_signal_expired now signal st, signal, true)
                else if _is_entry_hit signal current_price then
                  let '(st', signal') :=
                    _handle_signal_filled now signal current_price st in
                  (st', signal', false)
                else (st, signal, false)
            end
        | FILLED =>
            if _is_take_profit_hit signal current_price then
              (_handle_take_profit now signal current_price st, signal, true)
            else
              match trailing_stops st !! code signal with
              | Some _ =>
                  if _is_trailing_stop_hit st signal current_price then
                    (_handle_trailing_stop now signal current_price st,
                     signal, true)
                  else
                    (_update_trailing_stop signal current_price st,
                     signal, false)
              | None =>
                  if _is_stop_loss_hit signal current_price then
                    (_handle_stop_loss now signal current_price st,
                     signal, true)
                  else (st, signal, false)
              end
        | _ => (st, signal, false)
        end
  end.

(** The [for] loop of [_monitor_signals] over [active_signals.items()]: every
    entry is checked against the state the previous entries left; the
    entries come back with the mutations made to their objects, together
    with [signals_to_remove]. *)
Fixpoint monitor_each (now : Z) (items : list (string * Signal)) (st : State)
    : State * list (string * Signal) * list string :=
  match items with
  | [] => (st, [], [])
  | (signal_code, signal) :: rest =>
      let '(st1, signal', res) := _check_signal_status now signal st in
      let '(st2, rest', to_remove) := monitor_each now rest st1 in
      (st2, (signal_code, signal') :: rest',
       if res then signal_code :: to_remove else to_remove)
  end.

(** The second [for] loop of [_monitor_signals]: the completed signals
    leave both dictionaries. *)
Definition remove_completed (signals_to_remove : list string) (st : State)
    : State :=
  foldl
    (fun s signal_code =>
       set_trailing_stops (delete signal_code (trailing_stops s))
         (set_active_signals (dict_pop signal_code (active_signals s)) s))
    st signals_to_remove.

(** One iteration of the [while] loop of [_monitor_signals]. *)
Definition _monitor_signals (now : Z) (st : State) : State :=
  let '(st1, items', signals_to_remove) :=
    monitor_each now (active_signals st) st in
  remove_completed signals_to_remove (set_active_signals items' st1).

(** One iteration of the [while] loop of [_update_prices]. [feed] is
    [data_handler.get_current_price]: [None] when the fetch fails. *)
Definition _update_prices (feed : string -> option float) (st : State)
    : State :=
  let symbols : gset string :=
    list_to_set (map (fun kv => symbol (snd kv)) (active_signals st)) in
  foldl
    (fun s symbol0 =>
       match feed symbol0 with
       | Some price =>
           if truthy price then
             set_price_cache (<[symbol0 := price]> (price_cache s)) s
           else s
       | None => s
       end)
    st (elements symbols).

Definition is_expired_new (current_time : Z) (signal : Signal) : bool :=
  match status signal, validity_until signal with
  | NEW, Some deadline => (deadline <? current_time)%Z
  | _, _ => false
  end.

(** One iteration of the [while] loop of [_check_expired_signals]. *)
Definition _check_expired_signals (current_time : Z) (st : State) : State :=
  let expired_signals :=
    List.filter (is_expired_new current_time) (map snd (active_signals st)) in
  foldl (fun s signal => _handle_signal_expired current_time signal s)
    st expired_signals.

(** [add_signal_to_monitoring]. *)
Definition add_signal_to_monitoring (signal_code : string) (st : State)
    : State :=
  match get_signal_by_code signal_code (db st) with
  | Some signal =>
      match status signal with
      | NEW | FILLED =>
          let st :=
            set_active_signals
              (dict_set signal_code signal (active_signals st)) st in
          match status signal with
          | FILLED =>
              if opt_truthy (fill_price signal)
              then _initialize_trailing_stop signal st else st
          | _ => st
          end
      | _ => st
      end
  | None => st
  end.

(** ** pandas: the part of [DataFrame] the scorer reads *)

(** A row ([df.iloc[i]]) maps the names of its columns to values; a frame is
    its rows, oldest first. *)
Definition DataFrame : Type := list (gmap string float).

(** [row[col]]. *)
Definition getitem (row : gmap string float) (col : string) : result float :=
  match row !! col with
  | Some v => Ok v
  | None => Raise (KeyError col)
  end.

(** [df.iloc[-(k+1)]]. *)
Definition iloc_back (df : DataFrame) (k : nat) : result (gmap string float) :=
  match rev df !! k with
  | Some row => Ok row
  | None => Raise IndexError
  end.

(** [df[col].iloc[-(k+1)]]. *)
Definition col_iloc_back (df : DataFrame) (col : string) (k : nat)
    : result float :=
  row ← iloc_back df k; getitem row col.

(** [df.tail(n)]. *)
Definition tail (n : nat) (df : DataFrame) : DataFrame :=
  drop (length df - n)%nat df.

(** [df[col]] as the list of its values. *)
Fixpoint column (df : DataFrame) (col : string) : result (list float) :=
  match df with
  | [] => Ok []
  | row :: rest => v ← getitem row col; vs ← column rest col; Ok (v :: vs)
  end.

Definition dropna (l : list float) : list float := List.filter notna l.

(** [Series.max()], [Series.min()] and [Series.mean()]: NaN entries are
    skipped, and the result is NaN when nothing is left. *)
Definition series_max (l : list float) : float :=
  match dropna l with
  | [] => NaN
  | x :: xs => foldl (fun m v => if gtb v m then v else m) x xs
  end.

Definition series_min (l : list float) : float :=
  match dropna l with
  | [] => NaN
  | x :: xs => foldl (fun m v => if ltb v m then v else m) x xs
  end.

Definition series_mean (l : list float) : float :=
  match dropna l with
  | [] => NaN
  | x :: xs =>
      div (foldl add x xs) (of_int (Z.of_nat (length (x :: xs))))
  end.

(** ** indicators.py: [IndicatorAnalysis] *)

Inductive TrendBias : Type := Trend (d : Direction) | NEUTRAL.

Definition Direction_eqb (a b : Direction) : bool :=
  match a, b with
  | LONG, LONG | SHORT, SHORT => true
  | _, _ => false
  end.

(** [trend_bias == direction]. *)
Definition bias_is (b : TrendBias) (d : Direction) : bool :=
  match b with
  | Trend d' => Direction_eqb d' d
  | NEUTRAL => false
  end.

Definition get_trend_bias (df : DataFrame) (mode0 : Mode) : TrendBias :=
  try_except
    (latest ← iloc_back df 0;
     ema_200 ← getitem latest "ema_200";
     ema_bias ←
       (if notna ema_200 then
          close ← getitem latest "close";
          if gtb close ema_200 then Ok (Trend LONG)
          else if ltb close ema_200 then Ok (Trend SHORT)
          else Ok NEUTRAL
        else Ok NEUTRAL);
     match mode0 with
     | SWING =>
         span_a ← getitem latest "senkou_span_a";
         cloud_bias ←
           (if notna span_a then
              span_b ← getitem latest "senkou_span_b";
              if notna span_b then
                let cloud_top := pymax span_a span_b in
                let cloud_bottom := pymin span_a span_b in
                close ← getitem latest "close";
                if gtb close cloud_top then Ok (Trend LONG)
                else if ltb close cloud_bottom then Ok (Trend SHORT)
                else Ok NEUTRAL
              else Ok NEUTRAL
            else Ok NEUTRAL);
         match ema_bias, cloud_bias with
         | Trend LONG, Trend LONG => Ok (Trend LONG)
         | Trend SHORT, Trend SHORT => Ok (Trend SHORT)
         | _, _ => Ok NEUTRAL
         end
     | _ => Ok ema_bias
     end)
    NEUTRAL.

Definition check_volume_boost (df : DataFrame) (min_boost : float)
    : bool * float :=
  try_except
    (latest ← iloc_back df 0;
     ratio ← getitem latest "volume_ratio";
     if isna ratio then Ok (false, Fin 0)
     else
       let boost_ratio := sub ratio (Fin 1) in
       Ok (geb boost_ratio min_boost, boost_ratio))
    (false, Fin 0).

(** [detect_ema_retest(df, 50)], with the default tolerance. *)
Definition detect_ema_retest (df : DataFrame) (ema_col : string) : bool :=
  let tolerance := Fin 0.002 in
  try_except
    (latest ← iloc_back df 0;
     match latest !! ema_col with
     | None => Ok false
     | Some ema_value =>
         if isna ema_value then Ok false
         else
           price ← getitem latest "close";
           let distance_pct := div (abs (sub price ema_value)) ema_value in
           Ok (leb distance_pct tolerance)
     end)
    false.

Definition detect_rsi_cross (df : DataFrame) (direction0 : string) : bool :=
  try_except
    (if (length df <? 2)%nat then Ok false
     else
       current_rsi ← col_iloc_back df "rsi" 0;
       previous_rsi ← col_iloc_back df "rsi" 1;
       if isna current_rsi || isna previous_rsi then Ok false
       else if String.eqb direction0 "up" then
         Ok (leb previous_rsi (Fin 50) && gtb current_rsi (Fin 50))
       else
         Ok (geb previous_rsi (Fin 50) && ltb current_rsi (Fin 50)))
    false.

Definition detect_stoch_rsi_signal (df : DataFrame) (signal_type : string)
    : bool :=
  try_except
    (if (length df <? 3)%nat then Ok false
     else
       current_k ← col_iloc_back df "stoch_rsi_k" 0;
       previous_k ← col_iloc_back df "stoch_rsi_k" 1;
       if isna current_k || isna previous_k then Ok false
       else if String.eqb signal_type "long" then
         let oversold_exit :=
           leb previous_k (Fin 20) && gtb current_k (Fin 20) in
         let slope_up := gtb current_k previous_k in
         Ok (oversold_exit && slope_up)
       else
         let overbought_exit :=
           geb previous_k (Fin 80) && ltb current_k (Fin 80) in
         let slope_down := ltb current_k previous_k in
         Ok (overbought_exit && slope_down))
    false.

Definition detect_macd_cross (df : DataFrame) (direction0 : string) : bool :=
  try_except
    (if (length df <? 2)%nat then Ok false
     else
       current_macd ← col_iloc_back df "macd_line" 0;
       current_signal ← col_iloc_back df "macd_signal" 0;
       previous_macd ← col_iloc_back df "macd_line" 1;
       previous_signal ← col_iloc_back df "macd_signal" 1;
       if isna current_macd || isna current_signal
          || isna previous_macd || isna previous_signal then Ok false
       else if String.eqb direction0 "up" then
         Ok (leb previous_macd previous_signal
             && gtb current_macd current_signal)
       else
         Ok (geb previous_macd previous_signal
             && ltb current_macd current_signal))
    false.

(** [TechnicalIndicators.fibonacci_retracement]: the two levels read by the
    scorer, [fib_618] and [fib_500]. *)
Definition fibonacci_retracement (high_price low_price : float)
    : float * float :=
  let diff := sub high_price low_price in
  (sub high_price (mul (Fin 0.618) diff),
   sub high_price (mul (Fin 0.500) diff)).

(** ** signal_engine.py: [SignalEngine] *)

Inductive Confidence : Type := HIGH | MEDIUM | LOW.

(** The dataclass [SignalResult].  None of its seventeen fields has a
    default value. *)
Record SignalResult : Type := mkSignalResult {
  sr_symbol : string;
  sr_mode : Mode;
  sr_direction : Direction;
  sr_entry_price : float;
  sr_stop_loss : float;
  sr_take_profit : float;
  sr_quantity : float;
  sr_score : Z;
  sr_confidence : Confidence;
  sr_trend_note : string;
  sr_adx_value : float;
  sr_volume_boost : float;
  sr_atr_value : float;
  sr_code : string;
  sr_timestamp : Z;
  sr_primary_tf_data : DataFrame;
  sr_confirm_tf_data : DataFrame
}.

(** The [__init__] that [@dataclass] generates: every field is a required
    argument, and a call that leaves one out raises [TypeError].  The two
    frames are options here because the call sites differ in passing them:
    [None] is an argument that the call does not pass. *)
Definition SignalResult__init__ (symbol0 : string) (mode0 : Mode)
    (direction0 : Direction) (entry_price0 stop_loss0 take_profit0 : float)
    (quantity0 : float) (score : Z) (confidence : Confidence)
    (trend_note : string) (adx_value volume_boost atr_value0 : float)
    (code0 : string) (timestamp : Z)
    (primary_tf_data confirm_tf_data : option DataFrame)
    : result SignalResult :=
  match primary_tf_data, confirm_tf_data with
  | Some p, Some c =>
      Ok (mkSignalResult symbol0 mode0 direction0 entry_price0 stop_loss0
            take_profit0 quantity0 score confidence trend_note adx_value
            volume_boost atr_value0 code0 timestamp p c)
  | _, _ => Raise TypeError
  end.

(** The distance of the fast mode is computed in binary64 and compared with
    the binary64 number written [0.002]. *)
Definition _calculate_entry_price (df : DataFrame) (direction0 : Direction)
    (mode0 : Mode) : option float :=
  try_except
    (latest ← iloc_back df 0;
     current_price ← getitem latest "close";
     match mode0 with
     | SCALPING =>
         ema_50 ← getitem latest "ema_50";
         if notna ema_50 then
           let ema_distance :=
             fdiv (abs (fsub current_price ema_50)) current_price in
           if leb ema_distance (b64 (Fin 0.002)) then Ok (Some ema_50)
           else Ok (Some current_price)
         else Ok (Some current_price)
     | INTRADAY =>
         ema_50 ← getitem latest "ema_50";
         if notna ema_50 then Ok (Some ema_50) else Ok (Some current_price)
     | SWING => Ok (Some current_price)
     end)
    None.

Definition _calculate_sl_tp (df : DataFrame) (entry_price0 : float)
    (direction0 : Direction) (mode_config : ModeConfig) : float * float :=
  try_except
    (latest ← iloc_back df 0;
     atr ← getitem latest "atr";
     match direction0 with
     | LONG =>
         Ok (sub entry_price0 (mul atr (sl_atr_mult mode_config)),
             add entry_price0 (mul atr (tp_atr_mult_min mode_config)))
     | SHORT =>
         Ok (add entry_price0 (mul atr (sl_atr_mult mode_config)),
             sub entry_price0 (mul atr (tp_atr_mult_min mode_config)))
     end)
    (mul entry_price0 (Fin 0.98), mul entry_price0 (Fin 1.02)).

(** Product, difference and quotient are computed in binary64. *)
Definition _calculate_quantity (cfg : Config) (symbol0 : string)
    (entry_price0 stop_loss0 : float) : float :=
  try_except
    (let risk_amount := fmul (initial_equity cfg) (risk_per_trade cfg) in
     let stop_distance := abs (fsub entry_price0 stop_loss0) in
     if eqb stop_distance (Fin 0) then Ok (Fin 0)
     else
       let quantity0 := fdiv risk_amount stop_distance in
       Ok (round6 quantity0))
    (b64 (Fin 0.001)).

Definition _check_bb_confluence (df : DataFrame) (direction0 : Direction)
    : bool :=
  try_except
    (latest ← iloc_back df 0;
     match direction0 with
     | LONG =>
         close ← getitem latest "close";
         bb_lower ← getitem latest "bb_lower";
         if leb close (mul bb_lower (Fin 1.01)) then
           bb_pband ← getitem latest "bb_pband";
           Ok (leb bb_pband (Fin 0.2))
         else Ok false
     | SHORT =>
         close ← getitem latest "close";
         bb_upper ← getitem latest "bb_upper";
         if geb close (mul bb_upper (Fin 0.99)) then
           bb_pband ← getitem latest "bb_pband";
           Ok (geb bb_pband (Fin 0.8))
         else Ok false
     end)
    false.

Definition _check_fib_confluence (df : DataFrame) (direction0 : Direction)
    : bool :=
  try_except
    (latest ← iloc_back df 0;
     let recent_data := tail 20 df in
     highs ← column recent_data "high";
     lows ← column recent_data "low";
     let swing_high := series_max highs in
     let swing_low := series_min lows in
     let '(fib_618, fib_500) := fibonacci_retracement swing_high swing_low in
     current_price ← getitem latest "close";
     Ok (leb fib_618 current_price && leb current_price fib_500))
    false.

Definition _check_rsi_healthy (latest_data : gmap string float)
    (direction0 : Direction) : bool :=
  try_except
    (rsi ← getitem latest_data "rsi";
     if isna rsi then Ok false
     else Ok (leb (Fin 30) rsi && leb rsi (Fin 70)))
    false.

Definition _check_obv_alignment (df : DataFrame) (direction0 : Direction)
    : bool :=
  try_except
    (if (length df <? 5)%nat then Ok false
     else
       obv_last ← col_iloc_back df "obv" 0;
       obv_first ← col_iloc_back df "obv" 4;
       match direction0 with
       | LONG => Ok (gtb obv_last obv_first)
       | SHORT => Ok (ltb obv_last obv_first)
       end)
    false.

Definition _check_volume_profile_confluence (df : DataFrame)
    (direction0 : Direction) : bool :=
  try_except
    (volumes ← column (tail 10 df) "volume";
     let recent_volume := series_mean volumes in
     current_volume ← col_iloc_back df "volume" 0;
     Ok (gtb current_volume (mul recent_volume (Fin 1.2))))
    false.

Definition _check_swing_confluence (primary_df confirm_df : DataFrame)
    (direction0 : Direction) : bool :=
  try_except
    (primary_latest ← iloc_back primary_df 0;
     confirm_latest ← iloc_back confirm_df 0;
     let aligned (row : gmap string float) : result bool :=
       macd_line ← getitem row "macd_line";
       if notna macd_line then
         macd_signal ← getitem row "macd_signal";
         match direction0 with
         | LONG => Ok (gtb macd_line macd_signal)
         | SHORT => Ok (ltb macd_line macd_signal)
         end
       else Ok false in
     primary_aligned ← aligned primary_latest;
     confirm_aligned ← aligned confirm_latest;
     Ok (primary_aligned && confirm_aligned))
    false.

Definition _get_confidence_level (score : Z) : Confidence :=
  if (80 <=? score)%Z then HIGH
  else if (65 <=? score)%Z then MEDIUM
  else LOW.

(** [str.lower()] of a trend bias that is not neutral. *)
Definition bias_lower (b : TrendBias) : string :=
  match b with
  | Trend LONG => "long"
  | Trend SHORT => "short"
  | NEUTRAL => "neutral"
  end.

(** [for direction in ['LONG', 'SHORT']] with a body that may [return]:
    [Some] is a returned value, [None] falls through to the next iteration,
    and an exception leaves the loop. *)
Fixpoint for_directions {A : Type} (body : Direction -> result (option A))
    (directions : list Direction) : result (option A) :=
  match directions with
  | [] => Ok None
  | d :: rest =>
      r ← body d;
      match r with
      | Some a => Ok (Some a)
      | None => for_directions body rest
      end
  end.

Definition add_if (b : bool) (points score : Z) : Z :=
  if b then score + points else score.

(** What the scorer reads from its surroundings besides the two frames: the
    configuration, the code [_generate_signal_code()] draws, and the clock. *)
Record Env : Type := mkEnv {
  env_config : Config;
  env_code : string;
  env_now : Z
}.

Definition scalping_score (primary_df : DataFrame) (mode_config : ModeConfig)
    (trend_bias : TrendBias) (adx : float) (volume_valid : bool)
    (direction0 : Direction) : Z :=
  let score := 0 in
  let score := add_if (bias_is trend_bias direction0) 20 score in
  let score := add_if (geb adx (of_int (adx_min mode_config))) 10 score in
  let rsi_direction :=
    match direction0 with LONG => "up" | SHORT => "down" end in
  let score := add_if (detect_rsi_cross primary_df rsi_direction) 10 score in
  let stoch_signal_type :=
    match direction0 with LONG => "long" | SHORT => "short" end in
  let score :=
    add_if (detect_stoch_rsi_signal primary_df stoch_signal_type) 10 score in
  let score := add_if volume_valid 10 score in
  let score := add_if (detect_ema_retest primary_df "ema_50") 10 score in
  let score := add_if (_check_bb_confluence primary_df direction0) 5 score in
  score.

Definition _detect_scalping_signal (env : Env) (symbol0 : string)
    (primary_df confirm_df : DataFrame) (mode_config : ModeConfig)
    : option SignalResult :=
  try_except
    (let trend_bias := get_trend_bias confirm_df SCALPING in
     match trend_bias with
     | NEUTRAL => Ok None
     | _ =>
       confirm_latest ← iloc_back confirm_df 0;
       adx ← getitem confirm_latest "adx";
       if isna adx || ltb adx (of_int (adx_min mode_config)) then Ok None
       else
         let '(volume_valid, volume_boost) :=
           check_volume_boost primary_df (volume_boost_min mode_config) in
         if negb volume_valid then Ok None
         else
           primary_latest ← iloc_back primary_df 0;
           for_directions
             (fun direction0 =>
                let score :=
                  scalping_score primary_df mode_config trend_bias adx
                    volume_valid direction0 in
                if (score_min mode_config <=? score)%Z then
                  match _calculate_entry_price primary_df direction0 SCALPING
                  with
                  | Some entry_price0 =>
                      if truthy entry_price0 then
                        let '(sl, tp) :=
                          _calculate_sl_tp primary_df entry_price0 direction0
                            mode_config in
                        let quantity0 :=
                          _calculate_quantity (env_config env) symbol0
                            entry_price0 sl in
                        let trend_note :=
                          String.append "EMA200(5m)" (bias_lower trend_bias) in
                        atr ← getitem primary_latest "atr";
                        r ← SignalResult__init__ symbol0 SCALPING direction0
                              entry_price0 sl tp quantity0 score
                              (_get_confidence_level score) trend_note adx
                              volume_boost atr (env_code env) (env_now env)
                              None None;
                        Ok (Some r)
                      else Ok None
                  | None => Ok None
                  end
                else Ok None)
             [LONG; SHORT]
     end)
    None.

(** [pd.notna(confirm_latest['adx']) and confirm_latest['adx'] >= adx_min]. *)
Definition adx_strong (confirm_latest : gmap string float)
    (mode_config : ModeConfig) : result bool :=
  adx ← getitem confirm_latest "adx";
  Ok (notna adx && geb adx (of_int (adx_min mode_config))).

Definition intraday_score (primary_df confirm_df : DataFrame)
    (confirm_latest : gmap string float) (mode_config : ModeConfig)
    (trend_bias : TrendBias) (volume_valid : bool) (direction0 : Direction)
    : result Z :=
  let score := 0 in
  let score := add_if (bias_is trend_bias direction0) 20 score in
  let macd_direction :=
    match direction0 with LONG => "up" | SHORT => "down" end in
  let score :=
    add_if (detect_macd_cross primary_df macd_direction
            || detect_macd_cross confirm_df macd_direction) 20 score in
  let score := add_if volume_valid 10 score in
  let score := add_if (detect_ema_retest primary_df "ema_50") 10 score in
  let score := add_if (_check_fib_confluence primary_df direction0) 10 score in
  strong ← adx_strong confirm_latest mode_config;
  let score := add_if strong 10 score in
  let score := add_if (_check_rsi_healthy confirm_latest direction0) 5 score in
  Ok score.

Definition intraday_trend_note (primary_latest : gmap string float)
    (trend_bias : TrendBias) : result string :=
  let trend_note := String.append "EMA200(1H)" (bias_lower trend_bias) in
  macd_line ← getitem primary_latest "macd_line";
  if notna macd_line then
    macd_signal ← getitem primary_latest "macd_signal";
    if notna macd_signal then
      let macd_status := if gtb macd_line macd_signal then "↑" else "↓" in
      Ok (String.append trend_note (String.append " | MACD(15m) " macd_status))
    else Ok trend_note
  else Ok trend_note.

Definition _detect_intraday_signal (env : Env) (symbol0 : string)
    (primary_df confirm_df : DataFrame) (mode_config : ModeConfig)
    : option SignalResult :=
  try_except
    (let trend_bias := get_trend_bias confirm_df INTRADAY in
     match trend_bias with
     | NEUTRAL => Ok None
     | _ =>
       confirm_latest ← iloc_back confirm_df 0;
       let '(volume_valid, volume_boost) :=
         check_volume_boost primary_df (volume_boost_min mode_config) in
       if negb volume_valid then Ok None
       else
         primary_latest ← iloc_back primary_df 0;
         for_directions
           (fun direction0 =>
              score ← intraday_score primary_df confirm_df confirm_latest
                        mode_config trend_bias volume_valid direction0;
              if (score_min mode_config <=? score)%Z then
                match _calculate_entry_price primary_df direction0 INTRADAY
                with
                | Some entry_price0 =>
                    if truthy entry_price0 then
                      let '(sl, tp) :=
                        _calculate_sl_tp primary_df entry_price0 direction0
                          mode_config in
                      let quantity0 :=
                        _calculate_quantity (env_config env) symbol0
                          entry_price0 sl in
                      trend_note ←
                        intraday_trend_note primary_latest trend_bias;
                      let adx_value :=
                        default (Fin 0) (confirm_latest !! "adx") in
                      atr ← getitem primary_latest "atr";
                      r ← SignalResult__init__ symbol0 INTRADAY direction0
                            entry_price0 sl tp quantity0 score
                            (_get_confidence_level score) trend_note adx_value
                            volume_boost atr (env_code env) (env_now env)
                            None None;
                      Ok (Some r)
                    else Ok None
                | None => Ok None
                end
              else Ok None)
           [LONG; SHORT]
     end)
    None.

Definition swing_score (primary_df confirm_df : DataFrame)
    (confirm_latest : gmap string float) (mode_config : ModeConfig)
    (trend_bias : TrendBias) (volume_valid : bool) (direction0 : Direction)
    : result Z :=
  let score := 0 in
  let score := add_if (bias_is trend_bias direction0) 20 score in
  let macd_direction :=
    match direction0 with LONG => "up" | SHORT => "down" end in
  let score :=
    add_if (detect_macd_cross primary_df macd_direction) 20 score in
  let score := add_if (_check_obv_alignment primary_df direction0) 15 score in
  let score := add_if volume_valid 10 score in
  strong ← adx_strong confirm_latest mode_config;
  let score := add_if strong 10 score in
  let score :=
    add_if (_check_volume_profile_confluence primary_df direction0) 10 score in
  let score :=
    add_if (_check_swing_confluence primary_df confirm_df direction0) 5
      score in
  Ok score.

Definition swing_trend_note (primary_df : DataFrame)
    (primary_latest : gmap string float) (trend_bias : TrendBias)
    (direction0 : Direction) : result string :=
  let cloud_status :=
    if bias_is trend_bias LONG then "Above Cloud" else "Below Cloud" in
  macd_line ← getitem primary_latest "macd_line";
  macd_signal ← getitem primary_latest "macd_signal";
  let macd_status := if gtb macd_line macd_signal then "↑" else "↓" in
  let obv_status :=
    if _check_obv_alignment primary_df direction0 then "↑" else "↓" in
  Ok (String.append cloud_status
        (String.append "(1D) | MACD(4H)"
           (String.append macd_status (String.append " | OBV" obv_status)))).

Definition _detect_swing_signal (env : Env) (symbol0 : string)
    (primary_df confirm_df : DataFrame) (mode_config : ModeConfig)
    : option SignalResult :=
  try_except
    (let trend_bias := get_trend_bias confirm_df SWING in
     match trend_bias with
     | NEUTRAL => Ok None
     | _ =>
       let '(volume_valid, volume_boost) :=
         check_volume_boost primary_df (volume_boost_min mode_config) in
       if negb volume_valid then Ok None
       else
         primary_latest ← iloc_back primary_df 0;
         confirm_latest ← iloc_back confirm_df 0;
         for_directions
           (fun direction0 =>
              score ← swing_score primary_df confirm_df confirm_latest
                        mode_config trend_bias volume_valid direction0;
              if (score_min mode_config <=? score)%Z then
                match _calculate_entry_price primary_df direction0 SWING with
                | Some entry_price0 =>
                    if truthy entry_price0 then
                      let '(sl, tp) :=
                        _calculate_sl_tp primary_df entry_price0 direction0
                          mode_config in
                      let quantity0 :=
                        _calculate_quantity (env_config env) symbol0
                          entry_price0 sl in
                      trend_note ←
                        swing_trend_note primary_df primary_latest trend_bias
                          direction0;
                      let adx_value :=
                        default (Fin 0) (confirm_latest !! "adx") in
                      atr ← getitem primary_latest "atr";
                      r ← SignalResult__init__ symbol0 SWING direction0
                            entry_price0 sl tp quantity0 score
                            (_get_confidence_level score) trend_note adx_value
                            volume_boost atr (env_code env) (env_now env)
                            None None;
                      Ok (Some r)
                    else Ok None
                | None => Ok None
                end
              else Ok None)
           [LONG; SHORT]
     end)
    None.

(** The dispatch on the mode in [analyze_symbol], once the two frames carry
    their indicator columns. *)
Definition detect_signal (env : Env) (symbol0 : string) (mode0 : Mode)
    (primary_df confirm_df : DataFrame) : option SignalResult :=
  let mode_config := modes mode0 in
  match mode0 with
  | SCALPING =>
      _detect_scalping_signal env symbol0 primary_df confirm_df mode_config
  | INTRADAY =>
      _detect_intraday_signal env symbol0 primary_df confirm_df mode_config
  | SWING =>
      _detect_swing_signal env symbol0 primary_df confirm_df mode_config
  end.

(** ** database.py: the two queries *)

Definition is_active (s : Signal) : bool :=
  match status s with
  | NEW | FILLED => true
  | _ => false
  end.

(** [get_active_signals]: the rows whose status is NEW or FILLED, in the
    order the table yields them. *)
Definition get_active_signals (d : Database) : list Signal :=
  List.filter is_active (map snd (map_to_list (signals d))).

(** [get_cooldowns]: the cooldowns that have not run out. *)
Definition get_cooldowns (now : Z) (d : Database) : list Cooldown :=
  List.filter (fun c => (now <? cooldown_until c)%Z) (cooldowns d).

(** ** monitoring_system.py: loading and reporting *)

Definition _load_active_signals (st : State) : State :=
  foldl
    (fun s signal =>
       let s :=
         set_active_signals
           (dict_set (code signal) signal (active_signals s)) s in
       match status signal with
       | FILLED =>
           if opt_truthy (fill_price signal)
           then _initialize_trailing_stop signal s else s
       | _ => s
       end)
    st (get_active_signals (db st)).

Record MonitoringStatus : Type := mkMonitoringStatus {
  ms_monitoring : bool;
  ms_active_signals : nat;
  ms_symbols_tracked : nat;
  ms_new_signals : nat;
  ms_filled_signals : nat;
  ms_trailing_stops : nat;
  ms_last_update : Z
}.

Definition has_status (x : Status) (s : Signal) : bool :=
  match x, status s with
  | NEW, NEW | FILLED, FILLED | CANCELLED, CANCELLED | WIN, WIN
  | LOSE, LOSE => true
  | _, _ => false
  end.

(** [get_monitoring_status]; [monitoring] is the flag of the monitor. *)
Definition get_monitoring_status (monitoring : bool) (now : Z) (st : State)
    : MonitoringStatus :=
  let values := map snd (active_signals st) in
  mkMonitoringStatus monitoring
    (length (active_signals st))
    (size (list_to_set (map symbol values) : gset string))
    (length (List.filter (has_status NEW) values))
    (length (List.filter (has_status FILLED) values))
    (size (trailing_stops st))
    now.

(** ** monitoring_system.py: [RiskManager] *)

(** [check_daily_loss_limit]: the day's PnL is the constant the code
    assigns. *)
Definition check_daily_loss_limit (cfg : Config) : bool * float :=
  let daily_pnl_pct := Fin 0 in
  let loss_limit := daily_loss_cap cfg in
  if leb daily_pnl_pct (neg loss_limit) then (false, daily_pnl_pct)
  else (true, daily_pnl_pct).

(** [check_concurrent_signals_limit]; an argument of [None] or of the empty
    string is falsy and skips its test. *)
Definition check_concurrent_signals_limit (cfg : Config)
    (symbol0 : option string) (mode0 : option Mode) (d : Database) : bool :=
  let active_signals0 := get_active_signals d in
  if (max_concurrent_signals cfg <=? Z.of_nat (length active_signals0))%Z
  then false
  else
    let symbol_full :=
      match symbol0 with
      | Some s =>
          if String.eqb s "" then false
          else
            (2 <=? length (List.filter (fun x => String.eqb (symbol x) s)
                             active_signals0))%nat
      | None => false
      end in
    if symbol_full then false
    else
      let mode_full :=
        match mode0 with
        | Some m =>
            (3 <=? length (List.filter (fun x => Mode_eqb (mode x) m)
                             active_signals0))%nat
        | None => false
        end in
      if mode_full then false else true.

(** ** signal_engine.py: the cooldowns of the engine *)

(** The key [f"{symbol}_{mode}"], used by the engine and by the
    orchestrator. *)
Definition pair_key (symbol0 : string) (mode0 : Mode) : string :=
  String.append symbol0 (String.append "_" (name (modes mode0))).

Module SignalEngine.

(** [_is_in_cooldown]: the answer and the dictionary as the call leaves
    it (a cooldown found to have run out is deleted). *)
Definition _is_in_cooldown (now : Z) (symbol0 : string) (mode0 : Mode)
    (cooldowns0 : gmap string Z) : bool * gmap string Z :=
  let key := pair_key symbol0 mode0 in
  match cooldowns0 !! key with
  | Some cooldown_until0 =>
      if (now <? cooldown_until0)%Z then (true, cooldowns0)
      else (false, delete key cooldowns0)
  | None => (false, cooldowns0)
  end.

Definition add_cooldown (now : Z) (symbol0 : string) (mode0 : Mode)
    (minutes : Z) (cooldowns0 : gmap string Z) : gmap string Z :=
  let key := pair_key symbol0 mode0 in
  let cooldown_until0 := now + 60 * minutes in
  <[key := cooldown_until0]> cooldowns0.

End SignalEngine.

(** ** main.py: [SignalBotOrchestrator._can_generate_signal] *)

(** The answer, and [last_signal_check] as the call leaves it. *)
Definition _can_generate_signal (cfg : Config) (now : Z) (symbol0 : string)
    (mode0 : Mode) (d : Database) (last_signal_check : gmap string Z)
    : bool * gmap string Z :=
  if negb (check_concurrent_signals_limit cfg (Some symbol0) (Some mode0) d)
  then (false, last_signal_check)
  else
    let key := pair_key symbol0 mode0 in
    let min_interval := 300 in
    match last_signal_check !! key with
    | Some last =>
        if (now - last <? min_interval)%Z then (false, last_signal_check)
        else (true, <[key := now]> last_signal_check)
    | None => (true, <[key := now]> last_signal_check)
    end.

(** ** data_handler.py: market conditions *)






(** ** database.py: the daily metrics *)

(** The columns of a [daily_metrics] row that [calculate_daily_metrics]
    computes from the columns a [Signal] has here; [avg_adx] and
    [avg_volume_boost] read two columns these rows do not carry. *)
Record DailyMetrics : Type := mkDailyMetrics {
  signals_generated : nat;
  signals_filled : nat;
  signals_win : nat;
  signals_lose : nat;
  win_rate : float;
  avg_rr : float;
  total_pnl_points : float;
  total_pnl_percent : float;
  total_pnl_usd : float
}.

(** Python's [sum] of floats: from the integer 0, left to right. *)
Definition pysum (l : list float) : float := foldl add (Fin 0) l.

(** [s.status in ['FILLED', 'WIN', 'LOSE']]. *)
Definition was_filled (s : Signal) : bool :=
  match status s with
  | FILLED | WIN | LOSE => true
  | _ => false
  end.

(** The reward-to-risk ratios collected by the loop over the filled
    signals. *)
Definition rr_values (filled_signals : list Signal) : list float :=
  flat_map
    (fun signal =>
       match pnl_points signal with
       | Some pnl =>
           if truthy pnl && truthy (stop_loss signal)
              && truthy (entry_price signal)
           then
             let risk := abs (sub (entry_price signal) (stop_loss signal)) in
             let reward := abs pnl in
             if gtb risk (Fin 0) then [div reward risk] else []
           else []
       | None => []
       end)
    filled_signals.

(** [sum(s.col for s in signals if s.col)]. *)
Definition sum_truthy (col : Signal -> option float) (rows : list Signal)
    : float :=
  pysum
    (flat_map
       (fun s =>
          match col s with
          | Some v => if truthy v then [v] else []
          | None => []
          end)
       rows).

(** [calculate_daily_metrics], from the rows its query selected to the
    values it stores (the same in the row it updates and in the row it
    creates); [None] when the query selected nothing and nothing is
    stored. *)
Definition calculate_daily_metrics (rows : list Signal)
    : option DailyMetrics :=
  match rows with
  | [] => None
  | _ =>
      let total_signals := length rows in
      let filled_signals := List.filter was_filled rows in
      let win_signals := List.filter (has_status WIN) rows in
      let lose_signals := List.filter (has_status LOSE) rows in
      let win_rate0 :=
        match filled_signals with
        | [] => Fin 0
        | _ =>
            div (of_int (Z.of_nat (length win_signals)))
              (of_int (Z.of_nat (length filled_signals)))
        end in
      let avg_rr0 :=
        match filled_signals with
        | [] => Fin 0
        | _ =>
            match rr_values filled_signals with
            | [] => Fin 0
            | values =>
                div (pysum values) (of_int (Z.of_nat (length values)))
            end
        end in
      Some
        (mkDailyMetrics total_signals (length filled_signals)
           (length win_signals) (length lose_signals) win_rate0 avg_rr0
           (sum_truthy pnl_points rows) (sum_truthy pnl_percent rows)
           (sum_truthy pnl_usd rows))
  end.

(** ** The properties, and the inputs they are tried on *)

(** The stored stop [t'] is the old stop [t], or strictly on the side of it
    that reduces the risk. *)
Definition tighter_or_same (d : Direction) (t t' : float) : Prop :=
  t' = t \/ match d with LONG => lt t t' | SHORT => lt t' t end.

(** The trailing stop [t] is strictly better than the original stop. *)
Definition strictly_better (d : Direction) (t original : float) : bool :=
  match d with
  | LONG => gtb t original
  | SHORT => ltb t original
  end.

(** [stop_loss < entry_price < take_profit] for LONG, and
    [take_profit < entry_price < stop_loss] for SHORT. *)
Definition ordering_invariant (d : Direction) (entry sl tp : float) : bool :=
  match d with
  | LONG => ltb sl entry && ltb entry tp
  | SHORT => ltb tp entry && ltb entry sl
  end.

(** The alert that [_handle_signal_expired] queues for [signal]. *)
Definition is_expiry_alert (signal : Signal) (n : Notification) : bool :=
  match n with
  | system_alert _ m => String.eqb m (expired_message signal)
  | _ => false
  end.

(** The number of times the expiry of [signal] was announced: one alert is
    queued by every call of [_handle_signal_expired]. *)
Definition expired_transitions (signal : Signal) (st : State) : nat :=
  length (List.filter (is_expiry_alert signal) (notification_queue st)).

(** One iteration of one of the three loops of the monitor. *)
Inductive Activity : Type :=
  | price_refresh (feed : string -> option float)
  | status_evaluation (now : Z)
  | expiry_sweep (now : Z).

Definition run_activity (a : Activity) (st : State) : State :=
  match a with
  | price_refresh feed => _update_prices feed st
  | status_evaluation now => _monitor_signals now st
  | expiry_sweep now => _check_expired_signals now st
  end.

(** Any interleaving of the three loops. *)
Definition run (schedule : list Activity) (st : State) : State :=
  foldl (fun s a => run_activity a s) st schedule.

(** [active_signals] as registration builds it: a dictionary (no key
    twice) that files every signal under its own code. *)
Definition well_formed (st : State) : Prop :=
  NoDup (map fst (active_signals st))
  /\ Forall (fun kv => code (snd kv) = fst kv) (active_signals st).

(** What can be said of the trailing stop of code [c] after the loops have
    run, when [signal] was FILLED under that code with its stop at [t]: the
    signal is still monitored, with a stop that is [t] or tighter; or it
    was completed, and has left both dictionaries. *)
Definition stop_tracked (c : string) (signal : Signal) (t : float)
    (st : State) : Prop :=
  (exists t',
      In (c, signal) (active_signals st)
      /\ trailing_stops st !! c = Some t'
      /\ tighter_or_same (direction signal) t t')
  \/ (~ In c (map fst (active_signals st))
      /\ trailing_stops st !! c = None).

(** The entry price in the words of the specification.  The fast mode
    snaps to the 50-period average when the last close is within 0.2% of
    it: their distance is at most 0.2% of the average.  The two other modes
    take the average whenever it is available (not NaN). *)
Definition spec_entry_price (mode0 : Mode) (close ema_50 : float) : float :=
  match mode0 with
  | SCALPING =>
      if leb (abs (sub close ema_50)) (mul (Fin 0.002) (abs ema_50))
      then ema_50 else close
  | INTRADAY | SWING => if notna ema_50 then ema_50 else close
  end.

(** The claim on the entry price of one mode, for a frame whose last row
    has both columns. *)
Definition entry_price_claim_on (mode0 : Mode) : Prop :=
  forall (df : DataFrame) (d : Direction) (latest : gmap string float)
         (close ema_50 : float),
    iloc_back df 0 = Ok latest ->
    latest !! "close"%string = Some close ->
    latest !! "ema_50"%string = Some ema_50 ->
    _calculate_entry_price df d mode0
    = Some (spec_entry_price mode0 close ema_50).

(** The claim on the entry price. *)
Definition entry_price_claim : Prop :=
  forall mode0 : Mode, entry_price_claim_on mode0.

(** The claim on the quantity at a stop distance of zero. *)
Definition quantity_claim : Prop :=
  forall (cfg : Config) (symbol0 : string) (entry sl : float),
    eqb (abs (sub entry sl)) (Fin 0) = true ->
    ltb (Fin 0) (_calculate_quantity cfg symbol0 entry sl) = true.

Module Examples.

(** An INTRADAY LONG signal as the scorer prices it with an ATR of 100:
    entry 50000, stop 49875, target 50200, valid until second 1000. *)
Definition sig1 : Signal :=
  mkSignal "SIG1" "SOLUSDT" INTRADAY LONG (Fin 50000) (Fin 49875) (Fin 50200)
    (Fin 0.8) (Some (Fin 100)) NEW None None None None None None None None
    (Some 1000).

(** The monitor right after [add_signal_to_monitoring("SIG1")]: no price
    is cached yet. *)
Definition registered : State :=
  mkState [("SIG1"%string, sig1)] ∅ ∅
    (mkDatabase {[ "SIG1"%string := sig1 ]} [] []) [].

Definition feed (p : Q) : string -> option float := fun _ => Some (Fin p).

(** A price refresh followed by a status evaluation. *)
Definition tick (now : Z) (p : Q) (st : State) : State :=
  _monitor_signals now (_update_prices (feed p) st).

(** Filled at 49900 on the first tick, which puts the trailing stop on the
    original stop; the price is 49800 on the second tick. *)
Definition filled_then_stopped : State :=
  tick 20 49800 (tick 10 49900 registered).

(** The same signal, filled, as the monitor holds it when no trailing stop
    could be initialised (the ATR column of the row is NULL). *)
Definition sig1_no_atr : Signal :=
  mkSignal "SIG1" "SOLUSDT" INTRADAY LONG (Fin 50000) (Fin 49875) (Fin 50200)
    (Fin 0.8) None FILLED (Some 10) None (Some (Fin 49900)) None None None
    None None (Some 1000).

Definition filled_no_trailing : State :=
  mkState [("SIG1"%string, sig1_no_atr)] {[ "SOLUSDT"%string := Fin 49800 ]} ∅
    (mkDatabase {[ "SIG1"%string := sig1_no_atr ]} [] []) [].

(** The same signal, filled at 50000, with its trailing stop at 50148 and
    the price at 50300: beyond the target and above the stop. *)
Definition sig1_filled : Signal :=
  mkSignal "SIG1" "SOLUSDT" INTRADAY LONG (Fin 50000) (Fin 49875) (Fin 50200)
    (Fin 0.8) (Some (Fin 100)) FILLED (Some 10) None (Some (Fin 50000)) None
    None None None None (Some 1000).

Definition filled_at (p : Q) (trailing : Q) : State :=
  mkState [("SIG1"%string, sig1_filled)] {[ "SOLUSDT"%string := Fin p ]}
    {[ "SIG1"%string := Fin trailing ]}
    (mkDatabase {[ "SIG1"%string := sig1_filled ]} [] []) [].

(** A SHORT signal whose target lies above its trailing stop, and a price
    that is at once at the target and at the stop. *)
Definition sig2_filled : Signal :=
  mkSignal "SIG2" "ETHUSDT" SCALPING SHORT (Fin 3000) (Fin 3010) (Fin 2985)
    (Fin 1) (Some (Fin 10)) FILLED (Some 10) None (Some (Fin 3000)) None
    None None None None (Some 1000).

(** One row of a frame. *)
Definition row (cells : list (string * Q)) : gmap string float :=
  list_to_map (map (fun kv => (fst kv, Fin (snd kv))) cells).

(** A 4h frame whose last close is 100 and whose 50-period average is 99. *)
Definition swing_frame : DataFrame :=
  [row [("close"%string, 100%Q); ("ema_50"%string, 99%Q)]].

(** A close of 100 under an average of 100.2004 (the binary64 number so
    written): the distance is 0.19999...% of the average and 0.2004% of the
    close. *)
Definition frame_near_average : DataFrame :=
  [ {[ "close"%string := Fin 100;
       "ema_50"%string := b64 (Fin 100.2004) ]} ].

(** A close of 100 under an average of 100.1. *)
Definition frame_at_average : DataFrame :=
  [ {[ "close"%string := Fin 100; "ema_50"%string := b64 (Fin 100.1) ]} ].

Definition frame_atr_100 : DataFrame :=
  [row [("close"%string, 50000%Q); ("atr"%string, 100%Q)]].

(** Frames on which the LONG direction of the fast mode scores 70: the
    5m close is above its 200-period average with an ADX of 30; on 1m the
    volume is 50% above its average, the RSI crosses 50 upwards, the
    StochRSI leaves the oversold zone and the close sits on its 50-period
    average. *)
Definition scalping_confirm : DataFrame :=
  [row [("close"%string, 100%Q); ("ema_200"%string, 95%Q);
        ("adx"%string, 30%Q)]].

Definition scalping_primary : DataFrame :=
  [row [("close"%string, 99%Q); ("rsi"%string, 45%Q);
        ("stoch_rsi_k"%string, 10%Q)];
   row [("close"%string, 99.5%Q); ("rsi"%string, 48%Q);
        ("stoch_rsi_k"%string, 15%Q)];
   row [("close"%string, 100%Q); ("ema_50"%string, 100%Q);
        ("rsi"%string, 55%Q); ("stoch_rsi_k"%string, 30%Q);
        ("volume_ratio"%string, 1.5%Q); ("atr"%string, 1%Q);
        ("bb_lower"%string, 98%Q); ("bb_upper"%string, 102%Q);
        ("bb_pband"%string, 0.5%Q)]].

Definition env0 : Env := mkEnv config "SIG11031200ABCD" 0.

End Examples.

(** ** Further properties, and their inputs *)

(** The stop [t] is not on the losing side of the original stop. *)
Definition not_worse (d : Direction) (t original : float) : bool :=
  match d with
  | LONG => negb (ltb t original)
  | SHORT => negb (ltb original t)
  end.

(** The records of [st] are still there in [st']: the executions and the
    queue have only been appended to, and the table of signals has the
    same codes. *)
Definition grows (st st' : State) : Prop :=
  executions (db st) `prefix_of` executions (db st')
  /\ notification_queue st `prefix_of` notification_queue st'
  /\ dom (signals (db st')) = dom (signals (db st)).

(** Every row of the table of signals is stored under its own code. *)
Definition rows_keyed (d : Database) : Prop :=
  forall (k : string) (s : Signal), signals d !! k = Some s -> code s = k.

Definition same_pair (symbol0 : string) (mode0 : Mode) (c : Cooldown) : bool :=
  String.eqb (cd_symbol c) symbol0 && Mode_eqb (cd_mode c) mode0.

Definition terminal (x : Status) : bool :=
  match x with
  | NEW | FILLED => false
  | _ => true
  end.

(** The row [r] with the status [x] and every other column as it was. *)
Definition with_status (x : Status) (r : Signal) : Signal :=
  mkSignal (code r) (symbol r) (mode r) (direction r) (entry_price r)
    (stop_loss r) (take_profit r) (quantity r) (atr_value r) x (filled_at r)
    (closed_at r) (fill_price r) (close_price r) (close_reason r)
    (pnl_points r) (pnl_percent r) (pnl_usd r) (validity_until r).

(** One call of [_can_generate_signal]: its time, its pair, and the table
    of signals at that time. *)
Record GenerationCheck : Type := mkGenerationCheck {
  gc_now : Z;
  gc_symbol : string;
  gc_mode : Mode;
  gc_db : Database
}.

(** A sequence of calls: the answers, and [last_signal_check] at the
    end. *)
Fixpoint generation_checks (cfg : Config) (calls : list GenerationCheck)
    (last_signal_check : gmap string Z) : list bool * gmap string Z :=
  match calls with
  | [] => ([], last_signal_check)
  | c :: rest =>
      let '(answer, last1) :=
        _can_generate_signal cfg (gc_now c) (gc_symbol c) (gc_mode c)
          (gc_db c) last_signal_check in
      let '(answers, last2) := generation_checks cfg rest last1 in
      (answer :: answers, last2)
  end.

Module MoreExamples.

(** SIG1 as registered, with a price of 49990 cached: within the
    tolerance of its entry. *)
Definition ready_to_fill : State :=
  mkState [("SIG1"%string, Examples.sig1)]
    {[ "SOLUSDT"%string := Fin 49990 ]} ∅
    (mkDatabase {[ "SIG1"%string := Examples.sig1 ]} [] []) [].

(** SIG1 as registered, with a price cached and the clock past its
    deadline. *)
Definition overdue : State := ready_to_fill.

(** A table holding SIG1 (NEW) and SIG2 (FILLED). *)
Definition two_rows : Database :=
  mkDatabase
    {[ "SIG1"%string := Examples.sig1; "SIG2"%string := Examples.sig2_filled ]}
    [] [].

Definition empty_monitor (d : Database) : State := mkState [] ∅ ∅ d [].

(** A daily frame above its 200-period average and above its cloud. *)
Definition daily_uptrend : DataFrame :=
  [Examples.row [("close"%string, 100%Q); ("ema_200"%string, 90%Q);
                 ("senkou_span_a"%string, 95%Q);
                 ("senkou_span_b"%string, 93%Q); ("adx"%string, 25%Q)]].

(** A 4h frame of five bars: the MACD line crosses above its signal on
    the last bar, and the on-balance volume rises over the five bars. *)
Definition swing_primary : DataFrame :=
  [Examples.row [("macd_line"%string, (-2)%Q); ("macd_signal"%string, 0%Q);
                 ("obv"%string, 10%Q)];
   Examples.row [("macd_line"%string, (-2)%Q); ("macd_signal"%string, 0%Q);
                 ("obv"%string, 11%Q)];
   Examples.row [("macd_line"%string, (-1)%Q); ("macd_signal"%string, 0%Q);
                 ("obv"%string, 12%Q)];
   Examples.row [("macd_line"%string, (-1)%Q); ("macd_signal"%string, 0%Q);
                 ("obv"%string, 13%Q)];
   Examples.row [("macd_line"%string, 1%Q); ("macd_signal"%string, 0%Q);
                 ("obv"%string, 14%Q)]].


(** SIG1, filled and then closed at its target. *)
Definition sig1_won : Signal :=
  update_row 200 WIN (mkStatusKwargs None (Some (Fin 50200)) (Some "TP"%string))
    Examples.sig1_filled.

End MoreExamples.

(** * Properties *)

(** ** Facts on the order of floats *)

Section float_facts.

Lemma Qlt_bool_iff (a b : Q) : Qlt_bool a b = true <-> (a < b)%Q.
Proof.
  unfold Qlt_bool. rewrite negb_true_iff. split.
  - intros H. apply Qnot_le_lt. intros Hle.
    apply Qle_bool_iff in Hle. congruence.
  - intros H. destruct (Qle_bool b a) eqn:E; [|reflexivity].
    apply Qle_bool_iff in E. lra.
Qed.

Lemma ltb_fin (a b : Q) : ltb (Fin a) (Fin b) = true <-> (a < b)%Q.
Proof. apply Qlt_bool_iff. Qed.

Lemma leb_fin (a b : Q) : leb (Fin a) (Fin b) = true <-> (a <= b)%Q.
Proof. apply Qle_bool_iff. Qed.

Lemma ltb_irrefl (x : float) : ltb x x = false.
Proof.
  destruct x as [| | |a]; try reflexivity.
  destruct (ltb (Fin a) (Fin a)) eqn:E; [|reflexivity].
  apply ltb_fin in E. lra.
Qed.

Lemma ltb_trans (x y z : float) :
  ltb x y = true -> ltb y z = true -> ltb x z = true.
Proof.
  destruct x as [| | |a], y as [| | |b], z as [| | |c];
    simpl; try congruence.
  rewrite !Qlt_bool_iff. lra.
Qed.

Lemma ltb_asym (x y : float) : ltb x y = true -> ltb y x = false.
Proof.
  intros H. destruct (ltb y x) eqn:E; [|reflexivity].
  pose proof (ltb_trans _ _ _ H E) as Hxx.
  rewrite ltb_irrefl in Hxx. discriminate.
Qed.

Lemma tighter_or_same_refl (d : Direction) (t : float) :
  tighter_or_same d t t.
Proof. left; reflexivity. Qed.

Lemma tighter_or_same_trans (d : Direction) (t1 t2 t3 : float) :
  tighter_or_same d t1 t2 -> tighter_or_same d t2 t3 ->
  tighter_or_same d t1 t3.
Proof.
  intros [-> | H12] [-> | H23]; [left; reflexivity | right; exact H23
                                | right; exact H12 | right].
  destruct d; unfold lt in *; eauto using ltb_trans.
Qed.

(** A stop that is tighter or the same is never looser. *)
Lemma tighter_or_same_not_looser (d : Direction) (t t' : float) :
  tighter_or_same d t t' ->
  match d with LONG => ltb t' t | SHORT => ltb t t' end = false.
Proof.
  intros [-> | H]; destruct d; auto using ltb_irrefl, ltb_asym.
Qed.

End float_facts.

(** ** The lifecycle monitor *)

Section monitor.

Implicit Types (st : State) (signal : Signal) (now : Z) (p t : float).

(** The database calls of the handlers leave the cooldown table alone,
    apart from [add_cooldown]. *)
Lemma update_signal_status_cooldowns now c s kw (d : Database) :
  cooldowns (update_signal_status now c s kw d) = cooldowns d.
Proof. unfold update_signal_status. destruct (signals d !! c); reflexivity. Qed.

Lemma add_signal_execution_cooldowns now c ty p q (d : Database) :
  cooldowns (add_signal_execution now c ty p q d) = cooldowns d.
Proof.
  unfold add_signal_execution. destruct (signals d !! c); reflexivity.
Qed.

Lemma update_signal_status_lookup now c s kw (d : Database) (r : Signal) :
  signals d !! c = Some r ->
  signals (update_signal_status now c s kw d) !! c
  = Some (update_row now s kw r).
Proof.
  intros H. unfold update_signal_status. rewrite H. simpl.
  apply lookup_insert_eq.
Qed.

Lemma add_signal_execution_signals now c ty p q (d : Database) :
  signals (add_signal_execution now c ty p q d) = signals d.
Proof.
  unfold add_signal_execution. destruct (signals d !! c); reflexivity.
Qed.

Lemma update_row_closed now s cp reason (r : Signal) :
  status (update_row now s (mkStatusKwargs None (Some cp) (Some reason)) r) = s
  /\ close_reason
       (update_row now s (mkStatusKwargs None (Some cp) (Some reason)) r)
     = Some reason
  /\ close_price
       (update_row now s (mkStatusKwargs None (Some cp) (Some reason)) r)
     = Some cp.
Proof. unfold update_row. simpl. auto. Qed.

(** The trailing handler never registers a cooldown, whatever outcome it
    records. *)
Lemma _handle_trailing_stop_cooldowns now signal p st :
  cooldowns (db (_handle_trailing_stop now signal p st)) = cooldowns (db st).
Proof.
  unfold _handle_trailing_stop. simpl.
  rewrite add_signal_execution_cooldowns.
  apply update_signal_status_cooldowns.
Qed.

(** The stop-loss handler registers the cooldown of the signal's pair, for
    the minutes its mode configures. *)
Lemma _handle_stop_loss_cooldown now signal p st :
  exists kept,
    cooldowns (db (_handle_stop_loss now signal p st))
    = kept ++ [mkCooldown (symbol signal) (mode signal) "LOSS"
                 (now + 60 * cooldown_minutes (modes (mode signal)))].
Proof. unfold _handle_stop_loss, add_cooldown. simpl. eauto. Qed.

(** One update of the trailing stop. *)
Lemma _update_trailing_stop_step signal p st t :
  trailing_stops st !! code signal = Some t ->
  exists t',
    trailing_stops (_update_trailing_stop signal p st) !! code signal = Some t'
    /\ tighter_or_same (direction signal) t t'.
Proof.
  intros Ht. unfold _update_trailing_stop. rewrite Ht.
  destruct (direction signal) eqn:Hd.
  - destruct (gtb _ t) eqn:Hg.
    + eexists. split; [simpl; apply lookup_insert_eq|].
      right. exact Hg.
    + exists t. split; [exact Ht | apply tighter_or_same_refl].
  - destruct (ltb _ t) eqn:Hl.
    + eexists. split; [simpl; apply lookup_insert_eq|].
      right. exact Hl.
    + exists t. split; [exact Ht | apply tighter_or_same_refl].
Qed.

(** Only the entry of the signal's own code is written. *)
Lemma _update_trailing_stop_other signal p st (c : string) :
  c <> code signal ->
  trailing_stops (_update_trailing_stop signal p st) !! c
  = trailing_stops st !! c.
Proof.
  intros Hc. unfold _update_trailing_stop.
  destruct (trailing_stops st !! code signal); [|reflexivity].
  destruct (direction signal);
    match goal with |- context [if ?b then _ else _] => destruct b end;
    simpl; try reflexivity; apply lookup_insert_ne; congruence.
Qed.

(** Any number of updates of the trailing stop. *)
Lemma _update_trailing_stop_fold signal (prices : list float) st t :
  trailing_stops st !! code signal = Some t ->
  exists t',
    trailing_stops
      (foldl (fun s p => _update_trailing_stop signal p s) st prices)
      !! code signal = Some t'
    /\ tighter_or_same (direction signal) t t'
    /\ match direction signal with
       | LONG => ltb t' t
       | SHORT => ltb t t'
       end = false.
Proof.
  revert st t. induction prices as [|p prices IH]; intros st t Ht.
  - exists t. simpl. split; [exact Ht|].
    split; [apply tighter_or_same_refl|].
    apply tighter_or_same_not_looser, tighter_or_same_refl.
  - destruct (_update_trailing_stop_step signal p st t Ht) as (t1 & H1 & R1).
    destruct (IH _ _ H1) as (t' & H' & R' & _).
    exists t'. simpl. split; [exact H'|].
    pose proof (tighter_or_same_trans _ _ _ _ R1 R') as R.
    split; [exact R | apply tighter_or_same_not_looser, R].
Qed.

(** The handlers that close a signal do not touch the map of trailing
    stops (the entry is dropped by the loop, after the pass). *)
Lemma _check_signal_status_trailing now signal st t :
  status signal = FILLED ->
  trailing_stops st !! code signal = Some t ->
  exists t',
    trailing_stops (_check_signal_status now signal st).1.1 !! code signal
    = Some t'
    /\ tighter_or_same (direction signal) t t'.
Proof.
  intros Hs Ht. unfold _check_signal_status.
  destruct (price_cache st !! symbol signal) as [p|];
    [|exists t; split; [exact Ht | apply tighter_or_same_refl]].
  destruct (truthy p); simpl;
    [|exists t; split; [exact Ht | apply tighter_or_same_refl]].
  rewrite Hs, Ht.
  destruct (_is_take_profit_hit signal p); simpl;
    [exists t; split; [exact Ht | apply tighter_or_same_refl]|].
  destruct (_is_trailing_stop_hit st signal p); simpl;
    [exists t; split; [exact Ht | apply tighter_or_same_refl]|].
  apply _update_trailing_stop_step, Ht.
Qed.

(** C7.  A FILLED signal closed on its trailing stop is recorded as WIN
    exactly when the trailing stop is strictly better than the original
    stop (above it for LONG, below it for SHORT), and as LOSE otherwise;
    the close reason is TRAILING. *)
Theorem trailing_close_outcome now signal st p t (r : Signal) :
  status signal = FILLED ->
  price_cache st !! symbol signal = Some p ->
  truthy p = true ->
  _is_take_profit_hit signal p = false ->
  trailing_stops st !! code signal = Some t ->
  _is_trailing_stop_hit st signal p = true ->
  signals (db st) !! code signal = Some r ->
  exists st' r',
    _check_signal_status now signal st = (st', signal, true)
    /\ signals (db st') !! code signal = Some r'
    /\ close_reason r' = Some "TRAILING"%string
    /\ close_price r' = Some p
    /\ status r'
       = (if strictly_better (direction signal) t (stop_loss signal)
          then WIN else LOSE)
    /\ (status r' = WIN <->
        match direction signal with
        | LONG => lt (stop_loss signal) t
        | SHORT => lt t (stop_loss signal)
        end)
    /\ notification_queue st'
       = notification_queue st
         ++ [signal_result (code signal) (status r') (fill_price signal) p
               (quantity signal)].
Proof.
  intros Hs Hp Htr Htp Ht Hhit Hr.
  unfold _check_signal_status. rewrite Hp, Htr, Hs, Htp, Ht, Hhit. simpl.
  eexists _, _. split; [reflexivity|].
  unfold _handle_trailing_stop, _was_profitable_before_trailing. simpl.
  rewrite add_signal_execution_signals, Ht. simpl.
  split; [apply update_signal_status_lookup, Hr|].
  destruct (update_row_closed now
              (if strictly_better (direction signal) t (stop_loss signal)
               then WIN else LOSE) p "TRAILING" r) as (E1 & E2 & E3).
  assert (Hsb : (if match direction signal with
                     | LONG => gtb t (stop_loss signal)
                     | SHORT => ltb t (stop_loss signal)
                     end then WIN else LOSE)
                = (if strictly_better (direction signal) t (stop_loss signal)
                   then WIN else LOSE)).
  { unfold strictly_better. destruct (direction signal); reflexivity. }
  rewrite Hsb, E1, E2, E3.
  repeat split; try reflexivity.
  - unfold strictly_better, lt, gtb.
    destruct (direction signal);
      match goal with |- context [if ?b then _ else _] =>
        destruct b; congruence end.
  - unfold strictly_better, lt, gtb.
    destruct (direction signal); intros ->; reflexivity.
Qed.

(** The second scenario of the specification: stop at 50148, original stop
    at 49875, price down to 50148. *)
Lemma trailing_close_outcome_witness :
  exists st' r',
    _check_signal_status 20 Examples.sig1_filled
      (Examples.filled_at 50148 50148)
    = (st', Examples.sig1_filled, true)
    /\ signals (db st') !! "SIG1"%string = Some r'
    /\ close_reason r' = Some "TRAILING"%string
    /\ close_price r' = Some (Fin 50148)
    /\ status r' = WIN
    /\ (status r' = WIN <-> lt (Fin 49875) (Fin 50148))
    /\ notification_queue st'
       = [signal_result "SIG1" (status r') (Some (Fin 50000)) (Fin 50148)
            (Fin 0.8)].
Proof.
  apply (trailing_close_outcome 20 Examples.sig1_filled
           (Examples.filled_at 50148 50148) (Fin 50148) (Fin 50148)
           Examples.sig1_filled); reflexivity.
Defined.

(** C9.  In a status evaluation of a FILLED signal the target is looked at
    before the trailing stop: a price at or beyond the target closes the
    signal as WIN with reason TP, whatever the trailing stop is; nothing
    of a TRAILING close is recorded. *)
Theorem take_profit_first now signal st p (r : Signal) :
  status signal = FILLED ->
  price_cache st !! symbol signal = Some p ->
  truthy p = true ->
  _is_take_profit_hit signal p = true ->
  signals (db st) !! code signal = Some r ->
  exists st' r',
    _check_signal_status now signal st = (st', signal, true)
    /\ signals (db st') !! code signal = Some r'
    /\ status r' = WIN
    /\ close_reason r' = Some "TP"%string
    /\ close_price r' = Some p
    /\ executions (db st')
       = executions (db st)
         ++ [mkSignalExecution (code signal) "TP" p (quantity signal) now]
    /\ notification_queue st'
       = notification_queue st
         ++ [signal_result (code signal) WIN (fill_price signal) p
               (quantity signal)]
    /\ trailing_stops st' = trailing_stops st.
Proof.
  intros Hs Hp Htr Htp Hr.
  unfold _check_signal_status. rewrite Hp, Htr, Hs, Htp. simpl.
  eexists _, _. split; [reflexivity|].
  unfold _handle_take_profit. simpl.
  rewrite add_signal_execution_signals.
  split; [apply update_signal_status_lookup, Hr|].
  destruct (update_row_closed now WIN p "TP" r) as (E1 & E2 & E3).
  rewrite E1, E2, E3. repeat split.
  unfold add_signal_execution.
  rewrite (update_signal_status_lookup _ _ _ _ _ _ Hr). simpl.
  unfold update_signal_status. rewrite Hr. reflexivity.
Qed.

(** A price of 50300 with the target at 50200 and the trailing stop at
    50400: both conditions hold on the same tick. *)
Lemma take_profit_first_witness :
  _is_trailing_stop_hit (Examples.filled_at 50300 50400)
    Examples.sig1_filled (Fin 50300) = true
  /\ exists st' r',
      _check_signal_status 20 Examples.sig1_filled
        (Examples.filled_at 50300 50400)
      = (st', Examples.sig1_filled, true)
      /\ signals (db st') !! "SIG1"%string = Some r'
      /\ status r' = WIN
      /\ close_reason r' = Some "TP"%string
      /\ close_price r' = Some (Fin 50300)
      /\ executions (db st')
         = [mkSignalExecution "SIG1" "TP" (Fin 50300) (Fin 0.8) 20]
      /\ notification_queue st'
         = [signal_result "SIG1" WIN (Some (Fin 50000)) (Fin 50300)
              (Fin 0.8)]
      /\ trailing_stops st' = {[ "SIG1"%string := Fin 50400 ]}.
Proof.
  split; [reflexivity|].
  apply (take_profit_first 20 Examples.sig1_filled
           (Examples.filled_at 50300 50400) (Fin 50300)
           Examples.sig1_filled); reflexivity.
Defined.

(** The guard at the head of [_check_signal_status]. *)
Lemma _check_signal_status_unpriced now signal st :
  opt_truthy (price_cache st !! symbol signal) = false ->
  _check_signal_status now signal st = (st, signal, false).
Proof.
  unfold _check_signal_status, opt_truthy.
  destruct (price_cache st !! symbol signal) as [p|]; [|reflexivity].
  intros ->. reflexivity.
Qed.

(** C10.  With no price cached for the symbol of a signal, or with a cached
    price of zero, a status evaluation returns at once: the monitor, the
    database, the queue and the signal are as they were, and the signal
    stays in monitoring. *)
Theorem no_price_no_change now signal st :
  opt_truthy (price_cache st !! symbol signal) = false ->
  _check_signal_status now signal st = (st, signal, false).
Proof. apply _check_signal_status_unpriced. Qed.

(** A FILLED signal whose cached price is zero: below its stop and its
    trailing stop, yet nothing happens. *)
Lemma no_price_no_change_witness :
  _check_signal_status 20 Examples.sig1_filled (Examples.filled_at 0 50148)
  = (Examples.filled_at 0 50148, Examples.sig1_filled, false).
Proof.
  apply (no_price_no_change 20 Examples.sig1_filled
           (Examples.filled_at 0 50148)).
  reflexivity.
Defined.

End monitor.

(** ** The monitor's loops *)

Section loops.

Implicit Types (st : State) (signal : Signal) (now : Z).

Lemma _handle_signal_expired_active now signal st :
  active_signals (_handle_signal_expired now signal st) = active_signals st.
Proof. reflexivity. Qed.

(** The expiry sweep neither removes the signals it expires from
    [active_signals] nor marks their objects: the next sweep, and the next
    status evaluation, find them as they were. *)
Lemma _check_expired_signals_active now st :
  active_signals (_check_expired_signals now st) = active_signals st.
Proof.
  unfold _check_expired_signals.
  generalize (List.filter (is_expired_new now) (map snd (active_signals st))).
  intros l. revert st. induction l as [|s l IH]; intros st; simpl.
  - reflexivity.
  - rewrite IH. apply _handle_signal_expired_active.
Qed.

(** A price refresh never caches a falsy price: a zero in the cache was
    there before. *)
Lemma _update_prices_truthy feed st (sym : string) (p : float) :
  price_cache (_update_prices feed st) !! sym = Some p ->
  truthy p = true \/ price_cache st !! sym = Some p.
Proof.
  unfold _update_prices.
  generalize (elements
    (list_to_set (map (fun kv => symbol (snd kv)) (active_signals st))
       : gset string)).
  intros l. revert st. induction l as [|s l IH]; intros st; simpl.
  - auto.
  - intros H. apply IH in H. destruct H as [H|H]; [left; exact H|].
    destruct (feed s) as [q|]; [|right; exact H].
    destruct (truthy q) eqn:Hq; [|right; exact H].
    simpl in H. destruct (decide (s = sym)) as [->|Hne].
    + rewrite lookup_insert_eq in H. injection H as <-. left; exact Hq.
    + rewrite lookup_insert_ne in H by exact Hne. right; exact H.
Qed.

Lemma monitor_each_without_prices now (items : list (string * Signal)) st :
  Forall (fun kv => opt_truthy (price_cache st !! symbol (snd kv)) = false)
    items ->
  monitor_each now items st = (st, items, []).
Proof.
  induction 1 as [|[k s] items H _ IH]; simpl.
  - reflexivity.
  - simpl in H. rewrite (_check_signal_status_unpriced now s st H), IH. reflexivity.
Qed.

(** A whole status evaluation over signals without a usable price changes
    nothing. *)
Lemma _monitor_signals_without_prices now st :
  Forall (fun kv => opt_truthy (price_cache st !! symbol (snd kv)) = false)
    (active_signals st) ->
  _monitor_signals now st = st.
Proof.
  intros H. unfold _monitor_signals.
  rewrite (monitor_each_without_prices now _ st H). simpl.
  destruct st; reflexivity.
Qed.

Lemma _check_expired_signals_queue now st :
  notification_queue (_check_expired_signals now st)
  = notification_queue st
    ++ map (fun s => system_alert "INFO" (expired_message s))
         (List.filter (is_expired_new now) (map snd (active_signals st))).
Proof.
  unfold _check_expired_signals.
  generalize (List.filter (is_expired_new now) (map snd (active_signals st))).
  intros l. revert st. induction l as [|s l IH]; intros st; simpl.
  - rewrite app_nil_r. reflexivity.
  - rewrite IH. simpl. rewrite <- app_assoc. reflexivity.
Qed.

Lemma expiry_alert_counted signal (l : list Signal) :
  In signal l ->
  (1 <= length
          (List.filter (is_expiry_alert signal)
             (map (fun s => system_alert "INFO" (expired_message s)) l)))%nat.
Proof.
  induction l as [|s l IH]; simpl; [tauto|].
  intros [-> | Hin].
  - rewrite String.eqb_refl. simpl. lia.
  - specialize (IH Hin). destruct (String.eqb _ _); simpl; lia.
Qed.

(** Every sweep that finds an expired NEW signal in [active_signals]
    announces its expiry once more. *)
Lemma _check_expired_signals_again now st (k : string) signal :
  In (k, signal) (active_signals st) ->
  is_expired_new now signal = true ->
  (expired_transitions signal st + 1
   <= expired_transitions signal (_check_expired_signals now st))%nat.
Proof.
  intros Hin Hexp. unfold expired_transitions.
  rewrite _check_expired_signals_queue.
  rewrite List.filter_app, length_app.
  apply Nat.add_le_mono_l, expiry_alert_counted.
  apply List.filter_In. split; [|exact Hexp].
  apply (List.in_map snd) in Hin. exact Hin.
Qed.

(** So [n] sweeps after the deadline make at least [n] transitions. *)
Lemma _check_expired_signals_unbounded (times : list Z) st (k : string)
    signal (deadline : Z) :
  In (k, signal) (active_signals st) ->
  status signal = NEW ->
  validity_until signal = Some deadline ->
  Forall (fun now => deadline < now) times ->
  (expired_transitions signal st + length times
   <= expired_transitions signal
        (foldl (fun s now => _check_expired_signals now s) st times))%nat.
Proof.
  intros Hin Hs Hv Ht. revert st Hin.
  induction Ht as [|now times Hnow _ IH]; intros st Hin; simpl.
  - lia.
  - assert (Hexp : is_expired_new now signal = true).
    { unfold is_expired_new. rewrite Hs, Hv. apply Z.ltb_lt, Hnow. }
    pose proof (_check_expired_signals_again now st k signal Hin Hexp) as H1.
    assert (Hin' : In (k, signal)
                     (active_signals (_check_expired_signals now st)))
      by (rewrite _check_expired_signals_active; exact Hin).
    specialize (IH _ Hin'). lia.
Qed.

(** *** One status evaluation, seen from the trailing stop of one code *)

Lemma _initialize_trailing_stop_other signal st (c : string) :
  c <> code signal ->
  trailing_stops (_initialize_trailing_stop signal st) !! c
  = trailing_stops st !! c.
Proof.
  intros Hc. unfold _initialize_trailing_stop.
  destruct (atr_value signal), (fill_price signal), (direction signal);
    simpl; try reflexivity; apply lookup_insert_ne; congruence.
Qed.

Lemma _initialize_trailing_stop_active signal st :
  active_signals (_initialize_trailing_stop signal st) = active_signals st.
Proof.
  unfold _initialize_trailing_stop.
  destruct (atr_value signal), (fill_price signal), (direction signal);
    reflexivity.
Qed.

Lemma _update_trailing_stop_active signal (p : float) st :
  active_signals (_update_trailing_stop signal p st) = active_signals st.
Proof.
  unfold _update_trailing_stop.
  destruct (trailing_stops st !! code signal); [|reflexivity].
  destruct (direction signal);
    match goal with |- context [if ?b then _ else _] => destruct b end;
    reflexivity.
Qed.

(** A status evaluation of one signal does not touch [active_signals]. *)
Lemma _check_signal_status_active now signal st :
  active_signals (_check_signal_status now signal st).1.1
  = active_signals st.
Proof.
  unfold _check_signal_status.
  destruct (price_cache st !! symbol signal) as [p|]; [|reflexivity].
  destruct (truthy p); simpl; [|reflexivity].
  destruct (status signal); try reflexivity.
  - destruct (validity_until signal) as [deadline|]; [|reflexivity].
    destruct (deadline <? now)%Z; [reflexivity|].
    destruct (_is_entry_hit signal p); [|reflexivity].
    simpl. rewrite _initialize_trailing_stop_active. reflexivity.
  - destruct (_is_take_profit_hit signal p); [reflexivity|].
    destruct (trailing_stops st !! code signal).
    + destruct (_is_trailing_stop_hit st signal p); [reflexivity|].
      apply _update_trailing_stop_active.
    + destruct (_is_stop_loss_hit signal p); reflexivity.
Qed.

(** The object keeps its code, and an object that is FILLED comes back as
    it went in. *)
Lemma _check_signal_status_object now signal st :
  code (_check_signal_status now signal st).1.2 = code signal
  /\ (status signal = FILLED ->
      (_check_signal_status now signal st).1.2 = signal).
Proof.
  unfold _check_signal_status.
  destruct (price_cache st !! symbol signal) as [p|]; [|auto].
  destruct (truthy p); simpl; [|auto].
  destruct (status signal) eqn:Hs; auto; try (split; [auto | discriminate]).
  - destruct (validity_until signal) as [deadline|]; [|split; auto].
    destruct (deadline <? now)%Z; [split; auto|].
    destruct (_is_entry_hit signal p); split; auto; discriminate.
  - destruct (_is_take_profit_hit signal p); [auto|].
    destruct (trailing_stops st !! code signal).
    + destruct (_is_trailing_stop_hit st signal p); auto.
    + destruct (_is_stop_loss_hit signal p); auto.
Qed.

(** It writes no trailing stop but the one of the signal's own code. *)
Lemma _check_signal_status_other now signal st (c : string) :
  c <> code signal ->
  trailing_stops (_check_signal_status now signal st).1.1 !! c
  = trailing_stops st !! c.
Proof.
  intros Hc. unfold _check_signal_status.
  destruct (price_cache st !! symbol signal) as [p|]; [|reflexivity].
  destruct (truthy p); simpl; [|reflexivity].
  destruct (status signal); try reflexivity.
  - destruct (validity_until signal) as [deadline|]; [|reflexivity].
    destruct (deadline <? now)%Z; [reflexivity|].
    destruct (_is_entry_hit signal p); [|reflexivity].
    simpl. rewrite _initialize_trailing_stop_other by exact Hc. reflexivity.
  - destruct (_is_take_profit_hit signal p); [reflexivity|].
    destruct (trailing_stops st !! code signal) eqn:Ht.
    + destruct (_is_trailing_stop_hit st signal p); [reflexivity|].
      apply _update_trailing_stop_other. exact Hc.
    + destruct (_is_stop_loss_hit signal p); reflexivity.
Qed.

(** *** The two [for] loops of a status evaluation *)

Lemma monitor_each_keys now (items : list (string * Signal)) st :
  map fst (monitor_each now items st).1.2 = map fst items.
Proof.
  revert st. induction items as [|[k s] items IH]; intros st; simpl.
  - reflexivity.
  - destruct (_check_signal_status now s st) as [[st1 s'] res].
    specialize (IH st1).
    destruct (monitor_each now items st1) as [[st2 items'] rm].
    simpl in *. rewrite IH. reflexivity.
Qed.

Lemma monitor_each_codes now (items : list (string * Signal)) st :
  Forall (fun kv => code (snd kv) = fst kv) items ->
  Forall (fun kv => code (snd kv) = fst kv) (monitor_each now items st).1.2.
Proof.
  intros H. revert st. induction H as [|[k s] items Hk _ IH]; intros st; simpl.
  - constructor.
  - pose proof (_check_signal_status_object now s st) as [Hcode _].
    destruct (_check_signal_status now s st) as [[st1 s'] res].
    specialize (IH st1).
    destruct (monitor_each now items st1) as [[st2 items'] rm].
    simpl in *. constructor; [simpl; congruence | exact IH].
Qed.

Lemma monitor_each_active now (items : list (string * Signal)) st :
  active_signals (monitor_each now items st).1.1 = active_signals st.
Proof.
  revert st. induction items as [|[k s] items IH]; intros st; simpl.
  - reflexivity.
  - pose proof (_check_signal_status_active now s st) as Ha.
    destruct (_check_signal_status now s st) as [[st1 s'] res].
    specialize (IH st1).
    destruct (monitor_each now items st1) as [[st2 items'] rm].
    simpl in *. congruence.
Qed.

Lemma monitor_each_other now (items : list (string * Signal)) st
    (c : string) :
  Forall (fun kv => c <> code (snd kv)) items ->
  trailing_stops (monitor_each now items st).1.1 !! c
  = trailing_stops st !! c.
Proof.
  intros H. revert st. induction H as [|[k s] items Hk _ IH]; intros st; simpl.
  - reflexivity.
  - pose proof (_check_signal_status_other now s st c Hk) as Ho.
    destruct (_check_signal_status now s st) as [[st1 s'] res].
    specialize (IH st1).
    destruct (monitor_each now items st1) as [[st2 items'] rm].
    simpl in *. congruence.
Qed.

Lemma monitor_each_own now (items : list (string * Signal)) st (c : string)
    signal (t : float) :
  NoDup (map fst items) ->
  Forall (fun kv => code (snd kv) = fst kv) items ->
  In (c, signal) items ->
  status signal = FILLED ->
  trailing_stops st !! c = Some t ->
  exists t',
    trailing_stops (monitor_each now items st).1.1 !! c = Some t'
    /\ tighter_or_same (direction signal) t t'
    /\ In (c, signal) (monitor_each now items st).1.2.
Proof.
  intros Hnd Hcodes Hin Hs. revert st t.
  induction items as [|[k s] items IH]; intros st t Ht; [destruct Hin|].
  simpl in Hnd. apply NoDup_cons in Hnd as [Hk Hnd].
  rewrite list_elem_of_In in Hk.
  apply Forall_cons in Hcodes as [Hcode Hcodes]. simpl in Hcode.
  simpl.
  destruct Hin as [Heq | Hin].
  - injection Heq as -> ->.
    assert (Hc : code signal = c) by exact Hcode. subst c.
    destruct (_check_signal_status_trailing now signal st t Hs Ht)
      as (t1 & Ht1 & R1).
    pose proof (_check_signal_status_object now signal st) as [_ Hobj].
    specialize (Hobj Hs).
    destruct (_check_signal_status now signal st) as [[st1 s'] res].
    simpl in Ht1, Hobj. subst s'.
    assert (Hrest : Forall (fun kv => code signal <> code (snd kv)) items).
    { apply List.Forall_forall. intros [k' s'] Hin'.
      rewrite List.Forall_forall in Hcodes. specialize (Hcodes _ Hin').
      simpl in *. intros Heq. apply Hk. rewrite Heq, Hcodes.
      apply (List.in_map fst) in Hin'. exact Hin'. }
    pose proof (monitor_each_other now items st1 _ Hrest) as Ho.
    destruct (monitor_each now items st1) as [[st2 items'] rm].
    simpl in *. exists t1. rewrite Ho. auto.
  - assert (Hne : c <> code s).
    { rewrite Hcode. intros ->. apply Hk.
      apply (List.in_map fst) in Hin. exact Hin. }
    pose proof (_check_signal_status_other now s st c Hne) as Ho.
    destruct (_check_signal_status now s st) as [[st1 s'] res].
    simpl in Ho. rewrite <- Ho in Ht.
    destruct (IH Hnd Hcodes Hin st1 t Ht) as (t' & Ht' & R & Hin').
    destruct (monitor_each now items st1) as [[st2 items'] rm].
    simpl in *. exists t'. auto.
Qed.

Lemma dict_pop_In {V : Type} (k : string) (d : list (string * V))
    (kv : string * V) :
  In kv (dict_pop k d) <-> In kv d /\ fst kv <> k.
Proof.
  unfold dict_pop. rewrite List.filter_In, negb_true_iff, String.eqb_neq.
  reflexivity.
Qed.

Lemma dict_pop_NoDup {V : Type} (k : string) (d : list (string * V)) :
  NoDup (map fst d) -> NoDup (map fst (dict_pop k d)).
Proof.
  induction d as [|[k' v] d IH]; simpl; intros H; [exact H|].
  apply NoDup_cons in H as [Hk H]. rewrite list_elem_of_In in Hk.
  destruct (negb (String.eqb k' k)); simpl; [|exact (IH H)].
  apply NoDup_cons. split; [|exact (IH H)].
  rewrite list_elem_of_In. intros Hin. apply Hk.
  apply List.in_map_iff in Hin as ([k2 v2] & E & Hin). simpl in E. subst k2.
  apply dict_pop_In in Hin as [Hin _].
  apply (List.in_map fst) in Hin. exact Hin.
Qed.

Lemma remove_completed_cons (k : string) (l : list string) st :
  remove_completed (k :: l) st
  = remove_completed l
      (set_trailing_stops (delete k (trailing_stops st))
         (set_active_signals (dict_pop k (active_signals st)) st)).
Proof. reflexivity. Qed.

Lemma remove_completed_sub (l : list string) st (kv : string * Signal) :
  In kv (active_signals (remove_completed l st)) -> In kv (active_signals st).
Proof.
  revert st. induction l as [|k l IH]; intros st; [auto|].
  rewrite remove_completed_cons. intros H. apply IH in H.
  apply dict_pop_In in H. tauto.
Qed.

Lemma remove_completed_well_formed (l : list string) st :
  well_formed st -> well_formed (remove_completed l st).
Proof.
  revert st. induction l as [|k l IH]; intros st [Hnd Hc].
  - split; assumption.
  - rewrite remove_completed_cons. apply IH. split.
    + apply dict_pop_NoDup, Hnd.
    + apply List.Forall_forall. intros kv Hin.
      apply dict_pop_In in Hin as [Hin _].
      rewrite List.Forall_forall in Hc. apply Hc, Hin.
Qed.

Lemma remove_completed_kept (l : list string) st (c : string) signal :
  ~ In c l ->
  trailing_stops (remove_completed l st) !! c = trailing_stops st !! c
  /\ (In (c, signal) (active_signals st) ->
      In (c, signal) (active_signals (remove_completed l st))).
Proof.
  revert st. induction l as [|k l IH]; intros st Hc; [auto|].
  rewrite remove_completed_cons. simpl in Hc.
  destruct (IH (set_trailing_stops (delete k (trailing_stops st))
                  (set_active_signals (dict_pop k (active_signals st)) st)))
    as [Ht Ha]; [tauto|].
  split.
  - rewrite Ht. apply lookup_delete_ne. intros ->. tauto.
  - intros Hin. apply Ha. apply dict_pop_In. split; [exact Hin|].
    simpl. intros ->. tauto.
Qed.

Lemma remove_completed_trailing_None (l : list string) st (c : string) :
  trailing_stops st !! c = None ->
  trailing_stops (remove_completed l st) !! c = None.
Proof.
  revert st. induction l as [|k l IH]; intros st H; [exact H|].
  rewrite remove_completed_cons. apply IH.
  destruct (decide (k = c)) as [->|Hne].
  - apply lookup_delete_eq.
  - etransitivity; [apply lookup_delete_ne; exact Hne | exact H].
Qed.

Lemma remove_completed_gone (l : list string) st (c : string) :
  In c l ->
  trailing_stops (remove_completed l st) !! c = None
  /\ ~ In c (map fst (active_signals (remove_completed l st))).
Proof.
  revert st. induction l as [|k l IH]; intros st Hc; [destruct Hc|].
  rewrite remove_completed_cons.
  destruct (decide (k = c)) as [->|Hne].
  - split.
    + apply remove_completed_trailing_None. apply lookup_delete_eq.
    + intros Hin. apply List.in_map_iff in Hin as ([k2 v2] & E & Hin).
      simpl in E. subst k2. apply remove_completed_sub in Hin.
      apply dict_pop_In in Hin as [_ Hin]. apply Hin. reflexivity.
  - apply IH. destruct Hc as [Hc|Hc]; [congruence | exact Hc].
Qed.

(** *** Any interleaving of the three loops *)

Lemma _update_prices_frame feed st :
  active_signals (_update_prices feed st) = active_signals st
  /\ trailing_stops (_update_prices feed st) = trailing_stops st.
Proof.
  unfold _update_prices.
  generalize (elements
    (list_to_set (map (fun kv => symbol (snd kv)) (active_signals st))
       : gset string)).
  intros l. revert st. induction l as [|s l IH]; intros st; simpl; [auto|].
  destruct (IH (match feed s with
                | Some price =>
                    if truthy price
                    then set_price_cache (<[s:=price]> (price_cache st)) st
                    else st
                | None => st
                end)) as [Ha Ht].
  rewrite Ha, Ht. destruct (feed s) as [q|]; [|auto].
  destruct (truthy q); auto.
Qed.

Lemma _check_expired_signals_trailing now st :
  trailing_stops (_check_expired_signals now st) = trailing_stops st.
Proof.
  unfold _check_expired_signals.
  generalize (List.filter (is_expired_new now) (map snd (active_signals st))).
  intros l. revert st. induction l as [|s l IH]; intros st; simpl.
  - reflexivity.
  - rewrite IH. reflexivity.
Qed.

Lemma _monitor_signals_tracked now st (c : string) signal (t : float) :
  status signal = FILLED ->
  well_formed st /\ stop_tracked c signal t st ->
  well_formed (_monitor_signals now st)
  /\ stop_tracked c signal t (_monitor_signals now st).
Proof.
  intros Hs [[Hnd Hcodes] Htr]. unfold _monitor_signals.
  pose proof (monitor_each_keys now (active_signals st) st) as Hkeys.
  pose proof (monitor_each_codes now (active_signals st) st Hcodes) as Hc'.
  destruct (monitor_each now (active_signals st) st)
    as [[st1 items'] rm] eqn:E.
  simpl in Hkeys, Hc'.
  split.
  { apply remove_completed_well_formed. split; simpl; [|exact Hc'].
    rewrite Hkeys. exact Hnd. }
  destruct Htr as [(t1 & Hin & Ht1 & R1) | [Hout Hnone]].
  - destruct (monitor_each_own now (active_signals st) st c signal t1
                Hnd Hcodes Hin Hs Ht1) as (t2 & Ht2 & R2 & Hin2).
    rewrite E in Ht2, Hin2. simpl in Ht2, Hin2.
    destruct (List.in_dec String.string_dec c rm) as [Hrm | Hrm].
    + right.
      destruct (remove_completed_gone rm (set_active_signals items' st1) c
                  Hrm) as [G1 G2].
      split; assumption.
    + left. exists t2.
      destruct (remove_completed_kept rm (set_active_signals items' st1) c
                  signal Hrm) as [K1 K2].
      split; [apply K2; exact Hin2|].
      split; [rewrite K1; exact Ht2|].
      exact (tighter_or_same_trans _ _ _ _ R1 R2).
  - right. split.
    + intros Hin. apply List.in_map_iff in Hin as ([k2 v2] & Ek & Hin).
      simpl in Ek. subst k2. apply remove_completed_sub in Hin.
      simpl in Hin. apply Hout. rewrite <- Hkeys.
      apply (List.in_map fst) in Hin. exact Hin.
    + apply remove_completed_trailing_None. simpl.
      assert (Hother : Forall (fun kv => c <> code (snd kv))
                         (active_signals st)).
      { apply List.Forall_forall. intros kv Hin Heq.
        rewrite List.Forall_forall in Hcodes. apply Hout.
        rewrite Heq, (Hcodes _ Hin). apply (List.in_map fst), Hin. }
      pose proof (monitor_each_other now (active_signals st) st c Hother)
        as Ho.
      rewrite E in Ho. simpl in Ho. rewrite Ho. exact Hnone.
Qed.

Lemma run_activity_tracked (a : Activity) st (c : string) signal
    (t : float) :
  status signal = FILLED ->
  well_formed st /\ stop_tracked c signal t st ->
  well_formed (run_activity a st)
  /\ stop_tracked c signal t (run_activity a st).
Proof.
  intros Hs H. destruct a as [feed | now | now]; simpl.
  - destruct (_update_prices_frame feed st) as [Ha Ht].
    unfold well_formed, stop_tracked. rewrite Ha, Ht. exact H.
  - apply _monitor_signals_tracked; assumption.
  - unfold well_formed, stop_tracked.
    rewrite _check_expired_signals_active, _check_expired_signals_trailing.
    exact H.
Qed.

Lemma run_tracked (schedule : list Activity) st (c : string) signal
    (t : float) :
  status signal = FILLED ->
  well_formed st /\ stop_tracked c signal t st ->
  well_formed (run schedule st) /\ stop_tracked c signal t (run schedule st).
Proof.
  intros Hs. revert st.
  induction schedule as [|a schedule IH]; intros st H; simpl; [exact H|].
  apply IH, run_activity_tracked; assumption.
Qed.

(** The trailing stop of a FILLED signal under any interleaving of price
    refreshes, status evaluations and expiry sweeps: as long as the signal
    is monitored its stop is the one it had or a tighter one, and once the
    signal is completed the stop is gone for good. *)
Lemma trailing_stop_never_loosens (schedule : list Activity) st (c : string)
    signal (t : float) :
  well_formed st ->
  In (c, signal) (active_signals st) ->
  status signal = FILLED ->
  trailing_stops st !! c = Some t ->
  stop_tracked c signal t (run schedule st).
Proof.
  intros Hwf Hin Hs Ht.
  apply (run_tracked schedule st c signal t Hs). split; [exact Hwf|].
  left. exists t. split; [exact Hin|]. split; [exact Ht|].
  apply tighter_or_same_refl.
Qed.

(** C6.  For a FILLED signal with a trailing stop [t]: across any sequence
    of prices, the updates of the stop leave it where it was or move it
    strictly in the direction that reduces the risk, so the stop of a LONG
    never decreases and the stop of a SHORT never increases; and the same
    holds of the stored stop under any interleaving of the three loops of
    the monitor, for as long as the signal is monitored. *)
Theorem trailing_stop_monotone signal (prices : list float)
    (schedule : list Activity) st (t : float) :
  well_formed st ->
  In (code signal, signal) (active_signals st) ->
  status signal = FILLED ->
  trailing_stops st !! code signal = Some t ->
  (exists t',
      trailing_stops
        (foldl (fun s p => _update_trailing_stop signal p s) st prices)
        !! code signal = Some t'
      /\ tighter_or_same (direction signal) t t'
      /\ match direction signal with
         | LONG => ltb t' t
         | SHORT => ltb t t'
         end = false)
  /\ stop_tracked (code signal) signal t (run schedule st).
Proof.
  intros Hwf Hin Hs Ht. split.
  - apply _update_trailing_stop_fold, Ht.
  - apply trailing_stop_never_loosens; assumption.
Qed.

(** A LONG stop at 49937.5: under the prices 50400, 50100, 50500; and under
    a schedule that refreshes the price to 50190, evaluates, sweeps,
    refreshes to 50100 and evaluates again. *)
Lemma trailing_stop_monotone_witness :
  (exists t',
      trailing_stops
        (foldl (fun s p => _update_trailing_stop Examples.sig1_filled p s)
           (Examples.filled_at 50000 49937.5)
           [Fin 50400; Fin 50100; Fin 50500])
        !! "SIG1"%string = Some t'
      /\ tighter_or_same LONG (Fin 49937.5) t'
      /\ ltb t' (Fin 49937.5) = false)
  /\ stop_tracked "SIG1" Examples.sig1_filled (Fin 49937.5)
       (run [price_refresh (Examples.feed 50190); status_evaluation 20;
             expiry_sweep 25; price_refresh (Examples.feed 50100);
             status_evaluation 30]
          (Examples.filled_at 50000 49937.5)).
Proof.
  apply (trailing_stop_monotone Examples.sig1_filled
           [Fin 50400; Fin 50100; Fin 50500]
           [price_refresh (Examples.feed 50190); status_evaluation 20;
            expiry_sweep 25; price_refresh (Examples.feed 50100);
            status_evaluation 30]
           (Examples.filled_at 50000 49937.5) (Fin 49937.5)).
  - split; [apply NoDup_singleton | repeat constructor].
  - left. reflexivity.
  - reflexivity.
  - reflexivity.
Defined.

(** C1, on the code.  The signal of the examples is filled at 49900, which
    puts its trailing stop on the original stop 49875; at 49800 it is closed
    as LOSE with reason TRAILING, and the cooldown table stays empty.  The
    same loss taken through the stop-loss handler (no trailing stop in the
    map) registers the cooldown of SOLUSDT/INTRADAY for 60 minutes. *)
Lemma trailing_loss_without_cooldown :
  (status <$> signals (db Examples.filled_then_stopped) !! "SIG1"%string)
  = Some LOSE
  /\ (close_reason <$> signals (db Examples.filled_then_stopped)
        !! "SIG1"%string)
     = Some (Some "TRAILING"%string)
  /\ cooldowns (db Examples.filled_then_stopped) = []
  /\ (status <$> signals (db (_monitor_signals 20 Examples.filled_no_trailing))
        !! "SIG1"%string)
     = Some LOSE
  /\ cooldowns (db (_monitor_signals 20 Examples.filled_no_trailing))
     = [mkCooldown "SOLUSDT" INTRADAY "LOSS" (20 + 60 * 60)].
Proof. vm_compute. repeat split; reflexivity. Qed.

(** C2, on the code.  A NEW signal whose deadline (second 1000) has passed,
    no price cached.  The status evaluation does nothing for want of a
    price.  The sweep expires the signal and leaves it in [active_signals]
    with status NEW, so the next sweep expires it again; and once a price is
    cached the status evaluation expires it once more.  The row ends
    CANCELLED with no close reason: [update_signal_status] stores the
    reason only together with a close price. *)
Lemma expiry_repeats :
  let st1 := _check_expired_signals 1001 Examples.registered in
  let st2 := _check_expired_signals 1061 st1 in
  _monitor_signals 1001 Examples.registered = Examples.registered
  /\ expired_transitions Examples.sig1 st1 = 1%nat
  /\ map (fun kv => (fst kv, status (snd kv))) (active_signals st1)
     = [("SIG1"%string, NEW)]
  /\ expired_transitions Examples.sig1 st2 = 2%nat
  /\ expired_transitions Examples.sig1 (Examples.tick 1002 50500 st1) = 2%nat
  /\ (status <$> signals (db st1) !! "SIG1"%string) = Some CANCELLED
  /\ (close_reason <$> signals (db st1) !! "SIG1"%string) = Some None.
Proof. vm_compute. repeat split; reflexivity. Qed.

End loops.

(** ** The scorer *)

Section scorer.

Implicit Types (df : DataFrame) (d : Direction) (cfg : Config).

Lemma bind_ok {A B : Type} (a : A) (k : A -> result B) :
  (Ok a ≫= k) = k a.
Proof. reflexivity. Qed.

Lemma bind_raise {A B : Type} (e : exn) (k : A -> result B) :
  (Raise e ≫= k) = Raise e.
Proof. reflexivity. Qed.

(** *** Entry price *)

(** C4, as stated, fails in two places.  On the slow mode: with a close
    of 100 and a 50-period average of 99 the code returns the close, not
    the average.  On the fast mode: with a close of 100 and an average of
    100.2004 the close is within 0.2% of the average, and the code returns
    the close, because it measures the distance against the close. *)
Lemma entry_price_claim_fails :
  (_calculate_entry_price Examples.swing_frame LONG SWING = Some (Fin 100)
   /\ spec_entry_price SWING (Fin 100) (Fin 99) = Fin 99)
  /\ (_calculate_entry_price Examples.frame_near_average LONG SCALPING
      = Some (Fin 100)
      /\ spec_entry_price SCALPING (Fin 100) (b64 (Fin 100.2004))
         = b64 (Fin 100.2004)
      /\ eqb (b64 (Fin 100.2004)) (Fin 100) = false)
  /\ ~ entry_price_claim_on SWING
  /\ ~ entry_price_claim_on SCALPING
  /\ ~ entry_price_claim.
Proof.
  assert (HW : ~ entry_price_claim_on SWING).
  { intros H.
    specialize (H Examples.swing_frame LONG
                  (Examples.row [("close"%string, 100%Q);
                                 ("ema_50"%string, 99%Q)])
                  (Fin 100) (Fin 99) eq_refl eq_refl eq_refl).
    vm_compute in H. discriminate H. }
  assert (HS : ~ entry_price_claim_on SCALPING).
  { intros H.
    specialize (H Examples.frame_near_average LONG
                  {[ "close"%string := Fin 100;
                     "ema_50"%string := b64 (Fin 100.2004) ]}
                  (Fin 100) (b64 (Fin 100.2004)) eq_refl eq_refl eq_refl).
    vm_compute in H. discriminate H. }
  split; [split; vm_compute; reflexivity|].
  split; [repeat split; vm_compute; reflexivity|].
  split; [exact HW|]. split; [exact HS|].
  intros H. exact (HW (H SWING)).
Qed.

(** A distance that is NaN is not within the bound. *)
Lemma ema_distance_nan (close ema_50 : float) :
  notna ema_50 = false ->
  leb (fdiv (abs (fsub close ema_50)) close) (b64 (Fin 0.002)) = false.
Proof.
  destruct ema_50; try discriminate. intros _.
  destruct close; reflexivity.
Qed.

(** C4, amended.  SCALPING: the 50-period average when the distance
    between the last close and the average, divided by the last close, is
    at most 0.002 (difference, quotient and bound as binary64 computes
    them), otherwise the last close.  INTRADAY: the average when it is
    available, otherwise the last close.  SWING: the last close, whatever
    the average. *)
Theorem entry_price_by_mode df d (latest : gmap string float)
    (close ema_50 : float) :
  iloc_back df 0 = Ok latest ->
  latest !! "close"%string = Some close ->
  latest !! "ema_50"%string = Some ema_50 ->
  _calculate_entry_price df d SCALPING
  = Some (if leb (fdiv (abs (fsub close ema_50)) close) (b64 (Fin 0.002))
          then ema_50 else close)
  /\ _calculate_entry_price df d INTRADAY
     = Some (if notna ema_50 then ema_50 else close)
  /\ _calculate_entry_price df d SWING = Some close.
Proof.
  intros Hl Hc He. split; [|split].
  - unfold _calculate_entry_price, getitem.
    rewrite Hl, bind_ok, Hc, bind_ok, He, bind_ok.
    destruct (notna ema_50) eqn:En.
    + destruct (leb _ _); reflexivity.
    + rewrite (ema_distance_nan close ema_50 En). reflexivity.
  - unfold _calculate_entry_price, getitem.
    rewrite Hl, bind_ok, Hc, bind_ok, He, bind_ok.
    destruct (notna ema_50); reflexivity.
  - unfold _calculate_entry_price, getitem. rewrite Hl, bind_ok, Hc, bind_ok.
    reflexivity.
Qed.

Lemma entry_price_by_mode_witness :
  _calculate_entry_price Examples.frame_at_average LONG SCALPING
  = Some (if leb (fdiv (abs (fsub (Fin 100) (b64 (Fin 100.1)))) (Fin 100))
               (b64 (Fin 0.002))
          then b64 (Fin 100.1) else Fin 100)
  /\ _calculate_entry_price Examples.frame_at_average LONG INTRADAY
     = Some (if notna (b64 (Fin 100.1)) then b64 (Fin 100.1) else Fin 100)
  /\ _calculate_entry_price Examples.frame_at_average LONG SWING
     = Some (Fin 100).
Proof.
  apply (entry_price_by_mode Examples.frame_at_average LONG
           {[ "close"%string := Fin 100;
              "ema_50"%string := b64 (Fin 100.1) ]}
           (Fin 100) (b64 (Fin 100.1))); reflexivity.
Defined.

(** *** Stop-loss and take-profit *)

(** With a finite positive ATR the levels of every mode are ordered as the
    direction requires. *)
Lemma _calculate_sl_tp_ordered df d (m : Mode) (latest : gmap string float)
    (entry atr : Q) :
  iloc_back df 0 = Ok latest ->
  latest !! "atr"%string = Some (Fin atr) ->
  (0 < atr)%Q ->
  let '(sl, tp) := _calculate_sl_tp df (Fin entry) d (modes m) in
  ordering_invariant d (Fin entry) sl tp = true.
Proof.
  intros Hl Ha Hpos.
  unfold _calculate_sl_tp, getitem. rewrite Hl, bind_ok, Ha, bind_ok.
  destruct d, m; cbn -[Qlt_bool Qplus Qmult Qopp];
    rewrite andb_true_iff, !Qlt_bool_iff; split; lra.
Qed.

(** The levels of the [except] branch do not depend on the direction: for
    a positive entry they are ordered as a LONG requires, and so never as
    a SHORT requires. *)
Lemma _calculate_sl_tp_fallback df d (cfg0 : ModeConfig) (entry : Q) :
  iloc_back df 0 = Raise IndexError
  \/ (exists latest, iloc_back df 0 = Ok latest
                     /\ latest !! "atr"%string = None) ->
  (0 < entry)%Q ->
  let '(sl, tp) := _calculate_sl_tp df (Fin entry) d cfg0 in
  ordering_invariant LONG (Fin entry) sl tp = true
  /\ ordering_invariant SHORT (Fin entry) sl tp = false.
Proof.
  intros Hdf Hpos.
  assert (E : _calculate_sl_tp df (Fin entry) d cfg0
              = (Fin (entry * 0.98), Fin (entry * 1.02))).
  { unfold _calculate_sl_tp, getitem.
    destruct Hdf as [-> | (latest & -> & Ha)]; [reflexivity|].
    rewrite bind_ok, Ha. reflexivity. }
  rewrite E. cbn -[Qlt_bool Qmult]. split.
  - rewrite andb_true_iff, !Qlt_bool_iff. split; lra.
  - apply andb_false_iff. left.
    destruct (Qlt_bool (entry * 1.02) entry) eqn:F; [|reflexivity].
    apply Qlt_bool_iff in F. lra.
Qed.

(** The first scenario of the specification: ATR 100, entry 50000, LONG in
    the fast mode give a stop of 49900, a target of 50150 and a quantity
    of 1. *)
Lemma scenario_levels :
  let '(sl, tp) :=
    _calculate_sl_tp Examples.frame_atr_100 (Fin 50000) LONG (modes SCALPING)
  in
  eqb sl (Fin 49900) = true /\ eqb tp (Fin 50150) = true
  /\ eqb (_calculate_quantity config "BTCUSDT" (Fin 50000) sl) (Fin 1) = true.
Proof. vm_compute. repeat split; reflexivity. Qed.

(** *** Quantity *)

(** C5, as stated, fails: at a stop distance of zero the quantity is 0,
    which is not positive. *)
Lemma quantity_claim_fails : ~ quantity_claim.
Proof.
  intros H.
  specialize (H config "BTCUSDT"%string (Fin 100) (Fin 100) eq_refl).
  vm_compute in H. discriminate H.
Qed.

(** A stop distance that is zero when computed exactly is zero when
    computed in binary64. *)
Lemma zero_distance_rounded (entry sl : float) :
  eqb (abs (sub entry sl)) (Fin 0) = true ->
  eqb (abs (fsub entry sl)) (Fin 0) = true.
Proof.
  unfold fsub. destruct (sub entry sl) as [| | |q]; try discriminate.
  intros H. change (Qeq_bool (Qabs q) 0 = true) in H.
  assert (Hq : Qeq_bool q 0 = true).
  { apply Qeq_bool_iff. apply Qeq_bool_iff in H.
    revert H. apply Qabs_case; intros; lra. }
  unfold b64. rewrite Hq. reflexivity.
Qed.

(** C5, amended.  At a stop distance of zero the quantity calculation
    returns 0, which is not a positive quantity, and does not raise. *)
Theorem zero_stop_distance_quantity cfg (symbol0 : string)
    (entry sl : float) :
  eqb (abs (sub entry sl)) (Fin 0) = true ->
  _calculate_quantity cfg symbol0 entry sl = Fin 0
  /\ ltb (Fin 0) (_calculate_quantity cfg symbol0 entry sl) = false.
Proof.
  intros H. apply zero_distance_rounded in H.
  unfold _calculate_quantity. rewrite H. split; reflexivity.
Qed.

Lemma zero_stop_distance_quantity_witness :
  _calculate_quantity config "BTCUSDT" (Fin 100) (Fin 100) = Fin 0
  /\ ltb (Fin 0) (_calculate_quantity config "BTCUSDT" (Fin 100) (Fin 100))
     = false.
Proof.
  apply (zero_stop_distance_quantity config "BTCUSDT" (Fin 100) (Fin 100)).
  reflexivity.
Defined.

(** *** The scoring loops *)

(** The loop tries LONG first: a LONG iteration that returns ends the
    loop, whatever the SHORT iteration would do. *)
Lemma for_directions_long_first {A : Type}
    (body : Direction -> result (option A)) (a : A) :
  body LONG = Ok (Some a) ->
  for_directions body [LONG; SHORT] = Ok (Some a).
Proof. intros H. simpl. rewrite H. reflexivity. Qed.

Lemma for_directions_no_return {A : Type}
    (body : Direction -> result (option A)) (directions : list Direction) :
  (forall d a, body d <> Ok (Some a)) ->
  forall a, for_directions body directions <> Ok (Some a).
Proof.
  intros Hbody. induction directions as [|d rest IH]; intros a; simpl.
  - discriminate.
  - destruct (body d) as [[b|]|e] eqn:E; simpl.
    + exfalso. exact (Hbody _ _ E).
    + apply IH.
    + discriminate.
Qed.

Lemma try_except_no_return {A : Type} (m : result (option A)) :
  (forall a, m <> Ok (Some a)) -> try_except m None = None.
Proof.
  intros H. destruct m as [[a|]|e]; simpl; try reflexivity.
  exfalso. exact (H a eq_refl).
Qed.

(** A call of the generated constructor without the two frames raises. *)
Lemma construction_raises {B : Type} (symbol0 : string) (m : Mode) d
    (entry sl tp q : float) (score : Z) (c : Confidence) (note : string)
    (adx vb atr : float) (code0 : string) (ts : Z)
    (k : SignalResult -> result B) :
  (SignalResult__init__ symbol0 m d entry sl tp q score c note adx vb atr
     code0 ts None None ≫= k)
  = Raise TypeError.
Proof. reflexivity. Qed.

Ltac bind_case m :=
  destruct m; [rewrite bind_ok; cbv beta | discriminate].

(** What follows the score check in every loop body: no path through it
    returns a candidate. *)
Ltac after_threshold :=
  match goal with
  | |- context [_calculate_entry_price ?df ?d ?m] =>
      destruct (_calculate_entry_price df d m) as [entry|]; [|discriminate];
      destruct (truthy entry); [|discriminate];
      destruct (_calculate_sl_tp df entry d _) as [sl tp]
  end.

Lemma _detect_scalping_signal_none (env : Env) (symbol0 : string)
    (primary_df confirm_df : DataFrame) (mode_config : ModeConfig) :
  _detect_scalping_signal env symbol0 primary_df confirm_df mode_config
  = None.
Proof.
  unfold _detect_scalping_signal. apply try_except_no_return. intros a.
  destruct (get_trend_bias confirm_df SCALPING) as [b|]; [|discriminate].
  bind_case (iloc_back confirm_df 0).
  bind_case (getitem a0 "adx").
  destruct (_ || _); [discriminate|].
  destruct (check_volume_boost _ _) as [volume_valid volume_boost].
  destruct (negb volume_valid); [discriminate|].
  bind_case (iloc_back primary_df 0).
  apply for_directions_no_return. clear a. intros d a.
  destruct (_ <=? _)%Z; [|discriminate].
  after_threshold.
  bind_case (getitem a2 "atr").
  rewrite construction_raises. discriminate.
Qed.

Lemma _detect_intraday_signal_none (env : Env) (symbol0 : string)
    (primary_df confirm_df : DataFrame) (mode_config : ModeConfig) :
  _detect_intraday_signal env symbol0 primary_df confirm_df mode_config
  = None.
Proof.
  unfold _detect_intraday_signal. apply try_except_no_return. intros a.
  destruct (get_trend_bias confirm_df INTRADAY) as [b|]; [|discriminate].
  bind_case (iloc_back confirm_df 0).
  destruct (check_volume_boost _ _) as [volume_valid volume_boost].
  destruct (negb volume_valid); [discriminate|].
  bind_case (iloc_back primary_df 0).
  apply for_directions_no_return. clear a. intros d a.
  bind_case (intraday_score primary_df confirm_df a0 mode_config (Trend b)
               volume_valid d).
  destruct (_ <=? _)%Z; [|discriminate].
  after_threshold.
  bind_case (intraday_trend_note a1 (Trend b)).
  bind_case (getitem a1 "atr").
  rewrite construction_raises. discriminate.
Qed.

Lemma _detect_swing_signal_none (env : Env) (symbol0 : string)
    (primary_df confirm_df : DataFrame) (mode_config : ModeConfig) :
  _detect_swing_signal env symbol0 primary_df confirm_df mode_config = None.
Proof.
  unfold _detect_swing_signal. apply try_except_no_return. intros a.
  destruct (get_trend_bias confirm_df SWING) as [b|]; [|discriminate].
  destruct (check_volume_boost _ _) as [volume_valid volume_boost].
  destruct (negb volume_valid); [discriminate|].
  bind_case (iloc_back primary_df 0).
  bind_case (iloc_back confirm_df 0).
  apply for_directions_no_return. clear a. intros d a.
  bind_case (swing_score primary_df confirm_df a1 mode_config (Trend b)
               volume_valid d).
  destruct (_ <=? _)%Z; [|discriminate].
  after_threshold.
  bind_case (swing_trend_note primary_df a0 (Trend b) d).
  bind_case (getitem a0 "atr").
  rewrite construction_raises. discriminate.
Qed.

(** No mode of the scorer ever returns a candidate: each loop builds its
    [SignalResult] without the two frames the dataclass requires, the
    [TypeError] lands in the handler of the detector, and the detector
    returns [None]. *)
Lemma detect_signal_none (env : Env) (symbol0 : string) (m : Mode)
    (primary_df confirm_df : DataFrame) :
  detect_signal env symbol0 m primary_df confirm_df = None.
Proof.
  destruct m; unfold detect_signal;
    auto using _detect_scalping_signal_none, _detect_intraday_signal_none,
      _detect_swing_signal_none.
Qed.

(** C8, on the code.  On the frames of the examples the LONG direction of
    the fast mode scores 70 against a minimum of 55, and its entry price
    is 100; the detector returns nothing. *)
Lemma long_clears_the_bar_and_nothing_returns :
  get_trend_bias Examples.scalping_confirm SCALPING = Trend LONG
  /\ scalping_score Examples.scalping_primary (modes SCALPING) (Trend LONG)
       (Fin 30) true LONG = 70
  /\ score_min (modes SCALPING) = 55
  /\ (truthy <$> _calculate_entry_price Examples.scalping_primary LONG
                   SCALPING) = Some true
  /\ _detect_scalping_signal Examples.env0 "BTCUSDT"
       Examples.scalping_primary Examples.scalping_confirm (modes SCALPING)
     = None.
Proof. vm_compute. repeat split; reflexivity. Qed.

End scorer.

(** ** More on the lifecycle monitor *)

Section more_monitor.

Implicit Types (st : State) (signal : Signal) (now : Z) (p t : float).

Lemma not_worse_tighter (d : Direction) (t t' original : float) :
  not_worse d t original = true ->
  tighter_or_same d t t' ->
  not_worse d t' original = true.
Proof.
  intros Hn [-> | Hlt]; [exact Hn|].
  unfold not_worse in *. destruct d; apply negb_true_iff;
    apply negb_true_iff in Hn; unfold lt in Hlt.
  - destruct (ltb t' original) eqn:E; [|reflexivity].
    rewrite (ltb_trans _ _ _ Hlt E) in Hn. discriminate.
  - destruct (ltb original t') eqn:E; [|reflexivity].
    rewrite (ltb_trans _ _ _ E Hlt) in Hn. discriminate.
Qed.

Lemma _initialize_trailing_stop_value signal st (a f : float) :
  atr_value signal = Some a ->
  fill_price signal = Some f ->
  trailing_stops (_initialize_trailing_stop signal st) !! code signal
  = Some
      (match direction signal with
       | LONG =>
           pymax (sub f (mul (mul a (sl_atr_mult (modes (mode signal))))
                           (Fin 0.5)))
             (stop_loss signal)
       | SHORT =>
           pymin (add f (mul (mul a (sl_atr_mult (modes (mode signal))))
                           (Fin 0.5)))
             (stop_loss signal)
       end).
Proof.
  intros Ha Hf. unfold _initialize_trailing_stop. rewrite Ha, Hf.
  destruct (direction signal); simpl; apply lookup_insert_eq.
Qed.

(** The trailing stop that a fill installs is never on the losing side of
    the original stop (not below it for a LONG, not above it for a
    SHORT), and no sequence of later updates brings it there. *)
Theorem trailing_stop_guards_original signal st (a f : float)
    (prices : list float) :
  atr_value signal = Some a ->
  fill_price signal = Some f ->
  exists t0 t',
    trailing_stops (_initialize_trailing_stop signal st) !! code signal
    = Some t0
    /\ not_worse (direction signal) t0 (stop_loss signal) = true
    /\ trailing_stops
         (foldl (fun s p => _update_trailing_stop signal p s)
            (_initialize_trailing_stop signal st) prices)
         !! code signal = Some t'
    /\ not_worse (direction signal) t' (stop_loss signal) = true.
Proof.
  intros Ha Hf.
  pose proof (_initialize_trailing_stop_value signal st a f Ha Hf) as H0.
  destruct (_update_trailing_stop_fold signal prices _ _ H0)
    as (t' & Ht' & R & _).
  eexists _, t'. split; [exact H0|].
  assert (Hn : not_worse (direction signal)
                 (match direction signal with
                  | LONG =>
                      pymax (sub f (mul (mul a
                               (sl_atr_mult (modes (mode signal))))
                               (Fin 0.5))) (stop_loss signal)
                  | SHORT =>
                      pymin (add f (mul (mul a
                               (sl_atr_mult (modes (mode signal))))
                               (Fin 0.5))) (stop_loss signal)
                  end) (stop_loss signal) = true).
  { unfold not_worse, pymax, pymin, gtb. destruct (direction signal).
    - set (x := sub f _).
      destruct (ltb x (stop_loss signal)) eqn:E.
      + rewrite ltb_irrefl. reflexivity.
      + rewrite E. reflexivity.
    - set (x := add f _).
      destruct (ltb (stop_loss signal) x) eqn:E.
      + rewrite ltb_irrefl. reflexivity.
      + rewrite E. reflexivity. }
  split; [exact Hn|]. split; [exact Ht'|].
  exact (not_worse_tighter _ _ _ _ Hn R).
Qed.

Lemma trailing_stop_guards_original_witness :
  exists t0 t',
    trailing_stops
      (_initialize_trailing_stop Examples.sig1_filled
         (Examples.filled_at 50000 1))
      !! "SIG1"%string = Some t0
    /\ not_worse LONG t0 (Fin 49875) = true
    /\ trailing_stops
         (foldl (fun s p => _update_trailing_stop Examples.sig1_filled p s)
            (_initialize_trailing_stop Examples.sig1_filled
               (Examples.filled_at 50000 1))
            [Fin 50100; Fin 49990])
         !! "SIG1"%string = Some t'
    /\ not_worse LONG t' (Fin 49875) = true.
Proof.
  apply (trailing_stop_guards_original Examples.sig1_filled
           (Examples.filled_at 50000 1) (Fin 100) (Fin 50000)
           [Fin 50100; Fin 49990]); reflexivity.
Defined.



(** A NEW signal past its deadline, seen by the status evaluation with a
    price cached, is cancelled: its row becomes the row it was with the
    status CANCELLED, no other column changed (the reason EXPIRED that the
    handler passes is not stored, nor is a closing time), and no other row
    of the table changes; one alert is queued, no execution and no
    cooldown is recorded, the monitor's own maps are as they were, and the
    signal leaves monitoring. *)
Theorem expiry_by_evaluation now signal st p (deadline : Z) (r : Signal) :
  status signal = NEW ->
  validity_until signal = Some deadline ->
  deadline < now ->
  price_cache st !! symbol signal = Some p ->
  truthy p = true ->
  signals (db st) !! code signal = Some r ->
  exists st',
    _check_signal_status now signal st = (st', signal, true)
    /\ signals (db st')
       = <[code signal := with_status CANCELLED r]> (signals (db st))
    /\ executions (db st') = executions (db st)
    /\ cooldowns (db st') = cooldowns (db st)
    /\ notification_queue st'
       = notification_queue st
         ++ [system_alert "INFO" (expired_message signal)]
    /\ active_signals st' = active_signals st
    /\ price_cache st' = price_cache st
    /\ trailing_stops st' = trailing_stops st.
Proof.
  intros Hs Hv Hnow Hp Htr Hr.
  unfold _check_signal_status. rewrite Hp, Htr, Hs, Hv. simpl.
  assert (Hd : (deadline <? now)%Z = true) by (apply Z.ltb_lt; lia).
  rewrite Hd.
  eexists. split; [reflexivity|].
  unfold _handle_signal_expired. simpl.
  unfold update_signal_status. rewrite Hr. simpl. repeat split.
Qed.

Lemma expiry_by_evaluation_witness :
  exists st',
    _check_signal_status 1001 Examples.sig1 MoreExamples.overdue
    = (st', Examples.sig1, true)
    /\ signals (db st')
       = <["SIG1"%string := with_status CANCELLED Examples.sig1]>
           (signals (db MoreExamples.overdue))
    /\ executions (db st') = []
    /\ cooldowns (db st') = []
    /\ notification_queue st'
       = [system_alert "INFO" (expired_message Examples.sig1)]
    /\ active_signals st' = active_signals MoreExamples.overdue
    /\ price_cache st' = price_cache MoreExamples.overdue
    /\ trailing_stops st' = ∅.
Proof.
  apply (expiry_by_evaluation 1001 Examples.sig1 MoreExamples.overdue
           (Fin 49990) 1000 Examples.sig1); reflexivity.
Defined.

(** The PnL that [update_signal_status] stores on a close, for a row with
    a finite fill price that is not zero. *)
Lemma update_row_pnl now (x : Status) (cp f : Q) (reason : string)
    (r : Signal) :
  fill_price r = Some (Fin f) ->
  ~ (f == 0)%Q ->
  pnl_points
    (update_row now x (mkStatusKwargs None (Some (Fin cp)) (Some reason)) r)
  = Some (Fin (match direction r with
               | LONG => cp + - f
               | SHORT => f + - cp
               end)).
Proof.
  intros Hf Hnz. unfold update_row. simpl. rewrite Hf. simpl.
  destruct (Qeq_bool f 0) eqn:E.
  { apply Qeq_bool_iff in E. contradiction. }
  simpl. destruct (direction r); reflexivity.
Qed.

(** A take-profit close never records a loss: for a signal filled on the
    right side of its target (at or below it for a LONG, at or above it
    for a SHORT), the recorded PnL in points is the distance from the fill
    to the closing price, and it is not negative. *)
Theorem take_profit_pnl now signal st (p f tp : Q) (r : Signal) :
  status signal = FILLED ->
  take_profit signal = Fin tp ->
  price_cache st !! symbol signal = Some (Fin p) ->
  truthy (Fin p) = true ->
  _is_take_profit_hit signal (Fin p) = true ->
  signals (db st) !! code signal = Some r ->
  direction r = direction signal ->
  fill_price r = Some (Fin f) ->
  ~ (f == 0)%Q ->
  match direction signal with
  | LONG => (f <= tp)%Q
  | SHORT => (tp <= f)%Q
  end ->
  exists r' (x : Q),
    signals (db (_check_signal_status now signal st).1.1) !! code signal
    = Some r'
    /\ status r' = WIN
    /\ pnl_points r' = Some (Fin x)
    /\ (0 <= x)%Q
    /\ (x == match direction signal with
             | LONG => p - f
             | SHORT => f - p
             end)%Q.
Proof.
  intros Hs Htp Hp Htr Hhit Hr Hd Hf Hnz Hside.
  unfold _check_signal_status. rewrite Hp, Htr, Hs, Hhit. simpl.
  rewrite add_signal_execution_signals.
  rewrite (update_signal_status_lookup _ _ _ _ _ _ Hr).
  eexists _, _. split; [reflexivity|].
  split; [reflexivity|].
  split; [apply (update_row_pnl now WIN p f "TP" r Hf Hnz)|].
  unfold _is_take_profit_hit in Hhit. rewrite Htp in Hhit. rewrite Hd.
  destruct (direction signal).
  - apply leb_fin in Hhit. split; [lra | unfold Qminus; reflexivity].
  - apply leb_fin in Hhit. split; [lra | unfold Qminus; reflexivity].
Qed.

Lemma take_profit_pnl_witness :
  exists r' (x : Q),
    signals
      (db (_check_signal_status 20 Examples.sig1_filled
             (Examples.filled_at 50300 50148)).1.1) !! "SIG1"%string
    = Some r'
    /\ status r' = WIN
    /\ pnl_points r' = Some (Fin x)
    /\ (0 <= x)%Q
    /\ (x == 50300 - 50000)%Q.
Proof.
  apply (take_profit_pnl 20 Examples.sig1_filled
           (Examples.filled_at 50300 50148) 50300 50000 50200
           Examples.sig1_filled); try reflexivity.
  - intros H. discriminate H.
  - simpl. discriminate.
Defined.

(** The outcome of a trailing-stop close is read off the position of the
    stop, not off the PnL: a LONG whose trailing stop lies above the
    original stop but not above the fill price is recorded as WIN with a
    negative PnL as soon as the price falls to the stop, below the
    fill. *)
Theorem trailing_win_with_loss now signal st (p f sl t : Q) (r : Signal) :
  status signal = FILLED ->
  direction signal = LONG ->
  stop_loss signal = Fin sl ->
  price_cache st !! symbol signal = Some (Fin p) ->
  truthy (Fin p) = true ->
  _is_take_profit_hit signal (Fin p) = false ->
  trailing_stops st !! code signal = Some (Fin t) ->
  signals (db st) !! code signal = Some r ->
  direction r = LONG ->
  fill_price r = Some (Fin f) ->
  ~ (f == 0)%Q ->
  ~ (t == 0)%Q ->
  (sl < t)%Q -> (p <= t)%Q -> (p < f)%Q ->
  exists r' (x : Q),
    signals (db (_check_signal_status now signal st).1.1) !! code signal
    = Some r'
    /\ status r' = WIN
    /\ close_reason r' = Some "TRAILING"%string
    /\ pnl_points r' = Some (Fin x)
    /\ (x < 0)%Q.
Proof.
  intros Hs Hd Hsl Hp Htr Htp Ht Hr Hdr Hf Hnz Htnz H1 H2 H3.
  assert (Hhit : _is_trailing_stop_hit st signal (Fin p) = true).
  { unfold _is_trailing_stop_hit. rewrite Ht, Hd. simpl.
    destruct (Qeq_bool t 0) eqn:E.
    { apply Qeq_bool_iff in E. contradiction. }
    simpl. apply Qle_bool_iff. exact H2. }
  assert (Hw : _was_profitable_before_trailing st signal = true).
  { unfold _was_profitable_before_trailing. rewrite Ht, Hd, Hsl.
    apply ltb_fin. exact H1. }
  unfold _check_signal_status. rewrite Hp, Htr, Hs, Htp, Ht, Hhit.
  cbn [negb fst snd].
  unfold _handle_trailing_stop. rewrite Hw. cbn [db set_db put].
  rewrite add_signal_execution_signals.
  rewrite (update_signal_status_lookup _ _ _ _ _ _ Hr).
  eexists _, _. split; [reflexivity|].
  split; [reflexivity|]. split; [reflexivity|].
  split; [apply (update_row_pnl now WIN p f "TRAILING" r Hf Hnz)|].
  rewrite Hdr. lra.
Qed.

(** Filled at 50000 with the stop installed at 49937.5, above the
    original 49875; the price falls to 49900. *)
Lemma trailing_win_with_loss_witness :
  exists r' (x : Q),
    signals
      (db (_check_signal_status 20 Examples.sig1_filled
             (Examples.filled_at 49900 49937.5)).1.1) !! "SIG1"%string
    = Some r'
    /\ status r' = WIN
    /\ close_reason r' = Some "TRAILING"%string
    /\ pnl_points r' = Some (Fin x)
    /\ (x < 0)%Q.
Proof.
  apply (trailing_win_with_loss 20 Examples.sig1_filled
           (Examples.filled_at 49900 49937.5) 49900 50000 49875 49937.5
           Examples.sig1_filled); try reflexivity.
  - intros H. discriminate H.
  - intros H. discriminate H.
  - intros H. discriminate H.
Defined.

End more_monitor.

(** ** More on the loops *)

Section more_loops.

Implicit Types (st : State) (signal : Signal) (now : Z).

Lemma _initialize_trailing_stop_price_cache signal st :
  price_cache (_initialize_trailing_stop signal st) = price_cache st.
Proof.
  unfold _initialize_trailing_stop.
  destruct (atr_value signal), (fill_price signal), (direction signal);
    reflexivity.
Qed.

Lemma _update_trailing_stop_price_cache signal (p : float) st :
  price_cache (_update_trailing_stop signal p st) = price_cache st.
Proof.
  unfold _update_trailing_stop.
  destruct (trailing_stops st !! code signal); [|reflexivity].
  destruct (direction signal);
    match goal with |- context [if ?b then _ else _] => destruct b end;
    reflexivity.
Qed.

(** A status evaluation reads the price cache and never writes it. *)
Lemma _check_signal_status_price_cache now signal st :
  price_cache (_check_signal_status now signal st).1.1 = price_cache st.
Proof.
  unfold _check_signal_status.
  destruct (price_cache st !! symbol signal) as [p|]; [|reflexivity].
  destruct (truthy p); simpl; [|reflexivity].
  destruct (status signal); try reflexivity.
  - destruct (validity_until signal) as [deadline|]; [|reflexivity].
    destruct (deadline <? now)%Z; [reflexivity|].
    destruct (_is_entry_hit signal p); [|reflexivity].
    simpl. rewrite _initialize_trailing_stop_price_cache. reflexivity.
  - destruct (_is_take_profit_hit signal p); [reflexivity|].
    destruct (trailing_stops st !! code signal).
    + destruct (_is_trailing_stop_hit st signal p); [reflexivity|].
      apply _update_trailing_stop_price_cache.
    + destruct (_is_stop_loss_hit signal p); reflexivity.
Qed.

Lemma monitor_each_price_cache now (items : list (string * Signal)) st :
  price_cache (monitor_each now items st).1.1 = price_cache st.
Proof.
  revert st. induction items as [|[k s] items IH]; intros st; simpl.
  - reflexivity.
  - pose proof (_check_signal_status_price_cache now s st) as Hc.
    destruct (_check_signal_status now s st) as [[st1 s'] res].
    specialize (IH st1).
    destruct (monitor_each now items st1) as [[st2 items'] rm].
    simpl in *. congruence.
Qed.

(** What a status evaluation does to the object it is given: nothing, or
    the fill of a NEW signal at the cached price. *)
Lemma _check_signal_status_step now signal st :
  (_check_signal_status now signal st).1.2 = signal
  \/ (status signal = NEW
      /\ exists p, price_cache st !! symbol signal = Some p
                  /\ (_check_signal_status now signal st).1.2
                     = mark_filled now p signal).
Proof.
  unfold _check_signal_status.
  destruct (price_cache st !! symbol signal) as [p|] eqn:Hp; [|auto].
  destruct (truthy p); simpl; [|auto].
  destruct (status signal) eqn:Hs; auto.
  - destruct (validity_until signal) as [deadline|]; [|auto].
    destruct (deadline <? now)%Z; [auto|].
    destruct (_is_entry_hit signal p); [|auto].
    right. split; [reflexivity|]. exists p. split; reflexivity.
  - destruct (_is_take_profit_hit signal p); [auto|].
    destruct (trailing_stops st !! code signal).
    + destruct (_is_trailing_stop_hit st signal p); auto.
    + destruct (_is_stop_loss_hit signal p); auto.
Qed.

Lemma monitor_each_step now (items : list (string * Signal)) st (k : string)
    (s' : Signal) :
  In (k, s') (monitor_each now items st).1.2 ->
  exists s,
    In (k, s) items
    /\ (s' = s
        \/ (status s = NEW
            /\ exists p, price_cache st !! symbol s = Some p
                        /\ s' = mark_filled now p s)).
Proof.
  revert st. induction items as [|[k0 s0] items IH]; intros st; simpl.
  - tauto.
  - pose proof (_check_signal_status_step now s0 st) as Hstep.
    pose proof (_check_signal_status_price_cache now s0 st) as Hc.
    destruct (_check_signal_status now s0 st) as [[st1 s1] res].
    specialize (IH st1).
    destruct (monitor_each now items st1) as [[st2 items'] rm].
    simpl in *. intros [Heq | Hin].
    + injection Heq as <- <-. exists s0. split; [auto|].
      destruct Hstep as [-> | (Hs & p & Hp & ->)]; [auto|].
      right. split; [exact Hs|]. exists p. auto.
    + destruct (IH Hin) as (s & Hin' & Hrel). exists s. split; [auto|].
      rewrite Hc in Hrel. exact Hrel.
Qed.

(** A FILLED signal whose cached price has reached the target is among
    the signals the first loop marks for removal. *)
Lemma monitor_each_take_profit now (items : list (string * Signal)) st
    (k : string) signal (p : float) :
  In (k, signal) items ->
  status signal = FILLED ->
  price_cache st !! symbol signal = Some p ->
  truthy p = true ->
  _is_take_profit_hit signal p = true ->
  In k (monitor_each now items st).2.
Proof.
  intros Hin Hs Hp Htr Htp. revert st Hp.
  induction items as [|[k0 s0] items IH]; intros st Hp; [destruct Hin|].
  simpl.
  pose proof (_check_signal_status_price_cache now s0 st) as Hc.
  destruct Hin as [Heq | Hin].
  - injection Heq as -> ->.
    assert (Hres : (_check_signal_status now signal st).2 = true).
    { unfold _check_signal_status. rewrite Hp, Htr, Hs, Htp. reflexivity. }
    destruct (_check_signal_status now signal st) as [[st1 s1] res].
    destruct (monitor_each now items st1) as [[st2 items'] rm].
    simpl in *. subst res. left. reflexivity.
  - destruct (_check_signal_status now s0 st) as [[st1 s1] res].
    simpl in Hc. rewrite <- Hc in Hp. specialize (IH Hin st1 Hp).
    destruct (monitor_each now items st1) as [[st2 items'] rm].
    simpl in *. destruct res; [right|]; exact IH.
Qed.

(** After a status evaluation, a FILLED signal whose cached price has
    reached its target is monitored no more, and the trailing stop of its
    key is gone. *)
Theorem take_profit_unregisters now st (k : string) signal (p : float) :
  In (k, signal) (active_signals st) ->
  status signal = FILLED ->
  price_cache st !! symbol signal = Some p ->
  truthy p = true ->
  _is_take_profit_hit signal p = true ->
  ~ In k (map fst (active_signals (_monitor_signals now st)))
  /\ trailing_stops (_monitor_signals now st) !! k = None.
Proof.
  intros Hin Hs Hp Htr Htp.
  pose proof (monitor_each_take_profit now (active_signals st) st k signal p
                Hin Hs Hp Htr Htp) as Hrm.
  unfold _monitor_signals.
  destruct (monitor_each now (active_signals st) st) as [[st1 items'] rm].
  simpl in Hrm.
  destruct (remove_completed_gone rm (set_active_signals items' st1) k Hrm)
    as [G1 G2].
  split; assumption.
Qed.

Lemma take_profit_unregisters_witness :
  ~ In "SIG1"%string
      (map fst
         (active_signals
            (_monitor_signals 20 (Examples.filled_at 50300 50148))))
  /\ trailing_stops (_monitor_signals 20 (Examples.filled_at 50300 50148))
       !! "SIG1"%string = None.
Proof.
  apply (take_profit_unregisters 20 (Examples.filled_at 50300 50148) "SIG1"
           Examples.sig1_filled (Fin 50300)); try reflexivity.
  left. reflexivity.
Defined.

(** A status evaluation keeps [active_signals] a dictionary that files
    every signal under its own code; it adds no key; and a signal that
    stays is the object it was or, for a NEW signal, that object filled at
    the cached price.  No signal goes back from FILLED to NEW. *)
Theorem evaluation_keeps_the_registry now st :
  well_formed st ->
  well_formed (_monitor_signals now st)
  /\ forall (k : string) (s' : Signal),
       In (k, s') (active_signals (_monitor_signals now st)) ->
       exists s,
         In (k, s) (active_signals st)
         /\ (s' = s
             \/ (status s = NEW
                 /\ exists p, price_cache st !! symbol s = Some p
                             /\ s' = mark_filled now p s)).
Proof.
  intros [Hnd Hcodes]. unfold _monitor_signals.
  pose proof (monitor_each_keys now (active_signals st) st) as Hkeys.
  pose proof (monitor_each_codes now (active_signals st) st Hcodes) as Hc'.
  pose proof (monitor_each_step now (active_signals st) st) as Hstep.
  destruct (monitor_each now (active_signals st) st) as [[st1 items'] rm].
  simpl in Hkeys, Hc', Hstep. split.
  - apply remove_completed_well_formed. split; simpl; [|exact Hc'].
    rewrite Hkeys. exact Hnd.
  - intros k s' Hin. apply remove_completed_sub in Hin. simpl in Hin.
    apply Hstep, Hin.
Qed.

Lemma evaluation_keeps_the_registry_witness :
  well_formed (_monitor_signals 10 MoreExamples.ready_to_fill)
  /\ forall (k : string) (s' : Signal),
       In (k, s')
         (active_signals (_monitor_signals 10 MoreExamples.ready_to_fill)) ->
       exists s,
         In (k, s) (active_signals MoreExamples.ready_to_fill)
         /\ (s' = s
             \/ (status s = NEW
                 /\ exists p,
                      price_cache MoreExamples.ready_to_fill !! symbol s
                      = Some p
                      /\ s' = mark_filled 10 p s)).
Proof.
  apply (evaluation_keeps_the_registry 10 MoreExamples.ready_to_fill).
  split; [apply NoDup_singleton | repeat constructor].
Defined.

Lemma _monitor_signals_without_prices_witness :
  _monitor_signals 1001 Examples.registered = Examples.registered.
Proof.
  apply (_monitor_signals_without_prices 1001 Examples.registered).
  repeat constructor.
Defined.

(** The cache after the refresh of a list of symbols. *)
Lemma refresh_fold (feed : string -> option float) (l : list string) st
    (sym : string) :
  price_cache
    (foldl
       (fun s symbol0 =>
          match feed symbol0 with
          | Some price =>
              if truthy price
              then set_price_cache (<[symbol0 := price]> (price_cache s)) s
              else s
          | None => s
          end) st l) !! sym
  = if bool_decide (sym ∈ l) && opt_truthy (feed sym)
    then feed sym else price_cache st !! sym.
Proof.
  revert st. induction l as [|s l IH]; intros st.
  - reflexivity.
  - simpl foldl. rewrite IH. clear IH.
    destruct (decide (sym = s)) as [->|Hne].
    + rewrite (bool_decide_eq_true_2 (s ∈ s :: l)) by (left).
      destruct (feed s) as [q|] eqn:Hq; simpl.
      * destruct (truthy q) eqn:Ht; simpl.
        -- rewrite andb_true_r. rewrite lookup_insert_eq.
           destruct (bool_decide (s ∈ l)); reflexivity.
        -- rewrite andb_false_r. reflexivity.
      * rewrite andb_false_r. reflexivity.
    + assert (Hmem : bool_decide (sym ∈ s :: l) = bool_decide (sym ∈ l)).
      { apply bool_decide_ext. rewrite elem_of_cons. tauto. }
      rewrite Hmem.
      assert (Hsame : price_cache
                        (match feed s with
                         | Some price =>
                             if truthy price
                             then set_price_cache
                                    (<[s := price]> (price_cache st)) st
                             else st
                         | None => st
                         end) !! sym = price_cache st !! sym).
      { destruct (feed s) as [q|]; [|reflexivity].
        destruct (truthy q); [|reflexivity].
        simpl. apply lookup_insert_ne. congruence. }
      rewrite Hsame. reflexivity.
Qed.

(** A price refresh leaves the database and the queue alone. *)
Lemma _update_prices_records feed st :
  db (_update_prices feed st) = db st
  /\ notification_queue (_update_prices feed st) = notification_queue st.
Proof.
  unfold _update_prices.
  generalize (elements
    (list_to_set (map (fun kv => symbol (snd kv)) (active_signals st))
       : gset string)).
  intros l. revert st. induction l as [|s l IH]; intros st; simpl; [auto|].
  destruct (IH (match feed s with
                | Some price =>
                    if truthy price
                    then set_price_cache (<[s:=price]> (price_cache st)) st
                    else st
                | None => st
                end)) as [Ha Ht].
  rewrite Ha, Ht. destruct (feed s) as [q|]; [|auto].
  destruct (truthy q); auto.
Qed.

(** A price refresh writes the price cache and nothing else.  For every
    symbol: if a monitored signal trades it and the feed returns a price
    that is not zero, the cache holds that price afterwards; otherwise
    (symbol not monitored, fetch failed, or price zero) the cache keeps
    what it held. *)
Theorem price_refresh_cache (feed : string -> option float) st
    (sym : string) :
  price_cache (_update_prices feed st) !! sym
  = (if bool_decide (sym ∈ map (fun kv => symbol (snd kv)) (active_signals st))
        && opt_truthy (feed sym)
     then feed sym else price_cache st !! sym)
  /\ active_signals (_update_prices feed st) = active_signals st
  /\ trailing_stops (_update_prices feed st) = trailing_stops st
  /\ db (_update_prices feed st) = db st
  /\ notification_queue (_update_prices feed st) = notification_queue st.
Proof.
  split; [|pose proof (_update_prices_frame feed st);
           pose proof (_update_prices_records feed st); tauto].
  unfold _update_prices. rewrite refresh_fold.
  assert (Hmem : bool_decide
                   (sym ∈ elements
                      (list_to_set
                         (map (fun kv => symbol (snd kv)) (active_signals st))
                       : gset string))
                 = bool_decide
                     (sym ∈ map (fun kv => symbol (snd kv))
                        (active_signals st))).
  { apply bool_decide_ext. rewrite elem_of_elements, elem_of_list_to_set.
    reflexivity. }
  rewrite Hmem. reflexivity.
Qed.

(** *** The records only grow *)

Lemma grows_refl st : grows st st.
Proof. repeat split; reflexivity. Qed.

Lemma grows_trans st1 st2 st3 : grows st1 st2 -> grows st2 st3 -> grows st1 st3.
Proof.
  intros (E1 & Q1 & D1) (E2 & Q2 & D2). repeat split.
  - etransitivity; eassumption.
  - etransitivity; eassumption.
  - congruence.
Qed.

Lemma update_signal_status_dom now (c : string) (x : Status) kw
    (d : Database) :
  dom (signals (update_signal_status now c x kw d)) = dom (signals d)
  /\ executions (update_signal_status now c x kw d) = executions d.
Proof.
  unfold update_signal_status.
  destruct (signals d !! c) as [r|] eqn:E; [|auto]. simpl. split; [|auto].
  rewrite dom_insert_L. apply subseteq_union_1_L, singleton_subseteq_l.
  apply elem_of_dom. eauto.
Qed.

Lemma add_signal_execution_prefix now (c ty : string) (p q : float)
    (d : Database) :
  executions d `prefix_of` executions (add_signal_execution now c ty p q d).
Proof.
  unfold add_signal_execution.
  destruct (signals d !! c); simpl; [apply prefix_app_r|]; reflexivity.
Qed.

(** What one database call of a handler, or one [put], keeps. *)
Lemma grows_set_db st (d : Database) :
  executions (db st) `prefix_of` executions d ->
  dom (signals d) = dom (signals (db st)) ->
  grows st (set_db d st).
Proof. intros He Hd. repeat split; [exact He | reflexivity | exact Hd]. Qed.

Lemma grows_put st (n : Notification) : grows st (put n st).
Proof.
  repeat split; simpl; [reflexivity | apply prefix_app_r; reflexivity].
Qed.

Lemma grows_update now st (c : string) (x : Status) kw :
  grows st (set_db (update_signal_status now c x kw (db st)) st).
Proof.
  destruct (update_signal_status_dom now c x kw (db st)) as [Hd He].
  apply grows_set_db; [rewrite He; reflexivity | exact Hd].
Qed.

Lemma grows_execution now st (c ty : string) (p q : float) :
  grows st (set_db (add_signal_execution now c ty p q (db st)) st).
Proof.
  apply grows_set_db; [apply add_signal_execution_prefix|].
  rewrite add_signal_execution_signals. reflexivity.
Qed.

Lemma grows_cooldown st (sym : string) (m : Mode) (reason : string)
    (until : Z) :
  grows st (set_db (add_cooldown sym m reason until (db st)) st).
Proof. apply grows_set_db; reflexivity. Qed.

Lemma grows_initialize signal st : grows st (_initialize_trailing_stop signal st).
Proof.
  unfold _initialize_trailing_stop.
  destruct (atr_value signal), (fill_price signal), (direction signal);
    repeat split; reflexivity.
Qed.

Lemma grows_update_stop signal (p : float) st :
  grows st (_update_trailing_stop signal p st).
Proof.
  unfold _update_trailing_stop.
  destruct (trailing_stops st !! code signal); [|apply grows_refl].
  destruct (direction signal);
    match goal with |- context [if ?b then _ else _] => destruct b end;
    repeat split; reflexivity.
Qed.

Ltac grows_chain :=
  repeat first
    [ apply grows_refl
    | eapply grows_trans; [|apply grows_put]
    | eapply grows_trans; [|apply grows_cooldown]
    | eapply grows_trans; [|apply grows_execution]
    | eapply grows_trans; [|apply grows_update]
    | eapply grows_trans; [|apply grows_initialize]
    | apply grows_update_stop ].

Lemma grows_expired now signal st : grows st (_handle_signal_expired now signal st).
Proof. unfold _handle_signal_expired. grows_chain. Qed.

Lemma grows_check now signal st :
  grows st (_check_signal_status now signal st).1.1.
Proof.
  unfold _check_signal_status.
  destruct (price_cache st !! symbol signal) as [p|]; [|apply grows_refl].
  destruct (truthy p); simpl; [|apply grows_refl].
  destruct (status signal); try apply grows_refl.
  - destruct (validity_until signal) as [deadline|]; [|apply grows_refl].
    destruct (deadline <? now)%Z; [apply grows_expired|].
    destruct (_is_entry_hit signal p); [|apply grows_refl].
    unfold _handle_signal_filled. cbn [fst snd]. grows_chain.
  - destruct (_is_take_profit_hit signal p).
    { unfold _handle_take_profit. cbn [fst snd]. grows_chain. }
    destruct (trailing_stops st !! code signal).
    + destruct (_is_trailing_stop_hit st signal p).
      * unfold _handle_trailing_stop. cbn [fst snd]. grows_chain.
      * apply grows_update_stop.
    + destruct (_is_stop_loss_hit signal p); [|apply grows_refl].
      unfold _handle_stop_loss. cbn [fst snd]. grows_chain.
Qed.

Lemma grows_monitor_each now (items : list (string * Signal)) st :
  grows st (monitor_each now items st).1.1.
Proof.
  revert st. induction items as [|[k s] items IH]; intros st; simpl.
  - apply grows_refl.
  - pose proof (grows_check now s st) as Hc.
    destruct (_check_signal_status now s st) as [[st1 s'] res].
    specialize (IH st1).
    destruct (monitor_each now items st1) as [[st2 items'] rm].
    simpl in *. exact (grows_trans _ _ _ Hc IH).
Qed.

Lemma remove_completed_records (l : list string) st :
  db (remove_completed l st) = db st
  /\ notification_queue (remove_completed l st) = notification_queue st.
Proof.
  revert st. induction l as [|k l IH]; intros st; [auto|].
  rewrite remove_completed_cons.
  destruct (IH (set_trailing_stops (delete k (trailing_stops st))
                  (set_active_signals (dict_pop k (active_signals st)) st)))
    as [H1 H2].
  rewrite H1, H2. auto.
Qed.

Lemma grows_monitor_signals now st : grows st (_monitor_signals now st).
Proof.
  unfold _monitor_signals.
  pose proof (grows_monitor_each now (active_signals st) st) as H.
  destruct (monitor_each now (active_signals st) st) as [[st1 items'] rm].
  simpl in H. unfold grows in *.
  destruct (remove_completed_records rm (set_active_signals items' st1))
    as [H1 H2].
  rewrite H1, H2. exact H.
Qed.

Lemma grows_sweep now st : grows st (_check_expired_signals now st).
Proof.
  unfold _check_expired_signals.
  generalize (List.filter (is_expired_new now) (map snd (active_signals st))).
  intros l. revert st. induction l as [|s l IH]; intros st; simpl.
  - apply grows_refl.
  - eapply grows_trans; [apply grows_expired | apply IH].
Qed.

(** Whatever the three loops do, in whatever order: no execution record and
    no queued notification is dropped or rewritten (both are only appended
    to), and the table of signals keeps exactly its codes. *)
Theorem records_only_grow (schedule : list Activity) st :
  grows st (run schedule st).
Proof.
  revert st. induction schedule as [|a schedule IH]; intros st; simpl.
  - apply grows_refl.
  - eapply grows_trans; [|apply IH].
    destruct a as [feed | now | now]; simpl.
    + destruct (_update_prices_records feed st) as [H1 H2].
      unfold grows. rewrite H1, H2. repeat split; reflexivity.
    + apply grows_monitor_signals.
    + apply grows_sweep.
Qed.

End more_loops.

(** ** Registration *)

Section registry.

Implicit Types (st : State) (signal : Signal).

Lemma dict_set_fresh {V : Type} (k : string) (v : V)
    (d : list (string * V)) :
  ~ In k (map fst d) -> dict_set k v d = d ++ [(k, v)].
Proof.
  induction d as [|[k' v'] d IH]; simpl; intros H; [reflexivity|].
  destruct (String.eqb k' k) eqn:E.
  - apply String.eqb_eq in E. tauto.
  - rewrite IH by tauto. reflexivity.
Qed.

Lemma dict_set_keys {V : Type} (k : string) (v : V) (d : list (string * V)) :
  In k (map fst d) -> map fst (dict_set k v d) = map fst d.
Proof.
  induction d as [|[k' v'] d IH]; simpl; intros H; [tauto|].
  destruct (String.eqb k' k) eqn:E.
  - apply String.eqb_eq in E. subst. reflexivity.
  - apply String.eqb_neq in E. simpl. rewrite IH; [reflexivity | tauto].
Qed.

Lemma dict_set_NoDup {V : Type} (k : string) (v : V)
    (d : list (string * V)) :
  NoDup (map fst d) -> NoDup (map fst (dict_set k v d)).
Proof.
  intros Hnd. destruct (List.in_dec String.string_dec k (map fst d)) as [H|H].
  - rewrite dict_set_keys by exact H. exact Hnd.
  - rewrite dict_set_fresh by exact H. rewrite map_app. simpl.
    apply NoDup_app. split; [exact Hnd|]. split.
    + intros x Hx Hx'. apply list_elem_of_In in Hx.
      apply list_elem_of_singleton in Hx'. subst. tauto.
    + apply NoDup_singleton.
Qed.

Lemma dict_set_In {V : Type} (k : string) (v : V) (d : list (string * V)) :
  In (k, v) (dict_set k v d).
Proof.
  induction d as [|[k' v'] d IH]; simpl; [auto|].
  destruct (String.eqb k' k); simpl; auto.
Qed.

Lemma dict_set_other {V : Type} (k : string) (v : V) (d : list (string * V))
    (k' : string) (v' : V) :
  k' <> k -> (In (k', v') (dict_set k v d) <-> In (k', v') d).
Proof.
  intros Hne. induction d as [|[k0 v0] d IH]; simpl.
  - split; [intros [H|[]]; congruence | tauto].
  - destruct (String.eqb k0 k) eqn:E; simpl.
    + apply String.eqb_eq in E. subst.
      split; intros [H|H]; auto; congruence.
    + rewrite IH. reflexivity.
Qed.

Lemma dict_set_all {V : Type} (P : string * V -> Prop) (k : string) (v : V)
    (d : list (string * V)) :
  P (k, v) -> Forall P d -> Forall P (dict_set k v d).
Proof.
  intros Hp H. induction H as [|[k' v'] d Hx Hd IH]; simpl.
  - repeat constructor. exact Hp.
  - destruct (String.eqb k' k); constructor; auto.
Qed.

(** Registering a NEW or FILLED row under its code keeps [active_signals]
    a dictionary that files every signal under its own code, puts the row
    there, leaves the other entries and the records alone; a code that is
    unknown or whose row is completed changes nothing. *)
Theorem registration st (c : string) (s : Signal) :
  well_formed st ->
  signals (db st) !! c = Some s ->
  code s = c ->
  is_active s = true ->
  well_formed (add_signal_to_monitoring c st)
  /\ In (c, s) (active_signals (add_signal_to_monitoring c st))
  /\ (forall (k : string) (v : Signal), k <> c ->
      (In (k, v) (active_signals (add_signal_to_monitoring c st))
       <-> In (k, v) (active_signals st)))
  /\ db (add_signal_to_monitoring c st) = db st
  /\ notification_queue (add_signal_to_monitoring c st)
     = notification_queue st
  /\ (forall c' : string,
      (forall s', signals (db st) !! c' = Some s' -> is_active s' = false) ->
      add_signal_to_monitoring c' st = st).
Proof.
  intros [Hnd Hcodes] Hrow Hcode Hact.
  assert (Hreg :
    active_signals (add_signal_to_monitoring c st)
    = dict_set c s (active_signals st)
    /\ db (add_signal_to_monitoring c st) = db st
    /\ notification_queue (add_signal_to_monitoring c st)
       = notification_queue st).
  { unfold add_signal_to_monitoring, get_signal_by_code. rewrite Hrow.
    unfold is_active in Hact.
    destruct (status s); try discriminate; simpl; auto.
    destruct (opt_truthy (fill_price s)); simpl; auto.
    rewrite _initialize_trailing_stop_active. split; [reflexivity|].
    unfold _initialize_trailing_stop.
    destruct (atr_value s), (fill_price s), (direction s); auto. }
  destruct Hreg as (Ha & Hd & Hq).
  split; [|split; [|split; [|split; [|split]]]].
  - unfold well_formed. rewrite Ha. split.
    + apply dict_set_NoDup, Hnd.
    + apply dict_set_all; [exact Hcode | exact Hcodes].
  - rewrite Ha. apply dict_set_In.
  - intros k v Hne. rewrite Ha. apply dict_set_other, Hne.
  - exact Hd.
  - exact Hq.
  - intros c' Hc'. unfold add_signal_to_monitoring, get_signal_by_code.
    destruct (signals (db st) !! c') as [s'|] eqn:E; [|reflexivity].
    specialize (Hc' s' eq_refl). unfold is_active in Hc'.
    destruct (status s'); try discriminate; reflexivity.
Qed.

Lemma registration_witness :
  well_formed
    (add_signal_to_monitoring "SIG2"
       (MoreExamples.empty_monitor MoreExamples.two_rows))
  /\ In ("SIG2"%string, Examples.sig2_filled)
       (active_signals
          (add_signal_to_monitoring "SIG2"
             (MoreExamples.empty_monitor MoreExamples.two_rows)))
  /\ (forall (k : string) (v : Signal), k <> "SIG2"%string ->
      (In (k, v)
         (active_signals
            (add_signal_to_monitoring "SIG2"
               (MoreExamples.empty_monitor MoreExamples.two_rows)))
       <-> In (k, v)
             (active_signals
                (MoreExamples.empty_monitor MoreExamples.two_rows))))
  /\ db (add_signal_to_monitoring "SIG2"
          (MoreExamples.empty_monitor MoreExamples.two_rows))
     = db (MoreExamples.empty_monitor MoreExamples.two_rows)
  /\ notification_queue
       (add_signal_to_monitoring "SIG2"
          (MoreExamples.empty_monitor MoreExamples.two_rows))
     = notification_queue (MoreExamples.empty_monitor MoreExamples.two_rows)
  /\ (forall c' : string,
      (forall s',
         signals (db (MoreExamples.empty_monitor MoreExamples.two_rows)) !! c'
         = Some s' -> is_active s' = false) ->
      add_signal_to_monitoring c'
        (MoreExamples.empty_monitor MoreExamples.two_rows)
      = MoreExamples.empty_monitor MoreExamples.two_rows).
Proof.
  apply (registration (MoreExamples.empty_monitor MoreExamples.two_rows)
           "SIG2" Examples.sig2_filled).
  - split; [apply NoDup_nil_2 | constructor].
  - reflexivity.
  - reflexivity.
  - reflexivity.
Defined.

Lemma get_active_signals_In (d : Database) (s : Signal) :
  In s (get_active_signals d)
  <-> (exists k, signals d !! k = Some s) /\ is_active s = true.
Proof.
  unfold get_active_signals. rewrite List.filter_In, List.in_map_iff.
  split.
  - intros [([k s'] & E & Hin) Ha]. simpl in E. subst s'. split; [|exact Ha].
    exists k. apply elem_of_map_to_list, list_elem_of_In, Hin.
  - intros [[k Hk] Ha]. split; [|exact Ha]. exists (k, s). split; [reflexivity|].
    apply list_elem_of_In, elem_of_map_to_list, Hk.
Qed.

Lemma active_codes_NoDup (l : list (string * Signal)) :
  NoDup (map fst l) ->
  (forall k s, In (k, s) l -> code s = k) ->
  NoDup (map code (List.filter is_active (map snd l))).
Proof.
  induction l as [|[k s] l IH]; simpl; intros Hnd Hk; [constructor|].
  apply NoDup_cons in Hnd as [Hfresh Hnd].
  assert (IH' := IH Hnd (fun k' s' H => Hk k' s' (or_intror H))).
  destruct (is_active s); [|exact IH'].
  simpl. apply NoDup_cons. split; [|exact IH'].
  rewrite list_elem_of_In. intros Hin.
  apply List.in_map_iff in Hin as (s' & Ec & Hin).
  apply List.filter_In in Hin as [Hin _].
  apply List.in_map_iff in Hin as ([k' s''] & Es & Hin). simpl in Es. subst s''.
  apply Hfresh. rewrite list_elem_of_In.
  assert (k' = k).
  { rewrite <- (Hk k' s' (or_intror Hin)), Ec. apply (Hk k s). left.
    reflexivity. }
  subst k'. apply (List.in_map fst) in Hin. exact Hin.
Qed.

Lemma load_fold (l : list Signal) st :
  NoDup (map code l) ->
  (forall s, In s l -> ~ In (code s) (map fst (active_signals st))) ->
  active_signals
    (foldl
       (fun s signal =>
          let s :=
            set_active_signals
              (dict_set (code signal) signal (active_signals s)) s in
          match status signal with
          | FILLED =>
              if opt_truthy (fill_price signal)
              then _initialize_trailing_stop signal s else s
          | _ => s
          end) st l)
  = active_signals st ++ map (fun s => (code s, s)) l.
Proof.
  revert st. induction l as [|s l IH]; intros st Hnd Hfresh.
  - simpl. rewrite app_nil_r. reflexivity.
  - simpl in Hnd. apply NoDup_cons in Hnd as [Hs Hnd].
    rewrite list_elem_of_In in Hs.
    simpl foldl.
    assert (Hstep :
      active_signals
        (match status s with
         | FILLED =>
             if opt_truthy (fill_price s)
             then _initialize_trailing_stop s
                    (set_active_signals
                       (dict_set (code s) s (active_signals st)) st)
             else set_active_signals
                    (dict_set (code s) s (active_signals st)) st
         | _ => set_active_signals
                  (dict_set (code s) s (active_signals st)) st
         end)
      = active_signals st ++ [(code s, s)]).
    { rewrite <- (dict_set_fresh (code s) s (active_signals st))
        by (apply Hfresh; left; reflexivity).
      destruct (status s); try reflexivity.
      destruct (opt_truthy (fill_price s)); [|reflexivity].
      apply _initialize_trailing_stop_active. }
    rewrite IH.
    + rewrite Hstep. rewrite <- app_assoc. reflexivity.
    + exact Hnd.
    + intros s' Hin. rewrite Hstep, map_app, List.in_app_iff. simpl.
      intros [H | [H | []]].
      * exact (Hfresh s' (or_intror Hin) H).
      * apply Hs. rewrite H. apply (List.in_map code), Hin.
Qed.

(** Loading into a monitor that holds no signal, from a table whose rows
    are stored under their own codes: the monitor then holds exactly the
    NEW and FILLED rows of the table, each once and under its code. *)
Theorem loading st :
  active_signals st = [] ->
  rows_keyed (db st) ->
  active_signals (_load_active_signals st)
  = map (fun s => (code s, s)) (get_active_signals (db st))
  /\ well_formed (_load_active_signals st)
  /\ (forall (k : string) (s : Signal),
      In (k, s) (active_signals (_load_active_signals st))
      <-> signals (db st) !! k = Some s /\ is_active s = true).
Proof.
  intros Hempty Hkeyed.
  assert (Hnd : NoDup (map code (get_active_signals (db st)))).
  { apply active_codes_NoDup; [apply NoDup_fst_map_to_list|].
    intros k s Hin. apply Hkeyed.
    apply elem_of_map_to_list, list_elem_of_In, Hin. }
  assert (Ha : active_signals (_load_active_signals st)
               = map (fun s => (code s, s)) (get_active_signals (db st))).
  { unfold _load_active_signals. rewrite load_fold.
    - rewrite Hempty. reflexivity.
    - exact Hnd.
    - intros s _. rewrite Hempty. simpl. tauto. }
  split; [exact Ha|]. split.
  - unfold well_formed. rewrite Ha. split.
    + rewrite map_map. simpl. exact Hnd.
    + apply List.Forall_forall. intros kv Hin.
      apply List.in_map_iff in Hin as (s & <- & _). reflexivity.
  - intros k s. rewrite Ha, List.in_map_iff. split.
    + intros (s' & E & Hin). injection E as <- ->.
      apply get_active_signals_In in Hin as [[k Hk] Hact].
      split; [|exact Hact]. rewrite (Hkeyed _ _ Hk). exact Hk.
    + intros [Hk Hact]. exists s. split.
      * rewrite (Hkeyed _ _ Hk). reflexivity.
      * apply get_active_signals_In. eauto.
Qed.

Lemma rows_keyed_two_rows : rows_keyed MoreExamples.two_rows.
Proof.
  intros k s H.
  change (signals MoreExamples.two_rows)
    with (<["SIG1"%string := Examples.sig1]>
            ({["SIG2"%string := Examples.sig2_filled]} : gmap string Signal))
    in H.
  apply lookup_insert_Some in H as [[<- <-] | [_ H]]; [reflexivity|].
  apply lookup_singleton_Some in H as [<- <-]. reflexivity.
Qed.

Lemma loading_witness :
  active_signals
    (_load_active_signals (MoreExamples.empty_monitor MoreExamples.two_rows))
  = map (fun s => (code s, s)) (get_active_signals MoreExamples.two_rows)
  /\ well_formed
       (_load_active_signals
          (MoreExamples.empty_monitor MoreExamples.two_rows))
  /\ (forall (k : string) (s : Signal),
      In (k, s)
        (active_signals
           (_load_active_signals
              (MoreExamples.empty_monitor MoreExamples.two_rows)))
      <-> signals MoreExamples.two_rows !! k = Some s
          /\ is_active s = true).
Proof.
  apply (loading (MoreExamples.empty_monitor MoreExamples.two_rows)).
  - reflexivity.
  - exact rows_keyed_two_rows.
Defined.

(** The counts of the status report: the NEW and the FILLED signals are
    counted apart and never exceed the monitored signals, nor do the
    symbols tracked; and when every monitored signal is NEW or FILLED, as
    registration and the loops leave them, the two counts add up to the
    number of monitored signals. *)
Theorem status_report_counts (monitoring : bool) (now : Z) st :
  let r := get_monitoring_status monitoring now st in
  (ms_new_signals r + ms_filled_signals r <= ms_active_signals r)%nat
  /\ (ms_symbols_tracked r <= ms_active_signals r)%nat
  /\ (Forall (fun kv => is_active (snd kv) = true) (active_signals st) ->
      (ms_new_signals r + ms_filled_signals r = ms_active_signals r)%nat).
Proof.
  intros r. unfold r, get_monitoring_status.
  cbn [ms_new_signals ms_filled_signals ms_active_signals ms_symbols_tracked].
  split; [|split].
  - induction (active_signals st) as [|[k s] l IH]; simpl; [lia|].
    destruct (status s); simpl; lia.
  - induction (active_signals st) as [|[k s] l IH].
    + cbn [map length]. rewrite list_to_set_nil, size_empty. lia.
    + cbn [map length snd]. rewrite list_to_set_cons.
      rewrite size_union_alt, size_singleton.
      pose proof (subseteq_size
                    (list_to_set (map symbol (map snd l)) ∖ {[symbol s]})
                    (list_to_set (map symbol (map snd l)) : gset string)
                    ltac:(apply subseteq_difference_l; reflexivity)).
      lia.
  - induction 1 as [|[k s] l Hs _ IH]; simpl; [lia|].
    unfold is_active in Hs. simpl in Hs.
    destruct (status s); simpl; try discriminate; lia.
Qed.

End registry.

(** ** The risk manager and the cooldowns *)

Section risk.

Implicit Types (cfg : Config) (d : Database).

(** The daily loss cap never blocks: the day's PnL that the check compares
    with the cap is the constant 0, so with any positive cap the check
    answers that generation is allowed. *)
Theorem daily_loss_limit_inert cfg (cap : Q) :
  daily_loss_cap cfg = Fin cap ->
  (0 < cap)%Q ->
  check_daily_loss_limit cfg = (true, Fin 0).
Proof.
  intros Hc Hpos. unfold check_daily_loss_limit. rewrite Hc.
  destruct (leb (Fin 0) (neg (Fin cap))) eqn:E; [|reflexivity].
  apply leb_fin in E. lra.
Qed.

Lemma daily_loss_limit_inert_witness :
  check_daily_loss_limit config = (true, Fin 0).
Proof.
  apply (daily_loss_limit_inert config 0.03); reflexivity.
Defined.

Lemma filter_length_Permutation {A : Type} (f : A -> bool) (l l' : list A) :
  l ≡ₚ l' -> length (List.filter f l) = length (List.filter f l').
Proof.
  induction 1 as [|x l l' _ IH|x y l|l1 l2 l3 _ IH1 _ IH2]; simpl.
  - reflexivity.
  - destruct (f x); simpl; congruence.
  - destruct (f x), (f y); reflexivity.
  - congruence.
Qed.

(** The active rows after a row has been given a completed status: the
    counts that the risk manager takes can only have gone down. *)
Lemma completed_row_counts now (c : string) (x : Status) kw d
    (f : Signal -> bool) :
  terminal x = true ->
  (length (List.filter f (get_active_signals (update_signal_status now c x kw d)))
   <= length (List.filter f (get_active_signals d)))%nat.
Proof.
  intros Hx. unfold update_signal_status.
  destruct (signals d !! c) as [r|] eqn:E; [|reflexivity].
  unfold get_active_signals. simpl.
  assert (Hnew : map_to_list (<[c := update_row now x kw r]> (signals d))
                 ≡ₚ (c, update_row now x kw r)
                    :: map_to_list (delete c (signals d))).
  { rewrite <- (insert_delete_eq (signals d)).
    apply map_to_list_insert, lookup_delete_eq. }
  assert (Hold : map_to_list (signals d)
                 ≡ₚ (c, r) :: map_to_list (delete c (signals d))).
  { symmetry. apply map_to_list_delete, E. }
  assert (P1 : forall l l' : list (string * Signal), l ≡ₚ l' ->
               length (List.filter f (List.filter is_active (map snd l)))
               = length (List.filter f (List.filter is_active (map snd l')))).
  { intros l l' Hp. apply filter_length_Permutation.
    clear -Hp. induction Hp as [|y l l' _ IH|y z l|l1 l2 l3 _ IH1 _ IH2];
      simpl.
    - reflexivity.
    - destruct (is_active y.2); [constructor|]; exact IH.
    - destruct (is_active y.2), (is_active z.2); try reflexivity.
      apply perm_swap.
    - etransitivity; eassumption. }
  rewrite (P1 _ _ Hnew), (P1 _ _ Hold). simpl.
  assert (Hdead : is_active (update_row now x kw r) = false).
  { unfold is_active, update_row.
    destruct (kw_close_price kw); simpl; destruct x; try discriminate;
      reflexivity. }
  rewrite Hdead. destruct (is_active r); simpl; [destruct (f r); simpl|]; lia.
Qed.

(** Completing a signal never closes the gate: a request that the
    concurrency check allowed is still allowed after any row of the table
    has been given the status WIN, LOSE or CANCELLED. *)
Theorem completion_keeps_the_gate_open cfg (symbol0 : option string)
    (mode0 : option Mode) d now (c : string) (x : Status) kw :
  terminal x = true ->
  check_concurrent_signals_limit cfg symbol0 mode0 d = true ->
  check_concurrent_signals_limit cfg symbol0 mode0
    (update_signal_status now c x kw d) = true.
Proof.
  intros Hx. unfold check_concurrent_signals_limit.
  pose proof (completed_row_counts now c x kw d (fun _ => true) Hx) as Hall.
  assert (Hid : forall l : list Signal, List.filter (fun _ => true) l = l).
  { induction l as [|y l IH]; simpl; congruence. }
  rewrite !Hid in Hall.
  destruct (max_concurrent_signals cfg <=? Z.of_nat (length (get_active_signals d)))%Z
    eqn:E1; [discriminate|].
  apply Z.leb_gt in E1.
  assert (E1' : (max_concurrent_signals cfg
                 <=? Z.of_nat
                       (length (get_active_signals
                                  (update_signal_status now c x kw d))))%Z
                = false) by (apply Z.leb_gt; lia).
  rewrite E1'.
  assert (Hsym :
    forall s, (2 <=? length (List.filter (fun y => String.eqb (symbol y) s)
                               (get_active_signals d)))%nat = false ->
              (2 <=? length (List.filter (fun y => String.eqb (symbol y) s)
                               (get_active_signals
                                  (update_signal_status now c x kw d))))%nat
              = false).
  { intros s H. apply Nat.leb_gt in H. apply Nat.leb_gt.
    pose proof (completed_row_counts now c x kw d
                  (fun y => String.eqb (symbol y) s) Hx). lia. }
  assert (Hmode :
    forall m, (3 <=? length (List.filter (fun y => Mode_eqb (mode y) m)
                               (get_active_signals d)))%nat = false ->
              (3 <=? length (List.filter (fun y => Mode_eqb (mode y) m)
                               (get_active_signals
                                  (update_signal_status now c x kw d))))%nat
              = false).
  { intros m H. apply Nat.leb_gt in H. apply Nat.leb_gt.
    pose proof (completed_row_counts now c x kw d
                  (fun y => Mode_eqb (mode y) m) Hx). lia. }
  destruct symbol0 as [s|].
  - destruct (String.eqb s "").
    + destruct mode0 as [m|]; [|reflexivity].
      destruct (3 <=? _)%nat eqn:E3 at 1; [discriminate|].
      rewrite (Hmode m E3). reflexivity.
    + destruct (2 <=? _)%nat eqn:E2 at 1; [discriminate|].
      rewrite (Hsym s E2).
      destruct mode0 as [m|]; [|reflexivity].
      destruct (3 <=? _)%nat eqn:E3 at 1; [discriminate|].
      rewrite (Hmode m E3). reflexivity.
  - destruct mode0 as [m|]; [|reflexivity].
    destruct (3 <=? _)%nat eqn:E3 at 1; [discriminate|].
    rewrite (Hmode m E3). reflexivity.
Qed.

Lemma completion_keeps_the_gate_open_witness :
  check_concurrent_signals_limit config (Some "SOLUSDT"%string)
    (Some INTRADAY)
    (update_signal_status 20 "SIG1" LOSE
       (mkStatusKwargs None (Some (Fin 49800)) (Some "SL"%string))
       MoreExamples.two_rows) = true.
Proof.
  apply (completion_keeps_the_gate_open config (Some "SOLUSDT"%string)
           (Some INTRADAY) MoreExamples.two_rows 20 "SIG1" LOSE
           (mkStatusKwargs None (Some (Fin 49800)) (Some "SL"%string)));
    reflexivity.
Defined.

(** *** Cooldowns *)

(** The engine's cooldown of a pair suppresses exactly until it runs out:
    after [add_cooldown] at [now] for [minutes], a lookup at time [t]
    says yes when [t] is before [now] plus the minutes and leaves the
    dictionary alone; a lookup at or after that time says no and deletes
    the entry.  Setting a cooldown replaces the one the pair had. *)
Theorem engine_cooldown_window (now t minutes : Z) (symbol0 : string)
    (mode0 : Mode) (cooldowns0 : gmap string Z) :
  let set := SignalEngine.add_cooldown now symbol0 mode0 minutes cooldowns0 in
  (SignalEngine._is_in_cooldown t symbol0 mode0 set).1
  = (t <? now + 60 * minutes)
  /\ ((t <? now + 60 * minutes) = true ->
      (SignalEngine._is_in_cooldown t symbol0 mode0 set).2 = set)
  /\ ((t <? now + 60 * minutes) = false ->
      (SignalEngine._is_in_cooldown t symbol0 mode0 set).2
      = delete (pair_key symbol0 mode0) cooldowns0)
  /\ (forall now' minutes',
      SignalEngine.add_cooldown now' symbol0 mode0 minutes' set
      = SignalEngine.add_cooldown now' symbol0 mode0 minutes' cooldowns0).
Proof.
  intros set. unfold set, SignalEngine._is_in_cooldown,
    SignalEngine.add_cooldown.
  rewrite lookup_insert_eq.
  destruct (t <? now + 60 * minutes) eqn:E; simpl.
  - repeat split; try discriminate. intros. apply insert_insert_eq.
  - repeat split; try discriminate.
    + intros _. apply delete_insert_eq.
    + intros. apply insert_insert_eq.
Qed.

(** A lookup never creates a cooldown, and it leaves the other keys of the
    dictionary as they are. *)
Lemma engine_cooldown_lookup_frame (t : Z) (symbol0 : string) (mode0 : Mode)
    (cooldowns0 : gmap string Z) (key : string) :
  key <> pair_key symbol0 mode0 ->
  (SignalEngine._is_in_cooldown t symbol0 mode0 cooldowns0).2 !! key
  = cooldowns0 !! key.
Proof.
  intros Hne. unfold SignalEngine._is_in_cooldown.
  destruct (cooldowns0 !! pair_key symbol0 mode0) as [u|]; [|reflexivity].
  destruct (t <? u); [reflexivity|]. simpl. apply lookup_delete_ne. congruence.
Qed.

Lemma same_pair_refl (symbol0 : string) (mode0 : Mode) (reason : string)
    (until : Z) :
  same_pair symbol0 mode0 (mkCooldown symbol0 mode0 reason until) = true.
Proof.
  unfold same_pair. simpl. rewrite String.eqb_refl. destruct mode0; reflexivity.
Qed.

Lemma filter_negb_nil {A : Type} (f : A -> bool) (l : list A) :
  List.filter f (List.filter (fun x => negb (f x)) l) = [].
Proof.
  induction l as [|x l IH]; simpl; [reflexivity|].
  destruct (f x) eqn:E; simpl; [exact IH|]. rewrite E. exact IH.
Qed.

Lemma filter_negb_idem {A : Type} (f : A -> bool) (l : list A) :
  List.filter (fun x => negb (f x)) (List.filter (fun x => negb (f x)) l)
  = List.filter (fun x => negb (f x)) l.
Proof.
  induction l as [|x l IH]; simpl; [reflexivity|].
  destruct (f x) eqn:E; simpl; [exact IH|]. rewrite E. simpl. congruence.
Qed.

Lemma cooldown_last_write_wins_aux (symbol0 : string) (mode0 : Mode)
    (reason : string) (until : Z) (d : Database) :
  List.filter (same_pair symbol0 mode0)
    (cooldowns (add_cooldown symbol0 mode0 reason until d))
  = [mkCooldown symbol0 mode0 reason until].
Proof.
  unfold add_cooldown. simpl.
  change (fun c : Cooldown =>
            negb (String.eqb (cd_symbol c) symbol0
                  && Mode_eqb (cd_mode c) mode0))
    with (fun c : Cooldown => negb (same_pair symbol0 mode0 c)).
  rewrite List.filter_app. simpl.
  rewrite (same_pair_refl symbol0 mode0 reason until).
  rewrite filter_negb_nil. reflexivity.
Qed.

(** The cooldown table holds one cooldown per pair at most once
    [add_cooldown] has written the pair: the new entry replaces every
    entry the pair had, the entries of the other pairs stay, in their
    order, and the new entry is among the live ones exactly until its
    end. *)
Theorem cooldown_last_write_wins (symbol0 : string) (mode0 : Mode)
    (reason : string) (until t : Z) (d : Database) :
  let d' := add_cooldown symbol0 mode0 reason until d in
  List.filter (same_pair symbol0 mode0) (cooldowns d')
  = [mkCooldown symbol0 mode0 reason until]
  /\ List.filter (fun c => negb (same_pair symbol0 mode0 c)) (cooldowns d')
     = List.filter (fun c => negb (same_pair symbol0 mode0 c)) (cooldowns d)
  /\ (In (mkCooldown symbol0 mode0 reason until) (get_cooldowns t d')
      <-> t < until)
  /\ signals d' = signals d
  /\ executions d' = executions d.
Proof.
  intros d'. unfold d', add_cooldown. simpl.
  fold (same_pair symbol0 mode0).
  change (fun c : Cooldown =>
            negb (String.eqb (cd_symbol c) symbol0
                  && Mode_eqb (cd_mode c) mode0))
    with (fun c : Cooldown => negb (same_pair symbol0 mode0 c)).
  rewrite !List.filter_app. simpl.
  rewrite (same_pair_refl symbol0 mode0 reason until). simpl.
  rewrite filter_negb_nil, filter_negb_idem, app_nil_r.
  repeat split.
  - unfold get_cooldowns. simpl. rewrite List.filter_In.
    intros [_ H]. simpl in H. apply Z.ltb_lt, H.
  - intros H. unfold get_cooldowns. simpl. rewrite List.filter_In. split.
    + apply List.in_app_iff. right. left. reflexivity.
    + simpl. apply Z.ltb_lt, H.
Qed.

(** A stop-loss close leaves exactly one cooldown for the pair of the
    signal: it runs from the close for the minutes of the mode, whatever
    cooldowns the pair had before. *)
Theorem stop_loss_sets_the_cooldown now (signal : Signal) (p : float)
    (st : State) :
  List.filter (same_pair (symbol signal) (mode signal))
    (cooldowns (db (_handle_stop_loss now signal p st)))
  = [mkCooldown (symbol signal) (mode signal) "LOSS"
       (now + 60 * cooldown_minutes (modes (mode signal)))].
Proof.
  unfold _handle_stop_loss. cbn [db set_db put].
  apply (cooldown_last_write_wins_aux (symbol signal) (mode signal)).
Qed.

(** *** The orchestrator's rate limit *)

Lemma _can_generate_signal_blocked cfg (now t0 : Z) (symbol0 : string)
    (mode0 : Mode) d (last : gmap string Z) :
  last !! pair_key symbol0 mode0 = Some t0 ->
  now - t0 < 300 ->
  _can_generate_signal cfg now symbol0 mode0 d last = (false, last).
Proof.
  intros Hl Ht. unfold _can_generate_signal.
  destruct (negb _); [reflexivity|]. rewrite Hl.
  assert (E : (now - t0 <? 300) = true) by (apply Z.ltb_lt; exact Ht).
  rewrite E. reflexivity.
Qed.

Lemma _can_generate_signal_other cfg (now : Z) (symbol0 : string)
    (mode0 : Mode) d (last : gmap string Z) (key : string) :
  key <> pair_key symbol0 mode0 ->
  (_can_generate_signal cfg now symbol0 mode0 d last).2 !! key = last !! key.
Proof.
  intros Hne. unfold _can_generate_signal.
  destruct (negb _); [reflexivity|].
  destruct (last !! pair_key symbol0 mode0) as [t|].
  - destruct (now - t <? 300); [reflexivity|].
    simpl. apply lookup_insert_ne. congruence.
  - simpl. apply lookup_insert_ne. congruence.
Qed.

Lemma generation_checks_blocked cfg (calls : list GenerationCheck)
    (last : gmap string Z) (key : string) (t0 : Z) :
  last !! key = Some t0 ->
  Forall (fun c => gc_now c - t0 < 300) calls ->
  (generation_checks cfg calls last).2 !! key = Some t0
  /\ forall (i : nat) (c : GenerationCheck),
       calls !! i = Some c ->
       pair_key (gc_symbol c) (gc_mode c) = key ->
       (generation_checks cfg calls last).1 !! i = Some false.
Proof.
  intros Hl Ht. revert last Hl.
  induction Ht as [|c calls Hc _ IH]; intros last Hl.
  - split; [exact Hl|]. intros i c H. rewrite lookup_nil in H. discriminate H.
  - cbn [generation_checks].
    destruct (decide (pair_key (gc_symbol c) (gc_mode c) = key)) as [Hk|Hk].
    + subst key.
      rewrite (_can_generate_signal_blocked cfg _ t0 _ _ (gc_db c) last Hl Hc).
      destruct (IH last Hl) as [IH1 IH2].
      destruct (generation_checks cfg calls last) as [answers last2].
      split; [exact IH1|].
      intros [|i] c' Hi Hk'; [reflexivity|]. simpl. simpl in Hi.
      exact (IH2 i c' Hi Hk').
    + pose proof (_can_generate_signal_other cfg (gc_now c) (gc_symbol c)
                    (gc_mode c) (gc_db c) last key ltac:(congruence)) as Ho.
      destruct (_can_generate_signal cfg (gc_now c) (gc_symbol c) (gc_mode c)
                  (gc_db c) last) as [answer last1].
      simpl in Ho. rewrite <- Ho in Hl.
      destruct (IH last1 Hl) as [IH1 IH2].
      destruct (generation_checks cfg calls last1) as [answers last2].
      split; [exact IH1|].
      intros [|i] c' Hi Hk'.
      * simpl in Hi. injection Hi as <-. contradiction.
      * simpl. simpl in Hi. exact (IH2 i c' Hi Hk').
Qed.

(** After a check that allowed generation for a pair at [t0], every check
    for that pair in the next 300 seconds is refused, whatever the table
    of signals holds and whatever checks are made for other pairs in
    between; the refused checks do not restart the interval. *)
Theorem generation_rate_limit cfg (t0 : Z) (symbol0 : string) (mode0 : Mode)
    d (last last1 : gmap string Z) (calls : list GenerationCheck) :
  _can_generate_signal cfg t0 symbol0 mode0 d last = (true, last1) ->
  Forall (fun c => gc_now c - t0 < 300) calls ->
  (generation_checks cfg calls last1).2 !! pair_key symbol0 mode0 = Some t0
  /\ forall (i : nat) (c : GenerationCheck),
       calls !! i = Some c ->
       pair_key (gc_symbol c) (gc_mode c) = pair_key symbol0 mode0 ->
       (generation_checks cfg calls last1).1 !! i = Some false.
Proof.
  intros Hgrant Ht.
  apply generation_checks_blocked; [|exact Ht].
  unfold _can_generate_signal in Hgrant.
  destruct (negb _); [discriminate|].
  destruct (last !! pair_key symbol0 mode0) as [t|].
  - destruct (t0 - t <? 300); [discriminate|].
    injection Hgrant as <-. apply lookup_insert_eq.
  - injection Hgrant as <-. apply lookup_insert_eq.
Qed.

Lemma generation_rate_limit_witness :
  (generation_checks config
     [mkGenerationCheck 100 "ETHUSDT" SWING MoreExamples.two_rows;
      mkGenerationCheck 299 "BTCUSDT" SWING MoreExamples.two_rows]
     (<[pair_key "BTCUSDT" SWING := 0]> ∅)).2
    !! pair_key "BTCUSDT" SWING = Some 0
  /\ forall (i : nat) (c : GenerationCheck),
       [mkGenerationCheck 100 "ETHUSDT" SWING MoreExamples.two_rows;
        mkGenerationCheck 299 "BTCUSDT" SWING MoreExamples.two_rows] !! i
       = Some c ->
       pair_key (gc_symbol c) (gc_mode c) = pair_key "BTCUSDT" SWING ->
       (generation_checks config
          [mkGenerationCheck 100 "ETHUSDT" SWING MoreExamples.two_rows;
           mkGenerationCheck 299 "BTCUSDT" SWING MoreExamples.two_rows]
          (<[pair_key "BTCUSDT" SWING := 0]> ∅)).1 !! i = Some false.
Proof.
  apply (generation_rate_limit config 0 "BTCUSDT" SWING MoreExamples.two_rows
           ∅ (<[pair_key "BTCUSDT" SWING := 0]> ∅)).
  - reflexivity.
  - repeat constructor.
Defined.

End risk.

(** ** Further properties: the scorer *)

Section more_scorer.

Implicit Types (df : DataFrame) (d : Direction).

Lemma gtb_ltb_exclusive (x y : float) : gtb x y && ltb x y = false.
Proof.
  unfold gtb. destruct (ltb y x) eqn:E; [|reflexivity].
  simpl. apply ltb_asym. exact E.
Qed.

Lemma leb_geb_exclusive (x : float) (a b : Q) :
  (a < b)%Q -> leb x (Fin a) && geb x (Fin b) = false.
Proof.
  intros Hab. unfold geb.
  destruct x as [| | |q]; try reflexivity.
  destruct (leb (Fin q) (Fin a)) eqn:E1; [|reflexivity].
  destruct (leb (Fin b) (Fin q)) eqn:E2; [|reflexivity].
  apply leb_fin in E1. apply leb_fin in E2. lra.
Qed.

Lemma band_exclusive (a b c e : bool) :
  b && e = false -> (a && b) && (c && e) = false.
Proof. destruct a, b, c, e; simpl; congruence. Qed.

Lemma detect_rsi_cross_exclusive df :
  detect_rsi_cross df "up" && detect_rsi_cross df "down" = false.
Proof.
  unfold detect_rsi_cross, try_except.
  destruct (length df <? 2)%nat; [reflexivity|].
  destruct (col_iloc_back df "rsi" 0) as [c|]; [|reflexivity].
  rewrite !bind_ok.
  destruct (col_iloc_back df "rsi" 1) as [p|]; [|reflexivity].
  rewrite !bind_ok.
  destruct (isna c || isna p); [reflexivity|].
  cbn [String.eqb Ascii.eqb Bool.eqb].
  apply band_exclusive, gtb_ltb_exclusive.
Qed.


Lemma detect_stoch_rsi_signal_exclusive df :
  detect_stoch_rsi_signal df "long" && detect_stoch_rsi_signal df "short"
  = false.
Proof.
  unfold detect_stoch_rsi_signal, try_except.
  destruct (length df <? 3)%nat; [reflexivity|].
  destruct (col_iloc_back df "stoch_rsi_k" 0) as [c|]; [|reflexivity].
  rewrite !bind_ok.
  destruct (col_iloc_back df "stoch_rsi_k" 1) as [p|]; [|reflexivity].
  rewrite !bind_ok.
  destruct (isna c || isna p); [reflexivity|].
  cbn [String.eqb Ascii.eqb Bool.eqb].
  apply band_exclusive, gtb_ltb_exclusive.
Qed.

Lemma detect_macd_cross_exclusive df :
  detect_macd_cross df "up" && detect_macd_cross df "down" = false.
Proof.
  unfold detect_macd_cross, try_except.
  destruct (length df <? 2)%nat; [reflexivity|].
  destruct (col_iloc_back df "macd_line" 0) as [cm|]; [|reflexivity].
  rewrite !bind_ok.
  destruct (col_iloc_back df "macd_signal" 0) as [cs|]; [|reflexivity].
  rewrite !bind_ok.
  destruct (col_iloc_back df "macd_line" 1) as [pm|]; [|reflexivity].
  rewrite !bind_ok.
  destruct (col_iloc_back df "macd_signal" 1) as [ps|]; [|reflexivity].
  rewrite !bind_ok.
  destruct (isna cm || isna cs || isna pm || isna ps); [reflexivity|].
  cbn [String.eqb Ascii.eqb Bool.eqb].
  apply band_exclusive, gtb_ltb_exclusive.
Qed.

Lemma _check_bb_confluence_exclusive df :
  _check_bb_confluence df LONG && _check_bb_confluence df SHORT = false.
Proof.
  unfold _check_bb_confluence, try_except.
  destruct (iloc_back df 0) as [latest|]; [|reflexivity].
  rewrite !bind_ok.
  destruct (getitem latest "close") as [close|]; [|reflexivity].
  rewrite !bind_ok.
  destruct (getitem latest "bb_lower") as [bb_lower|]; [|reflexivity].
  rewrite !bind_ok.
  destruct (leb close (mul bb_lower (Fin 1.01))); [|reflexivity].
  destruct (getitem latest "bb_pband") as [bb_pband|]; [|reflexivity].
  rewrite !bind_ok.
  destruct (getitem latest "bb_upper") as [bb_upper|];
    [|apply andb_false_r].
  rewrite !bind_ok.
  destruct (geb close (mul bb_upper (Fin 0.99))); [|apply andb_false_r].
  apply leb_geb_exclusive. reflexivity.
Qed.

Lemma _check_obv_alignment_exclusive df :
  _check_obv_alignment df LONG && _check_obv_alignment df SHORT = false.
Proof.
  unfold _check_obv_alignment, try_except.
  destruct (length df <? 5)%nat; [reflexivity|].
  destruct (col_iloc_back df "obv" 0) as [obv_last|]; [|reflexivity].
  rewrite !bind_ok.
  destruct (col_iloc_back df "obv" 4) as [obv_first|]; [|reflexivity].
  rewrite !bind_ok.
  apply gtb_ltb_exclusive.
Qed.

Lemma _check_swing_confluence_exclusive (primary_df confirm_df : DataFrame) :
  _check_swing_confluence primary_df confirm_df LONG
  && _check_swing_confluence primary_df confirm_df SHORT = false.
Proof.
  unfold _check_swing_confluence, try_except.
  destruct (iloc_back primary_df 0) as [primary_latest|]; [|reflexivity].
  rewrite !bind_ok.
  destruct (iloc_back confirm_df 0) as [confirm_latest|]; [|reflexivity].
  rewrite !bind_ok.
  destruct (getitem primary_latest "macd_line") as [pl|]; [|reflexivity].
  rewrite !bind_ok.
  destruct (notna pl).
  - destruct (getitem primary_latest "macd_signal") as [ps|]; [|reflexivity].
    rewrite !bind_ok.
    destruct (getitem confirm_latest "macd_line") as [cl|];
      [|rewrite !bind_raise; reflexivity].
    rewrite !bind_ok.
    destruct (notna cl).
    + destruct (getitem confirm_latest "macd_signal") as [cs|];
        [|reflexivity].
      rewrite !bind_ok.
      pose proof (gtb_ltb_exclusive pl ps) as E.
      destruct (gtb pl ps), (ltb pl ps); try discriminate E;
        simpl; try reflexivity; apply andb_false_r.
    + rewrite !bind_ok. rewrite !andb_false_r. reflexivity.
  - rewrite !bind_ok.
    destruct (getitem confirm_latest "macd_line") as [cl|]; [|reflexivity].
    rewrite !bind_ok.
    destruct (notna cl).
    + destruct (getitem confirm_latest "macd_signal") as [cs|];
        [|reflexivity].
      reflexivity.
    + reflexivity.
Qed.

Lemma bias_is_exclusive (b : TrendBias) :
  bias_is b LONG && bias_is b SHORT = false.
Proof. destruct b as [[|]|]; reflexivity. Qed.

Lemma add_if_points (b : bool) (points score : Z) :
  add_if b points score = score + (if b then points else 0).
Proof. destruct b; unfold add_if; lia. Qed.

Lemma points_bounds (b : bool) (points : Z) :
  0 <= points -> 0 <= (if b then points else 0) <= points.
Proof. destruct b; lia. Qed.

Lemma points_exclusive (a b : bool) (points : Z) :
  0 <= points -> a && b = false ->
  (if a then points else 0) + (if b then points else 0) <= points.
Proof. destruct a, b; simpl; intros; try discriminate; lia. Qed.


(** The fast mode's score is at most 75, so the confidence attached to a
    SCALPING candidate is never HIGH; the INTRADAY score is at most 85 and
    the SWING score at most 90. *)
Theorem score_ceilings (primary_df confirm_df : DataFrame)
    (confirm_latest : gmap string float) (mode_config : ModeConfig)
    (trend_bias : TrendBias) (adx : float) (volume_valid : bool) d :
  (0 <= scalping_score primary_df mode_config trend_bias adx volume_valid d
     <= 75
   /\ _get_confidence_level
        (scalping_score primary_df mode_config trend_bias adx volume_valid d)
      <> HIGH)
  /\ match intraday_score primary_df confirm_df confirm_latest mode_config
             trend_bias volume_valid d with
     | Ok score => 0 <= score <= 85
     | Raise _ => True
     end
  /\ match swing_score primary_df confirm_df confirm_latest mode_config
             trend_bias volume_valid d with
     | Ok score => 0 <= score <= 90
     | Raise _ => True
     end.
Proof.
  split; [|split].
  - assert (H : 0 <= scalping_score primary_df mode_config trend_bias adx
                       volume_valid d <= 75).
    { unfold scalping_score. rewrite !add_if_points.
      repeat match goal with
             | |- context [if ?b then ?p else 0] =>
                 let H := fresh in
                 pose proof (points_bounds b p ltac:(lia)) as H;
                 generalize dependent (if b then p else 0); intros
             end.
      lia. }
    split; [exact H|].
    unfold _get_confidence_level.
    destruct (80 <=? _) eqn:E; [apply Z.leb_le in E; lia|].
    destruct (65 <=? _); discriminate.
  - unfold intraday_score.
    destruct (adx_strong confirm_latest mode_config) as [strong|]; [|exact I].
    rewrite bind_ok, !add_if_points.
    repeat match goal with
           | |- context [if ?b then ?p else 0] =>
               let H := fresh in
               pose proof (points_bounds b p ltac:(lia)) as H;
               generalize dependent (if b then p else 0); intros
           end.
    lia.
  - unfold swing_score.
    destruct (adx_strong confirm_latest mode_config) as [strong|]; [|exact I].
    rewrite bind_ok, !add_if_points.
    repeat match goal with
           | |- context [if ?b then ?p else 0] =>
               let H := fresh in
               pose proof (points_bounds b p ltac:(lia)) as H;
               generalize dependent (if b then p else 0); intros
           end.
    lia.
Qed.

(** In SCALPING the two directions never both reach the minimum score (for
    any minimum of 53 or more; the configured one is 55): the points that do
    not depend on the direction sum to 30, and every other component is
    granted to at most one direction.  The order in which the loop tries
    LONG and SHORT therefore never decides the direction. *)
Theorem scalping_one_direction (primary_df : DataFrame)
    (mode_config : ModeConfig) (trend_bias : TrendBias) (adx : float)
    (volume_valid : bool) :
  53 <= score_min mode_config ->
  (score_min mode_config
     <=? scalping_score primary_df mode_config trend_bias adx volume_valid
           LONG)
  && (score_min mode_config
        <=? scalping_score primary_df mode_config trend_bias adx volume_valid
              SHORT)
  = false.
Proof.
  intros Hmin.
  assert (H : scalping_score primary_df mode_config trend_bias adx
                volume_valid LONG
              + scalping_score primary_df mode_config trend_bias adx
                  volume_valid SHORT <= 105).
  { unfold scalping_score. rewrite !add_if_points.
    pose proof (points_exclusive _ _ 20 ltac:(lia)
                  (bias_is_exclusive trend_bias)).
    pose proof (points_exclusive _ _ 10 ltac:(lia)
                  (detect_rsi_cross_exclusive primary_df)).
    pose proof (points_exclusive _ _ 10 ltac:(lia)
                  (detect_stoch_rsi_signal_exclusive primary_df)).
    pose proof (points_exclusive _ _ 5 ltac:(lia)
                  (_check_bb_confluence_exclusive primary_df)).
    pose proof (points_bounds
                  (geb adx (of_int (adx_min mode_config))) 10 ltac:(lia)).
    pose proof (points_bounds volume_valid 10 ltac:(lia)).
    pose proof (points_bounds (detect_ema_retest primary_df "ema_50") 10
                  ltac:(lia)).
    lia. }
  destruct (_ <=? scalping_score _ _ _ _ _ LONG) eqn:EL; [|reflexivity].
  destruct (_ <=? scalping_score _ _ _ _ _ SHORT) eqn:ES; [|reflexivity].
  apply Z.leb_le in EL, ES. lia.
Qed.

Lemma scalping_one_direction_witness :
  (score_min (modes SCALPING)
     <=? scalping_score Examples.scalping_primary (modes SCALPING)
           (Trend LONG) (Fin 30) true LONG)
  && (score_min (modes SCALPING)
        <=? scalping_score Examples.scalping_primary (modes SCALPING)
              (Trend LONG) (Fin 30) true SHORT)
  = false.
Proof.
  apply (scalping_one_direction Examples.scalping_primary (modes SCALPING)
           (Trend LONG) (Fin 30) true).
  simpl. lia.
Defined.

(** In SWING the two directions never both reach the minimum score (for any
    minimum of 61 or more; the configured one is 65). *)
Theorem swing_one_direction (primary_df confirm_df : DataFrame)
    (confirm_latest : gmap string float) (mode_config : ModeConfig)
    (trend_bias : TrendBias) (volume_valid : bool) (long short : Z) :
  61 <= score_min mode_config ->
  swing_score primary_df confirm_df confirm_latest mode_config trend_bias
    volume_valid LONG = Ok long ->
  swing_score primary_df confirm_df confirm_latest mode_config trend_bias
    volume_valid SHORT = Ok short ->
  (score_min mode_config <=? long) && (score_min mode_config <=? short)
  = false.
Proof.
  intros Hmin. unfold swing_score.
  destruct (adx_strong confirm_latest mode_config) as [strong|];
    [|discriminate].
  rewrite !bind_ok, !add_if_points. intros [= <-] [= <-].
  pose proof (points_exclusive _ _ 20 ltac:(lia)
                (bias_is_exclusive trend_bias)).
  pose proof (points_exclusive _ _ 20 ltac:(lia)
                (detect_macd_cross_exclusive primary_df)).
  pose proof (points_exclusive _ _ 15 ltac:(lia)
                (_check_obv_alignment_exclusive primary_df)).
  pose proof (points_exclusive _ _ 5 ltac:(lia)
                (_check_swing_confluence_exclusive primary_df confirm_df)).
  pose proof (points_bounds strong 10 ltac:(lia)).
  pose proof (points_bounds volume_valid 10 ltac:(lia)).
  pose proof (points_bounds
                (_check_volume_profile_confluence primary_df LONG) 10
                ltac:(lia)).
  pose proof (points_bounds
                (_check_volume_profile_confluence primary_df SHORT) 10
                ltac:(lia)).
  destruct (score_min mode_config <=? _) eqn:EL;
    [apply Z.leb_le in EL|reflexivity].
  destruct (score_min mode_config <=? _) eqn:ES;
    [apply Z.leb_le in ES|reflexivity].
  lia.
Qed.


(** On [swing_primary] under a daily uptrend LONG scores 75 (trend bias,
    MACD cross, rising on-balance volume, volume boost, ADX) and clears
    the minimum of 65; SHORT scores 20 and does not. *)
Lemma swing_one_direction_witness :
  (swing_score MoreExamples.swing_primary MoreExamples.daily_uptrend
     (Examples.row [("adx"%string, 25%Q)]) (modes SWING)
     (get_trend_bias MoreExamples.daily_uptrend SWING) true LONG = Ok 75
   /\ swing_score MoreExamples.swing_primary MoreExamples.daily_uptrend
        (Examples.row [("adx"%string, 25%Q)]) (modes SWING)
        (get_trend_bias MoreExamples.daily_uptrend SWING) true SHORT = Ok 20
   /\ (score_min (modes SWING) <=? 75) = true
   /\ (score_min (modes SWING) <=? 20) = false)
  /\ (score_min (modes SWING) <=? 75) && (score_min (modes SWING) <=? 20)
     = false.
Proof.
  split; [repeat split; vm_compute; reflexivity|].
  apply (swing_one_direction MoreExamples.swing_primary
           MoreExamples.daily_uptrend
           (Examples.row [("adx"%string, 25%Q)]) (modes SWING)
           (get_trend_bias MoreExamples.daily_uptrend SWING) true 75 20).
  - simpl. lia.
  - vm_compute. reflexivity.
  - vm_compute. reflexivity.
Defined.

(** *** Trend bias *)

Ltac cloud_cases H :=
  match type of H with
  | match ?m ≫= _ with Ok _ => _ | Raise _ => _ end = _ =>
      destruct m as [[[|]|]|]; simpl in H; congruence
  end.

(** The SWING bias is the stricter one: whenever it names a direction, the
    bias of the two other modes, read from the same frame, names the same
    direction; and the close then lies strictly beyond the 200-period
    average on that side. *)
Theorem swing_bias_is_stricter df d :
  get_trend_bias df SWING = Trend d ->
  get_trend_bias df SCALPING = Trend d
  /\ get_trend_bias df INTRADAY = Trend d
  /\ exists (latest : gmap string float) (close ema_200 : float),
       iloc_back df 0 = Ok latest
       /\ latest !! "close"%string = Some close
       /\ latest !! "ema_200"%string = Some ema_200
       /\ match d with
          | LONG => lt ema_200 close
          | SHORT => lt close ema_200
          end.
Proof.
  unfold get_trend_bias, try_except.
  destruct (iloc_back df 0) as [latest|]; [|discriminate].
  rewrite !bind_ok. unfold getitem.
  destruct (latest !! "ema_200"%string) as [ema_200|] eqn:He;
    [|discriminate].
  rewrite !bind_ok.
  destruct (notna ema_200).
  - destruct (latest !! "close"%string) as [close|] eqn:Hc; [|discriminate].
    rewrite !bind_ok.
    destruct (gtb close ema_200) eqn:Hg.
    + rewrite !bind_ok. intros H.
      assert (d = LONG) as ->.
      { destruct (latest !! "senkou_span_a"%string); [|discriminate H].
        rewrite bind_ok in H.
        cloud_cases H. }
      repeat split; try reflexivity.
      exists latest, close, ema_200. repeat split; assumption || reflexivity.
    + destruct (ltb close ema_200) eqn:Hl.
      * rewrite !bind_ok. intros H.
        assert (d = SHORT) as ->.
        { destruct (latest !! "senkou_span_a"%string); [|discriminate H].
          rewrite bind_ok in H.
          cloud_cases H. }
        repeat split; try reflexivity.
        exists latest, close, ema_200. repeat split; assumption || reflexivity.
      * rewrite !bind_ok. intros H. exfalso.
        destruct (latest !! "senkou_span_a"%string); [|discriminate H].
        rewrite bind_ok in H.
        cloud_cases H.
  - rewrite !bind_ok. intros H. exfalso.
    destruct (latest !! "senkou_span_a"%string); [|discriminate H].
    rewrite bind_ok in H.
    cloud_cases H.
Qed.

Lemma swing_bias_is_stricter_witness :
  get_trend_bias MoreExamples.daily_uptrend SCALPING = Trend LONG
  /\ get_trend_bias MoreExamples.daily_uptrend INTRADAY = Trend LONG
  /\ exists (latest : gmap string float) (close ema_200 : float),
       iloc_back MoreExamples.daily_uptrend 0 = Ok latest
       /\ latest !! "close"%string = Some close
       /\ latest !! "ema_200"%string = Some ema_200
       /\ lt ema_200 close.
Proof.
  apply (swing_bias_is_stricter MoreExamples.daily_uptrend LONG).
  vm_compute. reflexivity.
Defined.

End more_scorer.

(** ** Further properties: market conditions *)

Section market.



End market.

(** ** Further properties: the daily metrics *)

Section metrics.

Lemma outcome_counts (rows : list Signal) :
  (length (List.filter (has_status WIN) rows)
   + length (List.filter (has_status LOSE) rows)
   <= length (List.filter was_filled rows))%nat
  /\ (length (List.filter was_filled rows) <= length rows)%nat.
Proof.
  induction rows as [|s rows [IH1 IH2]]; [simpl; lia|].
  cbn [List.filter].
  destruct (has_status WIN s) eqn:EW, (has_status LOSE s) eqn:EL,
    (was_filled s) eqn:EF; cbn [length]; try lia; exfalso;
    unfold has_status, was_filled in *; destruct (status s); discriminate.
Qed.

Lemma not_negative_add (x y : float) :
  ltb x (Fin 0) = false -> ltb y (Fin 0) = false ->
  ltb (add x y) (Fin 0) = false.
Proof.
  intros Ha Hb.
  destruct x as [| | |a], y as [| | |b]; try reflexivity;
    try (vm_compute in Ha; discriminate Ha);
    try (vm_compute in Hb; discriminate Hb).
  change (add (Fin a) (Fin b)) with (Fin (a + b)).
  destruct (ltb (Fin (a + b)) (Fin 0)) eqn:E3; [|reflexivity].
  apply ltb_fin in E3.
  assert (~ (a < 0)%Q) by (intros Hx; apply ltb_fin in Hx; congruence).
  assert (~ (b < 0)%Q) by (intros Hx; apply ltb_fin in Hx; congruence).
  lra.
Qed.

Lemma not_negative_pysum (l : list float) :
  Forall (fun x => ltb x (Fin 0) = false) l ->
  ltb (pysum l) (Fin 0) = false.
Proof.
  unfold pysum. intros H.
  assert (H0 : ltb (Fin 0) (Fin 0) = false) by reflexivity.
  revert H0. generalize (Fin 0) at 1 3. 
  induction H as [|x l Hx _ IH]; intros acc Hacc; [exact Hacc|].
  simpl. apply IH. apply not_negative_add; assumption.
Qed.


Lemma not_negative_ratio (x r : float) :
  gtb r (Fin 0) = true -> ltb (div (abs x) r) (Fin 0) = false.
Proof.
  intros Hr.
  destruct r as [| | |b]; try (vm_compute in Hr; discriminate Hr).
  - destruct x; reflexivity.
  - apply ltb_fin in Hr.
    assert (Hb : Qeq_bool b 0 = false).
    { destruct (Qeq_bool b 0) eqn:E; [|reflexivity].
      apply Qeq_bool_iff in E. lra. }
    assert (Hs : Z.sgn (Qnum b) = 1).
    { apply Z.sgn_pos. unfold Qlt in Hr. simpl in Hr. lia. }
    destruct x as [| | |a]; try reflexivity.
    + unfold abs, div. rewrite Hb. unfold sgn. rewrite Hs. reflexivity.
    + unfold abs, div. rewrite Hb. unfold sgn. rewrite Hs. reflexivity.
    + unfold abs, div. rewrite Hb.
      destruct (ltb (Fin (Qabs a / b)) (Fin 0)) eqn:E; [|reflexivity].
      apply ltb_fin in E. pose proof (Qabs_nonneg a) as Ha.
      assert (0 <= Qabs a / b)%Q; [|lra].
      apply Qle_shift_div_l; lra.
Qed.

Lemma not_negative_mean (x : float) (n : nat) :
  (0 < n)%nat -> ltb x (Fin 0) = false ->
  ltb (div x (of_int (Z.of_nat n))) (Fin 0) = false.
Proof.
  intros Hn Hx.
  assert (Hq : (0 < inject_Z (Z.of_nat n))%Q).
  { unfold Qlt, inject_Z. simpl. lia. }
  assert (Hb : Qeq_bool (inject_Z (Z.of_nat n)) 0 = false).
  { destruct (Qeq_bool _ 0) eqn:E; [|reflexivity].
    apply Qeq_bool_iff in E. lra. }
  assert (Hs : Z.sgn (Z.of_nat n) = 1) by (apply Z.sgn_pos; lia).
  unfold of_int.
  destruct x as [| | |a]; try reflexivity;
    try (vm_compute in Hx; discriminate Hx).
  - unfold div. rewrite Hb. unfold sgn. cbn [Qnum inject_Z]. rewrite Hs.
    reflexivity.
  - unfold div. rewrite Hb.
    destruct (ltb (Fin (a / inject_Z (Z.of_nat n))) (Fin 0)) eqn:E;
      [|reflexivity].
    apply ltb_fin in E.
    assert (~ (a < 0)%Q) by (intros Ha; apply ltb_fin in Ha; congruence).
    assert (0 <= a / inject_Z (Z.of_nat n))%Q; [|lra].
    apply Qle_shift_div_l; lra.
Qed.

Lemma rr_values_not_negative (rows : list Signal) :
  Forall (fun x => ltb x (Fin 0) = false) (rr_values rows).
Proof.
  unfold rr_values.
  induction rows as [|s rows IH]; [constructor|].
  cbn [flat_map]. apply Forall_app. split; [|exact IH].
  destruct (pnl_points s) as [pnl|]; [|constructor].
  destruct (_ && _); [|constructor].
  destruct (gtb _ (Fin 0)) eqn:E; [|constructor].
  constructor; [|constructor].
  apply not_negative_ratio. exact E.
Qed.

(** The stored metrics of a day are consistent: the decided signals (WIN
    and LOSE) are among the filled ones, which are among the generated
    ones; the win rate is the share of WIN among the filled signals, a
    number between 0 and 1, and it is 0 when none was filled; and the
    average reward-to-risk ratio is never negative. *)
Theorem daily_metrics_consistent (rows : list Signal) (m : DailyMetrics) :
  calculate_daily_metrics rows = Some m ->
  signals_generated m = length rows
  /\ (0 < signals_generated m)%nat
  /\ (signals_win m + signals_lose m <= signals_filled m)%nat
  /\ (signals_filled m <= signals_generated m)%nat
  /\ (exists q : Q,
        win_rate m = Fin q
        /\ (0 <= q <= 1)%Q
        /\ (q * inject_Z (Z.of_nat (signals_filled m))
            == inject_Z (Z.of_nat (signals_win m)))%Q)
  /\ (signals_filled m = 0%nat -> win_rate m = Fin 0)
  /\ ltb (avg_rr m) (Fin 0) = false.
Proof.
  unfold calculate_daily_metrics.
  destruct rows as [|s0 rows0] eqn:Hrows; [discriminate|].
  rewrite <- Hrows. intros [= <-].
  cbn [signals_generated signals_filled signals_win signals_lose win_rate
       avg_rr].
  destruct (outcome_counts rows) as [H1 H2].
  split; [reflexivity|]. split; [rewrite Hrows; simpl; lia|].
  split; [exact H1|]. split; [exact H2|]. split; [|split].
  - destruct (List.filter was_filled rows) as [|f fs] eqn:Hf.
    + exists 0%Q. cbn [length] in *.
      assert (length (List.filter (has_status WIN) rows) = 0%nat) as ->
        by lia.
      repeat split; try reflexivity; lra.
    + set (w := length (List.filter (has_status WIN) rows)) in *.
      set (n := length (f :: fs)) in *.
      assert (Hn : (0 < n)%nat) by (unfold n; simpl; lia).
      assert (Hq : (0 < inject_Z (Z.of_nat n))%Q).
      { unfold Qlt, inject_Z. simpl. lia. }
      assert (Hw : (0 <= inject_Z (Z.of_nat w))%Q).
      { unfold Qle, inject_Z. simpl. lia. }
      assert (Hwn : (inject_Z (Z.of_nat w) <= inject_Z (Z.of_nat n))%Q).
      { unfold Qle, inject_Z. simpl. lia. }
      assert (Hb : Qeq_bool (inject_Z (Z.of_nat n)) 0 = false).
      { destruct (Qeq_bool _ 0) eqn:E; [|reflexivity].
        apply Qeq_bool_iff in E. lra. }
      exists (inject_Z (Z.of_nat w) / inject_Z (Z.of_nat n))%Q.
      split; [unfold of_int, div; rewrite Hb; reflexivity|].
      split; [split|].
      * apply Qle_shift_div_l; lra.
      * apply Qle_shift_div_r; lra.
      * field. lra.
  - destruct (List.filter was_filled rows) as [|f fs]; [reflexivity|].
    intros H0. discriminate H0.
  - destruct (List.filter was_filled rows) as [|f fs]; [reflexivity|].
    destruct (rr_values (f :: fs)) as [|v vs] eqn:Hv; [reflexivity|].
    apply not_negative_mean; [simpl; lia|].
    apply not_negative_pysum. rewrite <- Hv. apply rr_values_not_negative.
Qed.

Lemma daily_metrics_consistent_witness :
  exists m : DailyMetrics,
    calculate_daily_metrics
      [Examples.sig1; Examples.sig2_filled; MoreExamples.sig1_won]
    = Some m
    /\ signals_generated m = 3%nat
    /\ (0 < signals_generated m)%nat
    /\ (signals_win m + signals_lose m <= signals_filled m)%nat
    /\ (signals_filled m <= signals_generated m)%nat
    /\ (exists q : Q,
          win_rate m = Fin q
          /\ (0 <= q <= 1)%Q
          /\ (q * inject_Z (Z.of_nat (signals_filled m))
              == inject_Z (Z.of_nat (signals_win m)))%Q)
    /\ (signals_filled m = 0%nat -> win_rate m = Fin 0)
    /\ ltb (avg_rr m) (Fin 0) = false.
Proof.
  eexists. split; [reflexivity|].
  apply (daily_metrics_consistent
           [Examples.sig1; Examples.sig2_filled; MoreExamples.sig1_won]).
  reflexivity.
Defined.

End metrics.
